(** * Tool dispatch servers of the mcp-servers repository

    A shallow embedding of the request handlers of the adapters
    (Telegram, RSS feed, Supabase, iOS simulator, Bluesky, Obsidian and
    Apple Shortcuts): their tool catalogs, their [CallTool] dispatch
    switches and their start-up checks, together with the fragment of the
    JavaScript runtime they rely on (dynamic values, truthiness, string
    conversion, [JSON.stringify] / [JSON.parse], exceptions and awaited
    calls to a backing capability).

    Below the handlers, it embeds the simulator service and its type
    guards, and the note operations of the Obsidian vault over the file
    system.  The recursion of [searchNotes] follows the answers of the
    file system, so it is written with a bound on its depth; its
    properties hold for every bound that the vault stays below.  The
    functions of the [path] module, the front-matter library and the
    messages of runtime errors whose text depends on the input are
    parameters.

    Numbers are integers, and stand for JavaScript numbers in the range
    of the safe integers; the JSON functions are exact on that range,
    and [JSON.parse] leaves any other text to a parameter where the code
    depends on it.  The properties of an object are listed in the order
    of the runtime: integer-like names first, in ascending order, then
    the other names in the order they were written.  Strings are
    sequences of bytes holding UTF-8, which is what [trim] reads to find
    the white space of Unicode. *)

From Stdlib Require Import ZArith String Ascii List Lia Bool.
From Stdlib Require Import DecimalString DecimalZ DecimalPos DecimalFacts.
From stdpp Require Import base option gmap strings list.

Local Open Scope string_scope.

(** ** JavaScript values *)

(** Dynamic values as the handlers see them.  A number is an integer,
    and stands for a JavaScript number when it is a safe integer (below
    2^53 in absolute value, see [safe_integer]): fractions and larger
    numbers are outside the model.  An object holds its properties in the
    order they were written; the order in which the runtime lists them is
    [ordered] below. *)
#[warnings="-register-all"]
Inductive value : Type :=
| JUndefined
| JNull
| JBool (b : bool)
| JNum (n : Z)
| JStr (s : string)
| JArr (l : list value)
| JObj (m : list (string * value)).

Abbreviation object := (list (string * value)).

(** [o[k]] on a plain object: the property, or [undefined]. *)
Fixpoint get (k : string) (m : object) : value :=
  match m with
  | [] => JUndefined
  | (k', v) :: m' => if String.eqb k k' then v else get k m'
  end.

(** ToBoolean: what [if (v)], [!v], [v || d] and [v ? a : b] test. *)
Definition truthy (v : value) : bool :=
  match v with
  | JUndefined | JNull => false
  | JBool b => b
  | JNum n => negb (n =? 0)%Z
  | JStr s => negb (String.eqb s "")
  | JArr _ | JObj _ => true
  end.

Definition typeof (v : value) : string :=
  match v with
  | JUndefined => "undefined"
  | JNull | JArr _ | JObj _ => "object"
  | JBool _ => "boolean"
  | JNum _ => "number"
  | JStr _ => "string"
  end.

(** Destructuring default [{ x = d }]: used only when the property is
    [undefined]. *)
Definition default_to (d v : value) : value :=
  match v with JUndefined => d | _ => v end.

(** The integers that are JavaScript numbers without loss
    ([Number.isSafeInteger]). *)
Definition safe_integer (n : Z) : bool := (Z.abs n <=? 9007199254740991)%Z.

(** Number-to-string conversion of a safe integer: its decimal digits
    (the runtime turns to an exponent only from 10^21 on). *)
Definition string_of_Z (n : Z) : string := NilZero.string_of_int (Z.to_int n).

(** [Array.prototype.join]. *)
Fixpoint join (sep : string) (l : list string) : string :=
  match l with
  | [] => ""
  | [x] => x
  | x :: l' => x +:+ sep +:+ join sep l'
  end.

(** ToString, as applied by template literals and [String(v)]. *)
Fixpoint ToString (v : value) : string :=
  match v with
  | JUndefined => "undefined"
  | JNull => "null"
  | JBool b => if b then "true" else "false"
  | JNum n => string_of_Z n
  | JStr s => s
  | JArr l =>
      join "," (List.map (fun x => match x with
                                   | JUndefined | JNull => ""
                                   | _ => ToString x
                                   end) l)
  | JObj _ => "[object Object]"
  end.

(** ** The order of the properties of an object *)

(** The runtime lists the own properties of an object with the array
    indices first, in ascending numeric order, then the other names in
    the order of their creation ([OrdinaryOwnPropertyKeys]).  An array
    index is a name that is the decimal text of an integer from 0 to
    2^32 - 2. *)
Fixpoint digits_value (acc : Z) (s : string) : option Z :=
  match s with
  | "" => Some acc
  | String c s' =>
      let n := nat_of_ascii c in
      if Nat.leb 48 n && Nat.leb n 57
      then digits_value (10 * acc + Z.of_nat (n - 48))%Z s'
      else None
  end.

Definition array_index (k : string) : option Z :=
  match k with
  | "" => None
  | _ =>
      match digits_value 0 k with
      | Some n =>
          if String.eqb (string_of_Z n) k && (n <=? 4294967294)%Z then Some n else None
      | None => None
      end
  end.

(** [k], created before [k'], is also listed before it. *)
Definition before (k k' : string) : bool :=
  match array_index k, array_index k' with
  | Some i, Some j => (i <=? j)%Z
  | Some _, None => true
  | None, Some _ => false
  | None, None => true
  end.

Fixpoint insert_property {A} (e : string * A) (l : list (string * A))
  : list (string * A) :=
  match l with
  | [] => [e]
  | e' :: l' =>
      if before (fst e) (fst e') then e :: l else e' :: insert_property e l'
  end.

(** The properties written in the order [l], in the order the runtime
    lists them. *)
Definition ordered {A} (l : list (string * A)) : list (string * A) :=
  fold_right insert_property [] l.

(** Names written in the order the runtime lists them. *)
Fixpoint in_order (keys : list string) : bool :=
  match keys with
  | k :: (k' :: _) as rest => before k k' && in_order rest
  | _ => true
  end.

(** ** JSON.stringify *)

Definition dquote : ascii := ascii_of_nat 34.
Definition LF : ascii := ascii_of_nat 10.

Definition hex_digit (n : nat) : ascii :=
  match n with
  | 0 => "0" | 1 => "1" | 2 => "2" | 3 => "3" | 4 => "4" | 5 => "5"
  | 6 => "6" | 7 => "7" | 8 => "8" | 9 => "9" | 10 => "a" | 11 => "b"
  | 12 => "c" | 13 => "d" | 14 => "e" | _ => "f"
  end%char.

(** One code unit of QuoteJSONString: the quote and the backslash are
    escaped, control characters take their short escape or [\u00XX]. *)
Definition quote_char (c : ascii) : string :=
  let n := nat_of_ascii c in
  if Ascii.eqb c dquote then String "\" (String dquote "")
  else if Ascii.eqb c "\" then "\\"
  else if Nat.eqb n 8 then "\b"
  else if Nat.eqb n 12 then "\f"
  else if Nat.eqb n 10 then "\n"
  else if Nat.eqb n 13 then "\r"
  else if Nat.eqb n 9 then "\t"
  else if Nat.ltb n 32 then
    "\u00" +:+ String (hex_digit (n / 16)%nat) (String (hex_digit (n mod 16)%nat) "")
  else String c "".

Fixpoint quote_chars (s : string) : string :=
  match s with
  | "" => ""
  | String c s' => quote_char c +:+ quote_chars s'
  end.

Definition QuoteJSONString (s : string) : string :=
  String dquote (quote_chars s +:+ String dquote "").

(** The closing step of SerializeJSONObject / SerializeJSONArray. *)
Definition wrap (opening closing gap stepback indent : string)
    (partial : list string) : string :=
  match partial with
  | [] => opening +:+ closing
  | _ =>
      if String.eqb gap "" then opening +:+ join "," partial +:+ closing
      else opening +:+ String LF indent
           +:+ join ("," +:+ String LF indent) partial
           +:+ String LF stepback +:+ closing
  end.

(** SerializeJSONProperty: [None] is [undefined] (the value has no JSON
    text); an [undefined] property is left out of an object and printed as
    [null] in an array.  The properties of an object are printed in the
    order the runtime lists them. *)
Fixpoint SerializeJSONProperty (gap indent : string) (v : value) : option string :=
  match v with
  | JUndefined => None
  | JNull => Some "null"
  | JBool b => Some (if b then "true" else "false")
  | JNum n => Some (string_of_Z n)
  | JStr s => Some (QuoteJSONString s)
  | JArr l =>
      let partial :=
        List.map (fun x => match SerializeJSONProperty gap (indent +:+ gap) x with
                           | Some str => str
                           | None => "null"
                           end) l in
      Some (wrap "[" "]" gap indent (indent +:+ gap) partial)
  | JObj m =>
      let partial :=
        List.map snd
          (ordered
             (List.flat_map
                (fun kv => match SerializeJSONProperty gap (indent +:+ gap) (snd kv) with
                           | Some str =>
                               [(fst kv,
                                 QuoteJSONString (fst kv) +:+ ":"
                                 +:+ (if String.eqb gap "" then "" else " ") +:+ str)]
                           | None => []
                           end) m)) in
      Some (wrap "{" "}" gap indent (indent +:+ gap) partial)
  end.

Fixpoint spaces (n : nat) : string :=
  match n with
  | 0 => ""
  | S n' => String " " (spaces n')
  end.

(** [JSON.stringify(v, null, space)]; [space = 0] is [JSON.stringify(v)]. *)
Definition JSON_stringify (v : value) (space : nat) : option string :=
  SerializeJSONProperty (spaces (Nat.min 10 space)) "" v.

(** ** JSON.parse *)

Fixpoint distinct (l : list string) : bool :=
  match l with
  | [] => true
  | k :: l' => negb (existsb (String.eqb k) l') && distinct l'
  end.

(** The values of the model that JSON text gives back as they are: no
    [undefined] anywhere, numbers that are safe integers, and objects
    whose property names are distinct and written in the order the
    runtime lists them. *)
Fixpoint is_json (v : value) : bool :=
  match v with
  | JUndefined => false
  | JNum n => safe_integer n
  | JArr l => forallb is_json l
  | JObj m =>
      distinct (List.map fst m) && in_order (List.map fst m)
      && forallb (fun kv => is_json (snd kv)) m
  | _ => true
  end.

(** [o[k] = v] on an object under construction: a name that is already
    there keeps its place and takes the new value. *)
Fixpoint set_property (k : string) (v : value) (m : object) : object :=
  match m with
  | [] => [(k, v)]
  | (k', v') :: m' =>
      if String.eqb k k' then (k, v) :: m' else (k', v') :: set_property k v m'
  end.

(** The object that the members of an object literal build, in order,
    with its properties as the runtime lists them. *)
Definition object_of (members : object) : object :=
  ordered (fold_left (fun acc kv => set_property (fst kv) (snd kv) acc) members []).

Definition is_ws (c : ascii) : bool :=
  let n := nat_of_ascii c in
  Nat.eqb n 32 || Nat.eqb n 9 || Nat.eqb n 10 || Nat.eqb n 13.

Fixpoint skip_ws (s : string) : string :=
  match s with
  | String c s' => if is_ws c then skip_ws s' else s
  | "" => ""
  end.

Definition is_digit (c : ascii) : bool :=
  let n := nat_of_ascii c in
  Nat.leb 48 n && Nat.leb n 57.

Definition hex_value (c : ascii) : option nat :=
  let n := nat_of_ascii c in
  if Nat.leb 48 n && Nat.leb n 57 then Some (n - 48)%nat
  else if Nat.leb 97 n && Nat.leb n 102 then Some (n - 87)%nat
  else if Nat.leb 65 n && Nat.leb n 70 then Some (n - 55)%nat
  else None.

(** The character a two-character escape stands for. *)
Definition unescape (e : ascii) : option ascii :=
  if Ascii.eqb e dquote then Some dquote
  else if Ascii.eqb e "\" then Some "\"%char
  else if Ascii.eqb e "/" then Some "/"%char
  else if Ascii.eqb e "b" then Some (ascii_of_nat 8)
  else if Ascii.eqb e "f" then Some (ascii_of_nat 12)
  else if Ascii.eqb e "n" then Some (ascii_of_nat 10)
  else if Ascii.eqb e "r" then Some (ascii_of_nat 13)
  else if Ascii.eqb e "t" then Some (ascii_of_nat 9)
  else None.

Definition cons_char (c : ascii) (r : option (string * string))
  : option (string * string) :=
  match r with
  | Some (str, rest) => Some (String c str, rest)
  | None => None
  end.

(** The characters of a string literal after its opening quote, up to the
    closing quote.  A [\uXXXX] escape above one byte is outside the model. *)
Fixpoint parse_chars (s : string) : option (string * string) :=
  match s with
  | "" => None
  | String c s' =>
      if Ascii.eqb c dquote then Some ("", s')
      else if Ascii.eqb c "\" then
        match s' with
        | String e s'' =>
            if Ascii.eqb e "u" then
              match s'' with
              | String h1 (String h2 (String h3 (String h4 s3))) =>
                  match hex_value h1, hex_value h2, hex_value h3, hex_value h4 with
                  | Some 0, Some 0, Some a, Some b =>
                      cons_char (ascii_of_nat (16 * a + b)) (parse_chars s3)
                  | _, _, _, _ => None
                  end
              | _ => None
              end
            else
              match unescape e with
              | Some c' => cons_char c' (parse_chars s'')
              | None => None
              end
        | "" => None
        end
      else if Nat.ltb (nat_of_ascii c) 32 then None
      else cons_char c (parse_chars s')
  end.

Fixpoint span_digits (s : string) : string * string :=
  match s with
  | String c s' =>
      if is_digit c then let '(ds, rest) := span_digits s' in (String c ds, rest)
      else ("", s)
  | "" => ("", "")
  end.

(** What may not follow the digits of an integer. *)
Definition continues_number (s : string) : bool :=
  match s with
  | String c _ => is_digit c || Ascii.eqb c "." || Ascii.eqb c "e" || Ascii.eqb c "E"
  | "" => false
  end.

Definition leading_zero (ds : string) : bool :=
  match ds with
  | String c (String _ _) => Ascii.eqb c "0"
  | _ => false
  end.

(** The optional minus sign of a number. *)
Definition sign (s : string) : bool * string :=
  match s with
  | String c s' => if Ascii.eqb c "-" then (true, s') else (false, s)
  | "" => (false, s)
  end.

(** An integer literal: an optional minus sign and digits without a
    leading zero; fractions and exponents are outside the model. *)
Definition parse_number (s : string) : option (Z * string) :=
  let '(negative, s1) := sign s in
  let '(ds, rest) := span_digits s1 in
  if leading_zero ds || continues_number rest then None
  else
    match NilZero.uint_of_string ds with
    | Some d => Some (Z.of_int (if negative then Decimal.Neg d else Decimal.Pos d), rest)
    | None => None
    end.

(** The rest of [s] after the literal [word]. *)
Fixpoint strip_prefix (word s : string) : option string :=
  match word, s with
  | "", _ => Some s
  | String a word', String b s' =>
      if Ascii.eqb a b then strip_prefix word' s' else None
  | String _ _, "" => None
  end.

Definition expect (word : string) (s : string) (v : value) : option (value * string) :=
  match strip_prefix word s with
  | Some rest => Some (v, rest)
  | None => None
  end.

Fixpoint parse_value (fuel : nat) (s : string) : option (value * string) :=
  match fuel with
  | 0 => None
  | S fuel =>
      match skip_ws s with
      | "" => None
      | String c rest =>
          if is_digit c || Ascii.eqb c "-" then
            match parse_number (String c rest) with
            | Some (n, rest') => if safe_integer n then Some (JNum n, rest') else None
            | None => None
            end
          else if Ascii.eqb c "n" then expect "ull" rest JNull
          else if Ascii.eqb c "t" then expect "rue" rest (JBool true)
          else if Ascii.eqb c "f" then expect "alse" rest (JBool false)
          else if Ascii.eqb c dquote then
            match parse_chars rest with
            | Some (str, rest') => Some (JStr str, rest')
            | None => None
            end
          else if Ascii.eqb c "[" then
            match skip_ws rest with
            | "" => None
            | String c' rest' =>
                if Ascii.eqb c' "]" then Some (JArr [], rest')
                else
                  match parse_elements fuel rest with
                  | Some (l, rest'') => Some (JArr l, rest'')
                  | None => None
                  end
            end
          else if Ascii.eqb c "{" then
            match skip_ws rest with
            | "" => None
            | String c' rest' =>
                if Ascii.eqb c' "}" then Some (JObj [], rest')
                else
                  match parse_members fuel rest with
                  | Some (m, rest'') => Some (JObj (object_of m), rest'')
                  | None => None
                  end
            end
          else None
      end
  end
with parse_elements (fuel : nat) (s : string) : option (list value * string) :=
  match fuel with
  | 0 => None
  | S fuel =>
      match parse_value fuel s with
      | None => None
      | Some (v, s1) =>
          match skip_ws s1 with
          | "" => None
          | String c s2 =>
              if Ascii.eqb c "," then
                match parse_elements fuel s2 with
                | Some (l, s3) => Some (v :: l, s3)
                | None => None
                end
              else if Ascii.eqb c "]" then Some ([v], s2)
              else None
          end
      end
  end
with parse_members (fuel : nat) (s : string) : option (object * string) :=
  match fuel with
  | 0 => None
  | S fuel =>
      match skip_ws s with
      | "" => None
      | String q s0 =>
          if Ascii.eqb q dquote then
            match parse_chars s0 with
            | None => None
            | Some (k, s1) =>
                match skip_ws s1 with
                | "" => None
                | String c s2 =>
                    if Ascii.eqb c ":" then
                      match parse_value fuel s2 with
                      | None => None
                      | Some (v, s3) =>
                          match skip_ws s3 with
                          | "" => None
                          | String c' s4 =>
                              if Ascii.eqb c' "," then
                                match parse_members fuel s4 with
                                | Some (m, s5) => Some ((k, v) :: m, s5)
                                | None => None
                                end
                              else if Ascii.eqb c' "}" then Some ([(k, v)], s4)
                              else None
                          end
                      end
                    else None
                end
            end
          else None
      end
  end.

(** [JSON.parse(s)] on the texts of the model: one value, with only
    white space around it, whose numbers are safe integers written
    without fraction or exponent.  [None] is a SyntaxError or a text with
    a number of another kind, which the runtime reads and the model does
    not. *)
Definition JSON_parse (s : string) : option value :=
  match parse_value (S (String.length s)) s with
  | Some (v, rest) => if String.eqb (skip_ws rest) "" then Some v else None
  | None => None
  end.

(** ** Exceptions *)

(** [ErrorCode] of the protocol SDK, with the JSON-RPC numbers. *)
Inductive ErrorCode :=
| ConnectionClosed | RequestTimeout
| ParseError | InvalidRequest | MethodNotFound | InvalidParams | InternalError.

Definition code_number (c : ErrorCode) : Z :=
  match c with
  | ConnectionClosed => -32000
  | RequestTimeout => -32001
  | ParseError => -32700
  | InvalidRequest => -32600
  | MethodNotFound => -32601
  | InvalidParams => -32602
  | InternalError => -32603
  end%Z.

(** What a handler can throw, or a capability can reject with. *)
Inductive exn :=
| McpError (code : ErrorCode) (msg : string)   (* new McpError(code, msg) *)
| Error (msg : string)                         (* new Error(msg), library errors *)
| TypeError (msg : string)                     (* raised by the runtime *)
| ZodError (msg : string)                      (* schema.parse failure *)
| PostgrestError (msg : string).               (* error object of a database reply *)

(** [error.message].  The SDK's [McpError] constructor prefixes the text it
    is given with the numeric code. *)
Definition message (e : exn) : string :=
  match e with
  | McpError c m => "MCP error " +:+ string_of_Z (code_number c) +:+ ": " +:+ m
  | Error m | TypeError m | ZodError m | PostgrestError m => m
  end.

Definition instanceof_McpError (e : exn) : bool :=
  match e with McpError _ _ => true | _ => false end.

Definition instanceof_ZodError (e : exn) : bool :=
  match e with ZodError _ => true | _ => false end.

(** [error instanceof Error]: a database error object is a plain object. *)
Definition instanceof_Error (e : exn) : bool :=
  match e with PostgrestError _ => false | _ => true end.

(** ** Handlers as computations over a backing capability *)

(** A handler runs against the backing capability [cap], which answers each
    awaited call with a rejection or a reply; it yields what it throws or
    returns, and the calls it made, in order. *)
Section Exec.
Context {call resp : Type}.

Definition Exec (A : Type) : Type :=
  (call -> exn + resp) -> (exn + A) * list call.

Definition ret {A} (a : A) : Exec A := fun _ => (inr a, []).

Definition throw {A} (e : exn) : Exec A := fun _ => (inl e, []).

Definition bind {A B} (m : Exec A) (k : A -> Exec B) : Exec B :=
  fun cap =>
    match m cap with
    | (inl e, t) => (inl e, t)
    | (inr a, t) => let '(r, t') := k a cap in (r, (t ++ t')%list)
    end.

(** [await cap.method(args)] *)
Definition await (c : call) : Exec resp := fun cap => (cap c, [c]).

(** [try { body } catch (error) { handler }] *)
Definition try_catch {A} (body : Exec A) (handler : exn -> Exec A) : Exec A :=
  fun cap =>
    match body cap with
    | (inl e, t) => let '(r, t') := handler e cap in (r, (t ++ t')%list)
    | (inr a, t) => (inr a, t)
    end.
End Exec.

Arguments Exec : clear implicits.

#[export] Instance Exec_ret {call resp} : MRet (Exec call resp) := @ret call resp.
#[export] Instance Exec_bind {call resp} : MBind (Exec call resp) :=
  fun A B k m => bind m k.

(** ** Protocol data *)

Module Tool.
Record t := { name : string; description : string; inputSchema : value }.
End Tool.

Module Request.
(** [request.params] of a call-tool request. *)
Record t := { name : string; arguments : option object }.
End Request.

Record ContentBlock := { type : string; text : option string }.

(** What a call-tool handler returns: every field may be left out. *)
Record CallToolResult := {
  content : option (list ContentBlock);
  isError : option bool;
  toolResult : option value
}.

Definition text_block (s : option string) : ContentBlock :=
  {| type := "text"; text := s |}.

(** [{ content: [{ type: 'text', text }] }] *)
Definition content_only (s : option string) : CallToolResult :=
  {| content := Some [text_block s]; isError := None; toolResult := None |}.

(** [{ content: [{ type: 'text', text }], isError }] *)
Definition content_flag (s : string) (flag : bool) : CallToolResult :=
  {| content := Some [text_block (Some s)]; isError := Some flag; toolResult := None |}.

(** The flag as a client reads it: a missing [isError] counts as false. *)
Definition is_error (r : CallToolResult) : bool :=
  match isError r with Some b => b | None => false end.

(** [const { a, ... } = request.params.arguments]: destructuring
    [undefined] raises a TypeError.  The wording of its message is the
    engine's and changes with the way the pattern is compiled (read as
    a property of a temporary, the engine reports the property it
    could not read); the text below is the one for the pattern as
    written, and no statement relies on the wording, only on the
    exception being raised before any call. *)
Definition destructure {call resp} (first : string) (args : option object)
  : Exec call resp object :=
  match args with
  | Some o => ret o
  | None =>
      throw (TypeError ("Cannot destructure property '" +:+ first +:+
                        "' of 'request.params.arguments' as it is undefined."))
  end.

(** ** Further runtime operations *)

(** [v.k] where [v] is neither [undefined] nor [null]: the own property of
    an object, and [undefined] on any other value for the names used here. *)
Definition prop (k : string) (v : value) : value :=
  match v with
  | JObj m => get k m
  | _ => JUndefined
  end.

(** [args?.k] on the optional arguments of a request. *)
Definition opt_get (k : string) (args : option object) : value :=
  match args with
  | Some o => get k o
  | None => JUndefined
  end.

Definition of_option (o : option string) : value :=
  match o with
  | Some s => JStr s
  | None => JUndefined
  end.

(** [l.slice(0, end)]: a negative [end] counts from the end of the list. *)
Definition slice0 {A} (l : list A) (end_ : Z) : list A :=
  let len := Z.of_nat (length l) in
  let k := if (end_ <? 0)%Z then Z.max (len + end_) 0 else Z.min end_ len in
  take (Z.to_nat k) l.

(** [hay.includes(needle)] *)
Fixpoint includes (needle hay : string) : bool :=
  String.prefix needle hay ||
  match hay with
  | "" => false
  | String _ hay' => includes needle hay'
  end.

Fixpoint chars (s : string) : list value :=
  match s with
  | "" => []
  | String c s' => JStr (String c "") :: chars s'
  end.

Definition indexed (l : list value) : object :=
  imap (fun i x => (string_of_Z (Z.of_nat i), x)) l.

(** [Object.entries(v)], in the order the runtime lists the properties.
    The entries of a string are given for one-byte characters. *)
Definition Object_entries (v : value) : exn + object :=
  match v with
  | JUndefined | JNull => inl (TypeError "Cannot convert undefined or null to object")
  | JObj m => inr (ordered m)
  | JArr l => inr (indexed l)
  | JStr s => inr (indexed (chars s))
  | JBool _ | JNum _ => inr []
  end.

(** Lifting of a result computed without the capability. *)
Definition lift {call resp A} (r : exn + A) : Exec call resp A :=
  match r with
  | inl e => throw e
  | inr a => ret a
  end.

(** [v.k] in general: reading a property of [undefined] or [null] throws. *)
Definition member {call resp} (k : string) (v : value) : Exec call resp value :=
  match v with
  | JUndefined =>
      throw (TypeError ("Cannot read properties of undefined (reading '" +:+ k +:+ "')"))
  | JNull =>
      throw (TypeError ("Cannot read properties of null (reading '" +:+ k +:+ "')"))
  | _ => ret (prop k v)
  end.

(** [s.split(sep)] for a one-character separator. *)
Fixpoint split (sep : ascii) (s : string) : list string :=
  match s with
  | "" => [""]
  | String c s' =>
      if Ascii.eqb c sep then "" :: split sep s'
      else match split sep s' with
           | x :: r => String c x :: r
           | [] => [String c ""]
           end
  end.

(** White space and line terminators, which [trim] removes, as UTF-8
    writes them: the one-byte characters (tab to carriage return, space),
    U+00A0 in two bytes, and in three bytes U+1680, U+2000 to U+200A,
    U+2028, U+2029, U+202F, U+205F, U+3000 and U+FEFF. *)
Definition is_space (c : ascii) : bool :=
  let n := nat_of_ascii c in
  (Nat.leb 9 n && Nat.leb n 13) || Nat.eqb n 32.

Definition is_space2 (c1 c2 : ascii) : bool :=
  Nat.eqb (nat_of_ascii c1) 194 && Nat.eqb (nat_of_ascii c2) 160.

Definition is_space3 (c1 c2 c3 : ascii) : bool :=
  let n1 := nat_of_ascii c1 in
  let n2 := nat_of_ascii c2 in
  let n3 := nat_of_ascii c3 in
  (Nat.eqb n1 225 && Nat.eqb n2 154 && Nat.eqb n3 128)
  || (Nat.eqb n1 226 && Nat.eqb n2 128
      && ((Nat.leb 128 n3 && Nat.leb n3 138)
          || Nat.eqb n3 168 || Nat.eqb n3 169 || Nat.eqb n3 175))
  || (Nat.eqb n1 226 && Nat.eqb n2 129 && Nat.eqb n3 159)
  || (Nat.eqb n1 227 && Nat.eqb n2 128 && Nat.eqb n3 128)
  || (Nat.eqb n1 239 && Nat.eqb n2 187 && Nat.eqb n3 191).

(** [l] without the sequences of one, two or three bytes at its start
    that the tests accept. *)
Fixpoint strip (s1 : ascii -> bool) (s2 : ascii -> ascii -> bool)
    (s3 : ascii -> ascii -> ascii -> bool) (l : list ascii) : list ascii :=
  match l with
  | c1 :: l1 =>
      if s1 c1 then strip s1 s2 s3 l1
      else
        match l1 with
        | c2 :: l2 =>
            if s2 c1 c2 then strip s1 s2 s3 l2
            else
              match l2 with
              | c3 :: l3 => if s3 c1 c2 c3 then strip s1 s2 s3 l3 else l
              | [] => l
              end
        | [] => l
        end
  | [] => []
  end.

(** [l] starts with a sequence that the tests accept. *)
Definition leads (s1 : ascii -> bool) (s2 : ascii -> ascii -> bool)
    (s3 : ascii -> ascii -> ascii -> bool) (l : list ascii) : bool :=
  match l with
  | c1 :: l1 =>
      s1 c1
      || match l1 with
         | c2 :: l2 =>
             s2 c1 c2
             || match l2 with
                | c3 :: _ => s3 c1 c2 c3
                | [] => false
                end
         | [] => false
         end
  | [] => false
  end.

Definition trim_start (l : list ascii) : list ascii :=
  strip is_space is_space2 is_space3 l.

(** The same from the end, on the bytes in reverse. *)
Definition trim_end (l : list ascii) : list ascii :=
  rev (strip is_space (fun c2 c1 => is_space2 c1 c2)
         (fun c3 c2 c1 => is_space3 c1 c2 c3) (rev l)).

Definition trim (s : string) : string :=
  string_of_list_ascii (trim_end (trim_start (list_ascii_of_string s))).

(** ** Process start *)

(** How the start of an adapter process ends: an exception that nothing
    catches, a call of [process.exit], or a server connected to its
    transport and accepting requests.  The [main] functions below are
    modelled up to their checks of the configuration: what follows a
    passed check (the construction of the client, the connection of
    the transport) is not, and [Serving] there stands for a start that
    got past its checks.  The statements about them conclude only
    about the starts that fail. *)
Inductive startup :=
| Uncaught (e : exn)
| Exit (status : Z)
| Serving.

(** Exit status of the process; the runtime ends a process whose start
    throws with status 1.  A serving process has not exited. *)
Definition exit_status (s : startup) : option Z :=
  match s with
  | Uncaught _ => Some 1%Z
  | Exit n => Some n
  | Serving => None
  end.

Definition accepts_requests (s : startup) : bool :=
  match s with Serving => true | _ => false end.

(** [process.env.NAME], tested with [!]: unset and empty both fail. *)
Definition env_missing (env : gmap string string) (name : string) : bool :=
  match env !! name with
  | None => true
  | Some v => String.eqb v ""
  end.

(** Schema literals: [{ type, description }]. *)
Definition described (ty desc : string) : value :=
  JObj [("type", JStr ty); ("description", JStr desc)].

Definition strings (l : list string) : value := JArr (List.map JStr l).

(** ** Telegram adapter *)

Module Telegram.

Definition main (env : gmap string string) : startup :=
  if env_missing env "TELEGRAM_BOT_TOKEN"
  then Uncaught (Error "TELEGRAM_BOT_TOKEN environment variable is required")
  else Serving.

(** Methods of the bot client the handlers await. *)
Inductive call :=
| sendMessage (chat_id text parse_mode : value)
| getChat (chat_id : value)
| sendPhoto (chat_id photo caption : value)
| getUpdates (limit timeout : value).

Definition tools : list Tool.t :=
  [ {| Tool.name := "send_message";
       Tool.description := "Send a message to a Telegram chat";
       Tool.inputSchema :=
         JObj [("type", JStr "object");
               ("properties",
                 JObj [("chat_id", described "string" "Chat ID or @username of the target chat");
                       ("text", described "string" "Text message to send");
                       ("parse_mode",
                         JObj [("type", JStr "string");
                               ("enum", strings ["Markdown"; "HTML"]);
                               ("description", JStr "Parse mode for message formatting")])]);
               ("required", strings ["chat_id"; "text"])] |};
    {| Tool.name := "get_chat";
       Tool.description := "Get information about a chat";
       Tool.inputSchema :=
         JObj [("type", JStr "object");
               ("properties",
                 JObj [("chat_id", described "string" "Chat ID or @username of the target chat")]);
               ("required", strings ["chat_id"])] |};
    {| Tool.name := "send_photo";
       Tool.description := "Send a photo to a Telegram chat";
       Tool.inputSchema :=
         JObj [("type", JStr "object");
               ("properties",
                 JObj [("chat_id", described "string" "Chat ID or @username of the target chat");
                       ("photo", described "string" "URL or file path of the photo");
                       ("caption", described "string" "Optional caption for the photo")]);
               ("required", strings ["chat_id"; "photo"])] |};
    {| Tool.name := "get_updates";
       Tool.description := "Get latest updates/messages from the bot";
       Tool.inputSchema :=
         JObj [("type", JStr "object");
               ("properties",
                 JObj [("limit", described "number" "Limit the number of updates to retrieve (default: 10)");
                       ("timeout", described "number" "Timeout in seconds for long polling (default: 0)")])] |} ].

Definition ListTools : Exec call value (list Tool.t) := mret tools.

Definition CallTool (request : Request.t) : Exec call value CallToolResult :=
  try_catch
    (let name := Request.name request in
     if String.eqb name "send_message" then
       args ← destructure "chat_id" (Request.arguments request);
       result ← await (sendMessage (get "chat_id" args) (get "text" args)
                                   (get "parse_mode" args));
       mret (content_only (JSON_stringify result 2))
     else if String.eqb name "get_chat" then
       args ← destructure "chat_id" (Request.arguments request);
       result ← await (getChat (get "chat_id" args));
       mret (content_only (JSON_stringify result 2))
     else if String.eqb name "send_photo" then
       args ← destructure "chat_id" (Request.arguments request);
       result ← await (sendPhoto (get "chat_id" args) (get "photo" args)
                                 (get "caption" args));
       mret (content_only (JSON_stringify result 2))
     else if String.eqb name "get_updates" then
       args ← destructure "limit" (Request.arguments request);
       result ← await (getUpdates (default_to (JNum 10) (get "limit" args))
                                  (default_to (JNum 0) (get "timeout" args)));
       mret (content_only (JSON_stringify result 2))
     else
       throw (McpError MethodNotFound ("Unknown tool: " +:+ name)))
    (fun error =>
       throw (McpError InternalError ("Telegram API error: " +:+ message error))).

End Telegram.

(** ** Obsidian adapter *)

Module Obsidian.

Definition main (env : gmap string string) : startup :=
  if env_missing env "OBSIDIAN_VAULT_PATH"
  then Uncaught (Error "OBSIDIAN_VAULT_PATH environment variable is required")
  else Serving.

(** The vault operations the handlers await; each works on the file
    system below the vault root. *)
Inductive call :=
| readNote (notePath : value)
| writeNote (notePath content frontmatter : value)
| searchNotes (query : value).

Definition tools : list Tool.t :=
  [ {| Tool.name := "read_note";
       Tool.description := "Read a note from the Obsidian vault";
       Tool.inputSchema :=
         JObj [("type", JStr "object");
               ("properties",
                 JObj [("path", described "string" "Path to the note relative to vault root")]);
               ("required", strings ["path"])] |};
    {| Tool.name := "write_note";
       Tool.description := "Write a note to the Obsidian vault";
       Tool.inputSchema :=
         JObj [("type", JStr "object");
               ("properties",
                 JObj [("path", described "string" "Path to the note relative to vault root");
                       ("content", described "string" "Note content in markdown format");
                       ("frontmatter", described "object" "Optional YAML frontmatter")]);
               ("required", strings ["path"; "content"])] |};
    {| Tool.name := "search_notes";
       Tool.description := "Search notes in the Obsidian vault";
       Tool.inputSchema :=
         JObj [("type", JStr "object");
               ("properties", JObj [("query", described "string" "Search query")]);
               ("required", strings ["query"])] |} ].

Definition ListTools : Exec call value (list Tool.t) := mret tools.

Definition CallTool (request : Request.t) : Exec call value CallToolResult :=
  try_catch
    (let name := Request.name request in
     if String.eqb name "read_note" then
       args ← destructure "path" (Request.arguments request);
       note ← await (readNote (get "path" args));
       mret (content_only (JSON_stringify note 2))
     else if String.eqb name "write_note" then
       args ← destructure "path" (Request.arguments request);
       _ ← await (writeNote (get "path" args) (get "content" args)
                            (get "frontmatter" args));
       mret (content_only
               (Some ("Note written successfully to " +:+ ToString (get "path" args))))
     else if String.eqb name "search_notes" then
       args ← destructure "query" (Request.arguments request);
       notes ← await (searchNotes (get "query" args));
       mret (content_only (JSON_stringify notes 2))
     else
       throw (McpError MethodNotFound ("Unknown tool: " +:+ name)))
    (fun error =>
       if instanceof_McpError error then throw error
       else throw (McpError InternalError
                     (if instanceof_Error error then message error
                      else "[object Object]"))).

End Obsidian.

(** ** RSS feed adapter *)

Module Rss.

(** The fields of a parsed feed and of its items that the handlers read. *)
Module Item.
Record t := {
  title : option string;
  link : option string;
  pubDate : option string;
  content : option string;
  contentSnippet : option string
}.
End Item.

Module Feed.
Record t := {
  title : option string;
  description : option string;
  link : option string;
  lastBuildDate : option string;
  items : list Item.t
}.
End Feed.

Inductive call := parseURL (url : string).

Record FetchFeedArgs := { ff_url : string; ff_limit : option Z }.

Record GetFeedItemsArgs := { gi_url : string; gi_limit : option Z; gi_filter : value }.

Definition limit_schema : value :=
  JObj [("type", JStr "number");
        ("description", JStr "Maximum number of items to return (default: 10)");
        ("minimum", JNum 1)].

Definition tools : list Tool.t :=
  [ {| Tool.name := "fetch_feed";
       Tool.description := "Fetch and parse an RSS feed, returning metadata and recent items";
       Tool.inputSchema :=
         JObj [("type", JStr "object");
               ("properties",
                 JObj [("url", described "string" "URL of the RSS feed");
                       ("limit", limit_schema)]);
               ("required", strings ["url"])] |};
    {| Tool.name := "get_feed_items";
       Tool.description := "Get items from an RSS feed with optional filtering";
       Tool.inputSchema :=
         JObj [("type", JStr "object");
               ("properties",
                 JObj [("url", described "string" "URL of the RSS feed");
                       ("limit", limit_schema);
                       ("filter",
                         JObj [("type", JStr "object");
                               ("properties",
                                 JObj [("after", described "string" "Only return items after this date (ISO 8601)");
                                       ("before", described "string" "Only return items before this date (ISO 8601)");
                                       ("search", described "string" "Search term to filter items by title/content")])])]);
               ("required", strings ["url"])] |} ].

Definition ListTools : Exec call Feed.t (list Tool.t) := mret tools.

(** [args.limit || 10] *)
Definition limit_or_10 (limit : option Z) : Z :=
  match limit with
  | Some n => if (n =? 0)%Z then 10%Z else n
  | None => 10%Z
  end.

(** The object literal built from one item. *)
Definition render_item (item : Item.t) : value :=
  JObj [("title", of_option (Item.title item));
        ("link", of_option (Item.link item));
        ("pubDate", of_option (Item.pubDate item));
        ("content", of_option (Item.content item));
        ("contentSnippet", of_option (Item.contentSnippet item))].

Definition render_feed (feed : Feed.t) (limit : Z) : value :=
  JObj [("title", of_option (Feed.title feed));
        ("description", of_option (Feed.description feed));
        ("link", of_option (Feed.link feed));
        ("lastBuildDate", of_option (Feed.lastBuildDate feed));
        ("items", JArr (List.map render_item (slice0 (Feed.items feed) limit)))].

Definition handleFetchFeed (args : FetchFeedArgs) : Exec call Feed.t CallToolResult :=
  try_catch
    (feed ← await (parseURL (ff_url args));
     let limit := limit_or_10 (ff_limit args) in
     mret (content_only (JSON_stringify (render_feed feed limit) 2)))
    (fun error =>
       mret (content_flag ("Failed to fetch feed: " +:+ message error) true)).

Section Runtime.
(** Time value of [new Date(v)], [None] for an invalid date, and
    [String.prototype.toLowerCase]: both are the runtime's. *)
Variable Date_value : value -> option Z.
Variable toLowerCase : string -> string.

(** [new Date(a) > new Date(b)]: false when either date is invalid. *)
Definition date_gt (a b : value) : bool :=
  match Date_value a, Date_value b with
  | Some x, Some y => (y <? x)%Z
  | _, _ => false
  end.

(** [new Date(item.pubDate || '')] *)
Definition pub_date (item : Item.t) : value :=
  match Item.pubDate item with
  | Some d => JStr d
  | None => JStr ""
  end.

(** [s?.toLowerCase().includes(search)]: [undefined] counts as false
    in the chain of [||] closed by [?? false]. *)
Definition field_includes (search : string) (s : option string) : bool :=
  match s with
  | Some x => includes search (toLowerCase x)
  | None => false
  end.

Definition matches (search : string) (item : Item.t) : bool :=
  field_includes search (Item.title item)
  || field_includes search (Item.content item)
  || field_includes search (Item.contentSnippet item).

Definition apply_filter (flt : value) (items : list Item.t)
  : Exec call Feed.t (list Item.t) :=
  if truthy flt then
    let items :=
      if truthy (prop "after" flt)
      then List.filter (fun item => date_gt (pub_date item) (prop "after" flt)) items
      else items in
    let items :=
      if truthy (prop "before" flt)
      then List.filter (fun item => date_gt (prop "before" flt) (pub_date item)) items
      else items in
    if truthy (prop "search" flt) then
      match prop "search" flt with
      | JStr s =>
          let search := toLowerCase s in
          mret (List.filter (matches search) items)
      | _ => throw (TypeError "args.filter.search.toLowerCase is not a function")
      end
    else mret items
  else mret items.

Definition handleGetFeedItems (args : GetFeedItemsArgs)
  : Exec call Feed.t CallToolResult :=
  try_catch
    (feed ← await (parseURL (gi_url args));
     items ← apply_filter (gi_filter args) (Feed.items feed);
     let limit := limit_or_10 (gi_limit args) in
     let items := slice0 items limit in
     mret (content_only (JSON_stringify (JArr (List.map render_item items)) 2)))
    (fun error =>
       mret (content_flag ("Failed to fetch feed items: " +:+ message error) true)).

(** [typeof args?.limit === 'number' ? args.limit : undefined] *)
Definition number_or_undefined (v : value) : option Z :=
  match v with
  | JNum n => Some n
  | _ => None
  end.

(** [typeof args?.filter === 'object' ? args.filter : undefined] *)
Definition object_or_undefined (v : value) : value :=
  if String.eqb (typeof v) "object" then v else JUndefined.

Definition CallTool (request : Request.t) : Exec call Feed.t CallToolResult :=
  let name := Request.name request in
  let args := Request.arguments request in
  if String.eqb name "fetch_feed" then
    match opt_get "url" args with
    | JStr url =>
        handleFetchFeed
          {| ff_url := url;
             ff_limit := number_or_undefined (opt_get "limit" args) |}
    | _ => throw (McpError InvalidParams "URL is required and must be a string")
    end
  else if String.eqb name "get_feed_items" then
    match opt_get "url" args with
    | JStr url =>
        handleGetFeedItems
          {| gi_url := url;
             gi_limit := number_or_undefined (opt_get "limit" args);
             gi_filter := object_or_undefined (opt_get "filter" args) |}
    | _ => throw (McpError InvalidParams "URL is required and must be a string")
    end
  else
    throw (McpError MethodNotFound ("Unknown tool: " +:+ name)).
End Runtime.

End Rss.

(** ** Supabase adapter *)

Module Supabase.

Definition main (env : gmap string string) : startup :=
  if env_missing env "SUPABASE_URL" || env_missing env "SUPABASE_KEY"
  then Uncaught (Error "SUPABASE_URL and SUPABASE_KEY environment variables are required")
  else Serving.

(** One method call on the client's query builder. *)
Inductive step :=
| from_ (table : value)
| select_ (columns : value)
| eq_ (column : string) (v : value)
| limit_ (count : value)
| insert_ (data : value)
| update_ (data : value)
| delete_
| rpc_ (fn params : value).

(** What is awaited is the whole chain of builder calls. *)
Abbreviation call := (list step).

(** The reply [{ data, error }]; [error] is [null] or carries a message. *)
Record reply := { data : value; error : option string }.

Definition tools : list Tool.t :=
  [ {| Tool.name := "execute_sql";
       Tool.description := "Execute a raw SQL query";
       Tool.inputSchema :=
         JObj [("type", JStr "object");
               ("properties", JObj [("query", described "string" "SQL query to execute")]);
               ("required", strings ["query"])] |};
    {| Tool.name := "query_data";
       Tool.description := "Query data from a Supabase table with optional filters";
       Tool.inputSchema :=
         JObj [("type", JStr "object");
               ("properties",
                 JObj [("table", described "string" "Name of the table to query");
                       ("select", described "string" "Columns to select (comma-separated). Use * for all columns.");
                       ("filters",
                         JObj [("type", JStr "object");
                               ("description", JStr "Optional filter conditions");
                               ("additionalProperties", JBool true)]);
                       ("limit", described "number" "Maximum number of rows to return")]);
               ("required", strings ["table"; "select"])] |};
    {| Tool.name := "insert_data";
       Tool.description := "Insert data into a Supabase table";
       Tool.inputSchema :=
         JObj [("type", JStr "object");
               ("properties",
                 JObj [("table", described "string" "Name of the table to insert into");
                       ("data",
                         JObj [("type", JStr "object");
                               ("description", JStr "Data to insert");
                               ("additionalProperties", JBool true)])]);
               ("required", strings ["table"; "data"])] |};
    {| Tool.name := "update_data";
       Tool.description := "Update data in a Supabase table";
       Tool.inputSchema :=
         JObj [("type", JStr "object");
               ("properties",
                 JObj [("table", described "string" "Name of the table to update");
                       ("data",
                         JObj [("type", JStr "object");
                               ("description", JStr "Data to update");
                               ("additionalProperties", JBool true)]);
                       ("filters",
                         JObj [("type", JStr "object");
                               ("description", JStr "Filter conditions to identify rows to update");
                               ("additionalProperties", JBool true)])]);
               ("required", strings ["table"; "data"; "filters"])] |};
    {| Tool.name := "delete_data";
       Tool.description := "Delete data from a Supabase table";
       Tool.inputSchema :=
         JObj [("type", JStr "object");
               ("properties",
                 JObj [("table", described "string" "Name of the table to delete from");
                       ("filters",
                         JObj [("type", JStr "object");
                               ("description", JStr "Filter conditions to identify rows to delete");
                               ("additionalProperties", JBool true)])]);
               ("required", strings ["table"; "filters"])] |};
    {| Tool.name := "rpc";
       Tool.description := "Call a Postgres function (RPC)";
       Tool.inputSchema :=
         JObj [("type", JStr "object");
               ("properties",
                 JObj [("function", described "string" "Name of the function to call");
                       ("params",
                         JObj [("type", JStr "object");
                               ("description", JStr "Parameters to pass to the function");
                               ("additionalProperties", JBool true)])]);
               ("required", strings ["function"])] |} ].

Definition ListTools : Exec call reply (list Tool.t) := mret tools.

(** [Object.entries(filters).forEach(([key, value]) => query = query.eq(key, value))] *)
Definition apply_filters (query : call) (filters : value) : Exec call reply call :=
  entries ← lift (Object_entries filters);
  mret (query ++ List.map (fun kv => eq_ (fst kv) (snd kv)) entries)%list.

(** [const { data, error } = await query; if (error) throw error;] *)
Definition run (query : call) : Exec call reply value :=
  r ← await query;
  match error r with
  | Some m => throw (PostgrestError m)
  | None => mret (data r)
  end.

Definition CallTool (request : Request.t) : Exec call reply CallToolResult :=
  try_catch
    (let name := Request.name request in
     if String.eqb name "query_data" then
       args ← destructure "table" (Request.arguments request);
       let filters := default_to (JObj []) (get "filters" args) in
       let limit := get "limit" args in
       let query := [from_ (get "table" args); select_ (get "select" args)] in
       query ← apply_filters query filters;
       let query := if truthy limit then (query ++ [limit_ limit])%list else query in
       data ← run query;
       mret (content_only (JSON_stringify data 2))
     else if String.eqb name "insert_data" then
       args ← destructure "table" (Request.arguments request);
       result ← run [from_ (get "table" args); insert_ (get "data" args); select_ JUndefined];
       mret (content_only (JSON_stringify result 2))
     else if String.eqb name "update_data" then
       args ← destructure "table" (Request.arguments request);
       let query := [from_ (get "table" args); update_ (get "data" args)] in
       query ← apply_filters query (get "filters" args);
       result ← run (query ++ [select_ JUndefined])%list;
       mret (content_only (JSON_stringify result 2))
     else if String.eqb name "delete_data" then
       args ← destructure "table" (Request.arguments request);
       let query := [from_ (get "table" args); delete_] in
       query ← apply_filters query (get "filters" args);
       result ← run (query ++ [select_ JUndefined])%list;
       mret (content_only (JSON_stringify result 2))
     else if String.eqb name "rpc" then
       args ← destructure "function" (Request.arguments request);
       data ← run [rpc_ (get "function" args) (default_to (JObj []) (get "params" args))];
       mret (content_only (JSON_stringify data 2))
     else if String.eqb name "execute_sql" then
       args ← destructure "query" (Request.arguments request);
       data ← run [from_ (JStr "_sql"); select_ (JStr (ToString (get "query" args)))];
       mret (content_only (JSON_stringify data 2))
     else
       throw (McpError MethodNotFound ("Unknown tool: " +:+ name)))
    (fun error =>
       mret (content_flag ("Error: " +:+ message error) true)).

End Supabase.

(** ** iOS simulator adapter *)

Module IosSimulator.

(** Methods of the simulator service. *)
Inductive call :=
| listDevices
| bootDevice (deviceId : string)
| shutdownDevice (deviceId : string)
| installApp (deviceId appPath : string)
| launchApp (deviceId bundleId : string).

(** A [z.object] of described string fields. *)
Abbreviation schema := (list (string * string)).

Definition ListSimulatorsSchema : schema := [].
Definition BootSimulatorSchema : schema :=
  [("deviceId", "The UDID of the simulator to boot")].
Definition ShutdownSimulatorSchema : schema :=
  [("deviceId", "The UDID of the simulator to shutdown")].
Definition InstallAppSchema : schema :=
  [("deviceId", "The UDID of the target simulator");
   ("appPath", "Path to the .app bundle to install")].
Definition LaunchAppSchema : schema :=
  [("deviceId", "The UDID of the target simulator");
   ("bundleId", "Bundle identifier of the app to launch")].

(** A string field read from parsed arguments. *)
Definition str_field (k : string) (o : object) : string :=
  match get k o with
  | JStr s => s
  | _ => ""
  end.

Definition is_string (v : value) : bool :=
  match v with JStr _ => true | _ => false end.

Section Zod.
(** The schema library: the JSON schema it derives from a schema and
    the message of the error it raises on arguments that do not fit. *)
Variable zodToJsonSchema : schema -> value.
Variable issues : schema -> object -> string.

(** [Schema.parse(arguments)]: every field must be a string; keys the
    schema does not name are dropped. *)
Definition parse (sch : schema) (args : object) : exn + object :=
  if forallb (fun f => is_string (get (fst f) args)) sch
  then inr (List.map (fun f => (fst f, get (fst f) args)) sch)
  else inl (ZodError (issues sch args)).

Definition tools : list Tool.t :=
  [ {| Tool.name := "list_simulators";
       Tool.description := "List all available iOS simulators";
       Tool.inputSchema := zodToJsonSchema ListSimulatorsSchema |};
    {| Tool.name := "boot_simulator";
       Tool.description := "Boot an iOS simulator";
       Tool.inputSchema := zodToJsonSchema BootSimulatorSchema |};
    {| Tool.name := "shutdown_simulator";
       Tool.description := "Shutdown an iOS simulator";
       Tool.inputSchema := zodToJsonSchema ShutdownSimulatorSchema |};
    {| Tool.name := "install_app";
       Tool.description := "Install an app on a simulator";
       Tool.inputSchema := zodToJsonSchema InstallAppSchema |};
    {| Tool.name := "launch_app";
       Tool.description := "Launch an installed app on a simulator";
       Tool.inputSchema := zodToJsonSchema LaunchAppSchema |} ].

Definition ListTools : Exec call value (list Tool.t) := mret tools.

Definition tool_result (v : value) : CallToolResult :=
  {| content := None; isError := None; toolResult := Some v |}.

Definition success : CallToolResult :=
  tool_result (JObj [("success", JBool true)]).

Definition CallTool (request : Request.t) : Exec call value CallToolResult :=
  try_catch
    (match Request.arguments request with
     | None => throw (Error "Arguments are required")
     | Some arguments =>
         let name := Request.name request in
         if String.eqb name "list_simulators" then
           devices ← await listDevices;
           mret (tool_result (JObj [("devices", devices)]))
         else if String.eqb name "boot_simulator" then
           args ← lift (parse BootSimulatorSchema arguments);
           _ ← await (bootDevice (str_field "deviceId" args));
           mret success
         else if String.eqb name "shutdown_simulator" then
           args ← lift (parse ShutdownSimulatorSchema arguments);
           _ ← await (shutdownDevice (str_field "deviceId" args));
           mret success
         else if String.eqb name "install_app" then
           args ← lift (parse InstallAppSchema arguments);
           _ ← await (installApp (str_field "deviceId" args) (str_field "appPath" args));
           mret success
         else if String.eqb name "launch_app" then
           args ← lift (parse LaunchAppSchema arguments);
           _ ← await (launchApp (str_field "deviceId" args) (str_field "bundleId" args));
           mret success
         else
           throw (Error ("Unknown tool: " +:+ name))
     end)
    (fun error =>
       if instanceof_ZodError error
       then throw (Error ("Invalid arguments: " +:+ message error))
       else throw error).
End Zod.

End IosSimulator.

(** ** Bluesky adapter *)

Module Bluesky.

(** [limit] and [cursor] properties shared by the paged tools. *)
Definition paged (limit_description : string) (default : Z) : object :=
  [("limit",
     JObj [("type", JStr "number");
           ("description", JStr limit_description);
           ("default", JNum default)]);
   ("cursor", described "string" "Pagination cursor for next page of results")].

Definition getProfileTool : Tool.t :=
  {| Tool.name := "bluesky_get_profile";
     Tool.description := "Get a user's profile information";
     Tool.inputSchema := JObj [("type", JStr "object"); ("properties", JObj [])] |}.

Definition getPostsTool : Tool.t :=
  {| Tool.name := "bluesky_get_posts";
     Tool.description := "Get recent posts from a user";
     Tool.inputSchema :=
       JObj [("type", JStr "object");
             ("properties",
               JObj (paged "Maximum number of posts to return (default 50, max 100)" 50))] |}.

Definition searchPostsTool : Tool.t :=
  {| Tool.name := "bluesky_search_posts";
     Tool.description := "Search for posts on Bluesky";
     Tool.inputSchema :=
       JObj [("type", JStr "object");
             ("properties",
               JObj (("query", described "string" "The search query")
                     :: paged "Maximum number of posts to return (default 25, max 100)" 25));
             ("required", strings ["query"])] |}.

Definition getFollowsTool : Tool.t :=
  {| Tool.name := "bluesky_get_follows";
     Tool.description := "Get a list of accounts the user follows";
     Tool.inputSchema :=
       JObj [("type", JStr "object");
             ("properties",
               JObj (paged "Maximum number of follows to return (default 50, max 100)" 50))] |}.

Definition getFollowersTool : Tool.t :=
  {| Tool.name := "bluesky_get_followers";
     Tool.description := "Get a list of accounts following the user";
     Tool.inputSchema :=
       JObj [("type", JStr "object");
             ("properties",
               JObj (paged "Maximum number of followers to return (default 50, max 100)" 50))] |}.

Definition getLikedPostsTool : Tool.t :=
  {| Tool.name := "bluesky_get_liked_posts";
     Tool.description := "Get a list of posts liked by the user";
     Tool.inputSchema :=
       JObj [("type", JStr "object");
             ("properties",
               JObj (paged "Maximum number of liked posts to return (default 50, max 100)" 50))] |}.

Definition getPersonalFeedTool : Tool.t :=
  {| Tool.name := "bluesky_get_personal_feed";
     Tool.description := "Get your personalized Bluesky feed";
     Tool.inputSchema :=
       JObj [("type", JStr "object");
             ("properties",
               JObj (paged "Maximum number of feed items to return (default 50, max 100)" 50))] |}.

Definition searchProfilesTool : Tool.t :=
  {| Tool.name := "bluesky_search_profiles";
     Tool.description := "Search for Bluesky profiles";
     Tool.inputSchema :=
       JObj [("type", JStr "object");
             ("properties",
               JObj (("query", described "string" "Search query string")
                     :: paged "Maximum number of results to return (default 25, max 100)" 25));
             ("required", strings ["query"])] |}.

Definition tools : list Tool.t :=
  [getProfileTool; getPostsTool; searchPostsTool; getFollowsTool;
   getFollowersTool; getLikedPostsTool; getPersonalFeedTool; searchProfilesTool].

(** Methods of the agent the handlers await. *)
Inductive call :=
| getProfile (actor : string)
| getAuthorFeed (actor : string) (limit cursor : value)
| searchPosts (q limit cursor : value)
| getFollows (actor : string) (limit cursor : value)
| getFollowers (actor : string) (limit cursor : value)
| getActorLikes (actor : string) (limit cursor : value)
| getTimeline (limit cursor : value)
| searchActors (q limit cursor : value).

(** [main] up to the connection of the transport: the credentials are
    read, then the session logs in with them ([login] is the reply of
    the remote service). *)
Definition main (env : gmap string string)
    (login : string -> string -> exn + value) : startup :=
  if env_missing env "BLUESKY_APP_KEY" || env_missing env "BLUESKY_IDENTIFIER"
  then Exit 1
  else
    match login (default "" (env !! "BLUESKY_IDENTIFIER"))
                (default "" (env !! "BLUESKY_APP_KEY")) with
    | inl _ => Exit 1
    | inr loginResponse =>
        if truthy (prop "success" loginResponse) then Serving else Exit 1
    end.

Definition ListTools : Exec call value (list Tool.t) := mret tools.

Section Handler.
Variable blueskyIdentifier : string.

Definition CallTool (request : Request.t) : Exec call value CallToolResult :=
  try_catch
    (match Request.arguments request with
     | None => throw (Error "No arguments provided")
     | Some args =>
         let name := Request.name request in
         let limit := get "limit" args in
         let cursor := get "cursor" args in
         let query := get "query" args in
         if String.eqb name "bluesky_get_profile" then
           response ← await (getProfile blueskyIdentifier);
           mret (content_only (JSON_stringify response 0))
         else if String.eqb name "bluesky_get_posts" then
           response ← await (getAuthorFeed blueskyIdentifier limit cursor);
           mret (content_only (JSON_stringify response 0))
         else if String.eqb name "bluesky_search_posts" then
           if negb (truthy query) then throw (Error "Missing required argument: query")
           else
             response ← await (searchPosts query limit cursor);
             mret (content_only (JSON_stringify response 0))
         else if String.eqb name "bluesky_get_follows" then
           response ← await (getFollows blueskyIdentifier limit cursor);
           mret (content_only (JSON_stringify response 0))
         else if String.eqb name "bluesky_get_followers" then
           response ← await (getFollowers blueskyIdentifier limit cursor);
           mret (content_only (JSON_stringify response 0))
         else if String.eqb name "bluesky_get_liked_posts" then
           response ← await (getActorLikes blueskyIdentifier limit cursor);
           mret (content_only (JSON_stringify response 0))
         else if String.eqb name "bluesky_get_personal_feed" then
           response ← await (getTimeline limit cursor);
           mret (content_only (JSON_stringify response 0))
         else if String.eqb name "bluesky_search_profiles" then
           if negb (truthy query) then throw (Error "Missing required argument: query")
           else
             response ← await (searchActors query limit cursor);
             data ← member "data" response;
             mret (content_only (JSON_stringify data 0))
         else
           throw (Error ("Unknown tool: " +:+ name))
     end)
    (fun error =>
       mret (content_only
               (JSON_stringify
                  (JObj [("error",
                           JStr (if instanceof_Error error then message error
                                 else "[object Object]"))]) 0))).
End Handler.

End Bluesky.

(** ** Apple Shortcuts adapter *)

Module Shortcuts.

Definition TOOLS : list Tool.t :=
  [ {| Tool.name := "run_shortcut";
       Tool.description := "Run a Shortcuts automation by name";
       Tool.inputSchema :=
         JObj [("type", JStr "object");
               ("properties",
                 JObj [("name", described "string" "Name of the shortcut to run");
                       ("input", described "string" "Optional input to pass to the shortcut")]);
               ("required", strings ["name"])] |};
    {| Tool.name := "list_shortcuts";
       Tool.description := "List all available shortcuts";
       Tool.inputSchema := JObj [("type", JStr "object"); ("properties", JObj [])] |} ].

(** The capability is [execSync]: a command line in, its standard output
    back, or an exception when the command fails. *)
Abbreviation M := (Exec string string).

(** The global [availableShortcuts] is passed along: every function
    that assigns it returns its new contents. *)
Definition updateShortcutsList : M (list string) :=
  try_catch
    (stdout ← await "shortcuts list";
     mret (List.filter (fun line => Nat.ltb 0 (String.length line))
             (List.map trim (split LF stdout))))
    (fun error => mret []).

Definition quoted (s : string) : string :=
  String dquote (s +:+ String dquote "").

Definition handleToolCall (name : string) (args : object)
    (availableShortcuts : list string) : M (CallToolResult * list string) :=
  if String.eqb name "list_shortcuts" then
    availableShortcuts ← updateShortcutsList;
    mret (content_flag
            ("Available shortcuts:" +:+ String LF (join (String LF "") availableShortcuts))
            false,
          availableShortcuts)
  else if String.eqb name "run_shortcut" then
    try_catch
      (let command :=
         if truthy (get "input" args)
         then "shortcuts run " +:+ quoted (ToString (get "name" args))
              +:+ " -i " +:+ quoted (ToString (get "input" args))
         else "shortcuts run " +:+ quoted (ToString (get "name" args)) in
       stdout ← await command;
       mret (content_flag
               (if String.eqb stdout "" then "Shortcut executed successfully" else stdout)
               false,
             availableShortcuts))
      (fun error =>
         mret (content_flag ("Failed to run shortcut: " +:+ message error) true,
               availableShortcuts))
  else
    mret (content_flag ("Unknown tool: " +:+ name) true, availableShortcuts).

(** The list-tools handler returns the constant table. *)
Definition ListTools : M (list Tool.t) := mret TOOLS.

(** The call-tool handler: [request.params.arguments ?? {}]. *)
Definition CallTool (request : Request.t) (availableShortcuts : list string)
  : M (CallToolResult * list string) :=
  handleToolCall (Request.name request)
    (default [] (Request.arguments request)) availableShortcuts.

(** The read-resource handler, by the text of the one resource. *)
Definition ReadResource (uri : string) (availableShortcuts : list string)
  : M (string * list string) :=
  if String.eqb uri "shortcuts://list" then
    availableShortcuts ← updateShortcutsList;
    mret (join (String LF "") availableShortcuts, availableShortcuts)
  else throw (Error ("Resource not found: " +:+ uri)).

End Shortcuts.

(** ** The server skeleton (two successive registrations of the handlers) *)

Module Skeleton.

Definition tools_initial : list Tool.t := [].

Definition tools : list Tool.t :=
  [ {| Tool.name := "calculate_sum";
       Tool.description := "Add two numbers together";
       Tool.inputSchema :=
         JObj [("type", JStr "object");
               ("properties",
                 JObj [("a", JObj [("type", JStr "number")]);
                       ("b", JObj [("type", JStr "number")])]);
               ("required", strings ["a"; "b"])] |} ].

End Skeleton.

(** ** iOS simulator: type guards and service *)

Module SimulatorTypes.

(** [typeof args === 'object' && args !== null] *)
Definition is_object (args : value) : bool :=
  String.eqb (typeof args) "object"
  && match args with JNull => false | _ => true end.

Definition isAppLaunchOptions (args : value) : bool :=
  is_object args
  && String.eqb (typeof (prop "deviceId" args)) "string"
  && String.eqb (typeof (prop "bundleId" args)) "string".

Definition isAppInstallOptions (args : value) : bool :=
  is_object args
  && String.eqb (typeof (prop "deviceId" args)) "string"
  && String.eqb (typeof (prop "appPath" args)) "string".

Definition isSimulatorBootOptions (args : value) : bool :=
  is_object args
  && String.eqb (typeof (prop "deviceId" args)) "string".

End SimulatorTypes.

(** [l.forEach(f)] for a callback that pushes to an array: the array is
    passed along. *)
Fixpoint forEach {call resp A S} (f : S -> A -> Exec call resp S)
    (l : list A) (s : S) : Exec call resp S :=
  match l with
  | [] => mret s
  | x :: l' => s' ← f s x; forEach f l' s'
  end.

(** [s.replace(pattern, replacement)] for a string pattern and a
    replacement without [$]: the first occurrence only. *)
Fixpoint replace (pattern replacement s : string) : string :=
  match strip_prefix pattern s with
  | Some rest => replacement +:+ rest
  | None =>
      match s with
      | "" => ""
      | String c s' => String c (replace pattern replacement s')
      end
  end.

Module SimulatorService.

(** The capability is [execAsync]: a command line in, its standard output
    back, or a rejection when the command fails. *)
Abbreviation M := (Exec string string).

Section Runtime.
(** What [JSON.parse] gives on a text outside the model's fragment: the
    value it reads, or the SyntaxError it raises. *)
Variable parse_other : string -> exn + value.

(** [deviceList.forEach(device => devices.push({ ... }))] *)
Definition push_devices (runtime : string) (devices : list value)
    (deviceList : value) : M (list value) :=
  match deviceList with
  | JArr l =>
      forEach
        (fun devices device =>
           udid ← member "udid" device;
           name ← member "name" device;
           state ← member "state" device;
           mret (devices ++
                 [JObj [("udid", udid); ("name", name); ("state", state);
                        ("runtime",
                          JStr (replace "com.apple.CoreSimulator.SimRuntime." ""
                                  runtime))]])%list)
        l devices
  | JUndefined =>
      throw (TypeError "Cannot read properties of undefined (reading 'forEach')")
  | JNull =>
      throw (TypeError "Cannot read properties of null (reading 'forEach')")
  | _ => throw (TypeError "deviceList.forEach is not a function")
  end.

(** [JSON.parse(stdout)] *)
Definition parse (stdout : string) : exn + value :=
  match JSON_parse stdout with
  | Some result => inr result
  | None => parse_other stdout
  end.

Definition listDevices : M value :=
  stdout ← await "xcrun simctl list devices --json";
  result ← lift (parse stdout);
  devices ← member "devices" result;
  entries ← lift (Object_entries devices);
  devices ← forEach (fun devices entry => push_devices (fst entry) devices (snd entry))
              entries [];
  mret (JArr devices).

Definition bootDevice (deviceId : string) : M value :=
  _ ← await ("xcrun simctl boot " +:+ deviceId);
  mret JUndefined.

Definition shutdownDevice (deviceId : string) : M value :=
  _ ← await ("xcrun simctl shutdown " +:+ deviceId);
  mret JUndefined.

Definition installApp (deviceId appPath : string) : M value :=
  _ ← await ("xcrun simctl install " +:+ deviceId +:+ " " +:+ String dquote (appPath +:+ String dquote ""));
  mret JUndefined.

Definition launchApp (deviceId bundleId : string) : M value :=
  _ ← await ("xcrun simctl launch " +:+ deviceId +:+ " " +:+ bundleId);
  mret JUndefined.

(** The method of the service behind each call of the handlers. *)
Definition perform (c : IosSimulator.call) : M value :=
  match c with
  | IosSimulator.listDevices => listDevices
  | IosSimulator.bootDevice deviceId => bootDevice deviceId
  | IosSimulator.shutdownDevice deviceId => shutdownDevice deviceId
  | IosSimulator.installApp deviceId appPath => installApp deviceId appPath
  | IosSimulator.launchApp deviceId bundleId => launchApp deviceId bundleId
  end.
End Runtime.

End SimulatorService.

(** ** Obsidian vault *)

(** [s.endsWith(suffix)] *)
Definition endsWith (suffix s : string) : bool :=
  Nat.leb (String.length suffix) (String.length s)
  && String.eqb (substring (String.length s - String.length suffix)
                   (String.length suffix) s) suffix.

Module Vault.

(** An entry of a directory, as [readdir] gives it with [withFileTypes]:
    its name, and what [isFile()] and [isDirectory()] answer. *)
Inductive kind := File | Directory | Other.

Record Dirent := { name : string; kind_of : kind }.

(** The file-system operations the vault methods await. *)
Inductive call :=
| readFile (path : string)
| writeFile (path data : string)
| readdir (dir : string).

(** What the file system answers: the text of a file to [readFile], the
    entries of a directory to [readdir]. *)
Record reply := { text : string; entries : list Dirent }.

Abbreviation M := (Exec call reply).

Record Note := {
  title : string;
  content : string;
  path : string;
  frontmatter : value
}.

Section Runtime.
(** The root of the vault, the functions of the [path] module, the
    front-matter library and [String.prototype.toLowerCase]. *)
Variable VAULT_PATH_STRING : string.
Variable path_join : string -> string -> string.
Variable path_relative : string -> string -> string.
Variable path_basename : string -> string -> string.
Variable matter : string -> exn + value * string.
Variable matter_stringify : string -> value -> string.
Variable toLowerCase : string -> string.

Definition readNote (notePath : string) : M Note :=
  let fullPath := path_join VAULT_PATH_STRING notePath in
  content ← await (readFile fullPath);
  parsed ← lift (matter (text content));
  mret {| title := path_basename notePath ".md";
          content := snd parsed;
          path := notePath;
          frontmatter := fst parsed |}.

Definition writeNote (notePath content : string) (frontmatter : value) : M unit :=
  let fullPath := path_join VAULT_PATH_STRING notePath in
  let fileContent :=
    if truthy frontmatter then matter_stringify content frontmatter else content in
  _ ← await (writeFile fullPath fileContent);
  mret tt.

(** The test of [searchNotes] on a note that was read. *)
Definition matches (query : string) (note : Note) : bool :=
  includes (toLowerCase query) (toLowerCase (content note))
  || includes (toLowerCase query) (toLowerCase (title note)).

(** The loop of [searchRecursive] over the entries of [dir]; [recurse] is
    [searchRecursive] itself.  The array [notes] is passed along; [None]
    stands for a recursion deeper than the bound below. *)
Fixpoint visit (recurse : string -> list Note -> M (option (list Note)))
    (query dir : string) (entries : list Dirent) (notes : list Note)
  : M (option (list Note)) :=
  match entries with
  | [] => mret (Some notes)
  | entry :: entries =>
      let fullPath := path_join dir (name entry) in
      match kind_of entry with
      | Directory =>
          found ← recurse fullPath notes;
          match found with
          | Some notes => visit recurse query dir entries notes
          | None => mret None
          end
      | File =>
          if endsWith ".md" (name entry) then
            let relativePath := path_relative VAULT_PATH_STRING fullPath in
            note ← readNote relativePath;
            visit recurse query dir entries
              (if matches query note then (notes ++ [note])%list else notes)
          else visit recurse query dir entries notes
      | Other => visit recurse query dir entries notes
      end
  end.

(** [searchRecursive], to a depth of at most [fuel] directories. *)
Fixpoint searchRecursive (fuel : nat) (query dir : string) (notes : list Note)
  : M (option (list Note)) :=
  match fuel with
  | 0 => mret None
  | S fuel =>
      listing ← await (readdir dir);
      visit (searchRecursive fuel query) query dir (entries listing) notes
  end.

Definition searchNotes (fuel : nat) (query : string) : M (option (list Note)) :=
  searchRecursive fuel query VAULT_PATH_STRING [].
End Runtime.

End Vault.

(** ** Vocabulary of the properties *)

Definition outcome {call resp A} (m : Exec call resp A) (cap : call -> exn + resp)
  : exn + A := fst (m cap).

Definition trace {call resp A} (m : Exec call resp A) (cap : call -> exn + resp)
  : list call := snd (m cap).

(** A call made during the run was rejected with [e]. *)
Definition rejected {call resp A} (m : Exec call resp A)
    (cap : call -> exn + resp) (e : exn) : Prop :=
  exists c, In c (trace m cap) /\ cap c = inl e.


Definition code_eqb (a b : ErrorCode) : bool :=
  (code_number a =? code_number b)%Z.

(** A thrown protocol error of the given code. *)
Definition protocol_error (code : ErrorCode) (r : exn + CallToolResult) : bool :=
  match r with
  | inl (McpError c _) => code_eqb c code
  | _ => false
  end.

(** A returned envelope flagged as an error. *)
Definition failure_envelope (r : exn + CallToolResult) : bool :=
  match r with
  | inr e => is_error e
  | inl _ => false
  end.


(** The [default] a tool's input schema declares for a field. *)
Definition declared_default (t : Tool.t) (field : string) : value :=
  prop "default" (prop field (prop "properties" (Tool.inputSchema t))).

Definition names (tools : list Tool.t) : list string := List.map Tool.name tools.

(** Two argument objects that read the same at every key but [k]. *)
Definition agree_except (k : string) (o1 o2 : object) : Prop :=
  forall k', k' <> k -> get k' o1 = get k' o2.

(** The list-tools handlers of the adapters, each over its own capability. *)
Record Adapter := {
  adapter : string;
  adapter_call : Type;
  adapter_reply : Type;
  list_tools : Exec adapter_call adapter_reply (list Tool.t);
  catalog : list Tool.t
}.

Definition adapters (zodToJsonSchema : IosSimulator.schema -> value) : list Adapter :=
  [ {| adapter := "telegram"; list_tools := Telegram.ListTools;
       catalog := Telegram.tools |};
    {| adapter := "obsidian"; list_tools := Obsidian.ListTools;
       catalog := Obsidian.tools |};
    {| adapter := "rss-feed"; list_tools := Rss.ListTools;
       catalog := Rss.tools |};
    {| adapter := "supabase"; list_tools := Supabase.ListTools;
       catalog := Supabase.tools |};
    {| adapter := "ios-simulator"; list_tools := IosSimulator.ListTools zodToJsonSchema;
       catalog := IosSimulator.tools zodToJsonSchema |};
    {| adapter := "bluesky"; list_tools := Bluesky.ListTools;
       catalog := Bluesky.tools |};
    {| adapter := "apple-shortcuts"; list_tools := Shortcuts.ListTools;
       catalog := Shortcuts.TOOLS |} ].


(** A start that ends the process with a non-zero status, before any
    request is accepted. *)
Definition fails_at_start (s : startup) : Prop :=
  (exists n, exit_status s = Some n /\ n <> 0%Z) /\ accepts_requests s = false.

(** *** The claims on the dispatchers, as predicates on a handler *)

Section Claims.
Context {call resp : Type}.
Variable handler : Request.t -> Exec call resp CallToolResult.
Variable cap : call -> exn + resp.

(** A failure of the backing call comes back as an envelope flagged as
    an error, never as a thrown error. *)
Definition failure_contained (request : Request.t) : Prop :=
  forall e, rejected (handler request) cap e ->
            failure_envelope (outcome (handler request) cap) = true.


(** A name outside the catalog is answered with a method-not-found
    protocol error or a flagged envelope, without any backing call. *)
Definition refuses_unknown (tools : list Tool.t) (request : Request.t) : Prop :=
  ~ In (Request.name request) (names tools) ->
  (protocol_error MethodNotFound (outcome (handler request) cap)
   || failure_envelope (outcome (handler request) cap)) = true
  /\ trace (handler request) cap = [].


(** An absent optional field behaves as the default the schema declares. *)
Definition applies_declared_default (t : Tool.t) (field : string) (o : object) : Prop :=
  get field o = JUndefined ->
  handler {| Request.name := Tool.name t; Request.arguments := Some o |} cap
  = handler {| Request.name := Tool.name t;
               Request.arguments := Some ((field, declared_default t field) :: o) |} cap.
End Claims.

(** *** Sample inputs *)


Definition get_updates_tool : Tool.t :=
  {| Tool.name := "get_updates";
     Tool.description := "Get latest updates/messages from the bot";
     Tool.inputSchema :=
       JObj [("type", JStr "object");
             ("properties",
               JObj [("limit", described "number" "Limit the number of updates to retrieve (default: 10)");
                     ("timeout", described "number" "Timeout in seconds for long polling (default: 0)")])] |}.

(** A bot client that answers every call with a sent message. *)
Definition sample_bot (c : Telegram.call) : exn + value :=
  inr (JObj [("message_id", JNum 7); ("text", JStr "hi")]).

(** A capability that rejects every call. *)
Definition offline {call resp} (c : call) : exn + resp :=
  inl (Error "connect ETIMEDOUT").

(** An agent that answers with the limit it was asked for. *)
Definition sample_agent (c : Bluesky.call) : exn + value :=
  match c with
  | Bluesky.getAuthorFeed _ limit _ => inr (JObj [("asked", limit)])
  | _ => inr JNull
  end.

Definition sample_devices : value :=
  JArr [JObj [("udid", JStr "A1"); ("name", JStr "iPhone 15");
              ("state", JStr "Booted"); ("runtime", JStr "iOS-17-0")]].

Definition sample_simulators (c : IosSimulator.call) : exn + value :=
  inr sample_devices.

Definition no_arguments (name : string) : Request.t :=
  {| Request.name := name; Request.arguments := Some [] |}.

Definition sample_args : object :=
  [("url", JStr "https://example.org/feed.xml"); ("table", JStr "notes");
   ("select", JStr "*")].

(** The [limit] a call on the agent carries. *)
Definition limit_of (c : Bluesky.call) : value :=
  match c with
  | Bluesky.getProfile _ => JUndefined
  | Bluesky.getAuthorFeed _ limit _
  | Bluesky.searchPosts _ limit _
  | Bluesky.getFollows _ limit _
  | Bluesky.getFollowers _ limit _
  | Bluesky.getActorLikes _ limit _
  | Bluesky.getTimeline limit _
  | Bluesky.searchActors _ limit _ => limit
  end.

(** A schema library that renders every schema as a bare object and
    reports every mismatch as "Required". *)
Definition sample_zodToJsonSchema (sch : IosSimulator.schema) : value :=
  JObj [("type", JStr "object")].

Definition sample_issues (sch : IosSimulator.schema) (args : object) : string :=
  "Required".

(** *** Vocabulary of the round trip through JSON text *)

(** Strings of white space only. *)
Fixpoint all_ws (s : string) : bool :=
  match s with
  | "" => true
  | String c s' => is_ws c && all_ws s'
  end.

(** The characters a JSON value can begin with. *)
Definition value_start (c : ascii) : bool :=
  is_digit c || Ascii.eqb c "-" || Ascii.eqb c "n" || Ascii.eqb c "t"
  || Ascii.eqb c "f" || Ascii.eqb c dquote || Ascii.eqb c "[" || Ascii.eqb c "{".

(** Fuel that suffices to parse a value back. *)
Fixpoint value_size (v : value) : nat :=
  match v with
  | JArr l => S (list_sum (List.map (fun x => S (value_size x)) l))
  | JObj m => S (list_sum (List.map (fun kv => S (value_size (snd kv))) m))
  | _ => 1
  end.

(** Induction on values, with the hypothesis for every element of an
    array and every property of an object. *)
Section value_induction.
Variable P : value -> Prop.
Hypothesis Hundefined : P JUndefined.
Hypothesis Hnull : P JNull.
Hypothesis Hbool : forall b, P (JBool b).
Hypothesis Hnum : forall n, P (JNum n).
Hypothesis Hstr : forall s, P (JStr s).
Hypothesis Harr : forall l, Forall P l -> P (JArr l).
Hypothesis Hobj : forall m, Forall (fun kv => P (snd kv)) m -> P (JObj m).

Fixpoint value_induction (v : value) : P v :=
  match v with
  | JUndefined => Hundefined
  | JNull => Hnull
  | JBool b => Hbool b
  | JNum n => Hnum n
  | JStr s => Hstr s
  | JArr l =>
      Harr l ((fix go (l : list value) : Forall P l :=
                 match l with
                 | [] => @List.Forall_nil _ P
                 | x :: l' => @List.Forall_cons _ P x l' (value_induction x) (go l')
                 end) l)
  | JObj m =>
      Hobj m ((fix go (m : object) : Forall (fun kv => P (snd kv)) m :=
                 match m with
                 | [] => @List.Forall_nil _ (fun kv => P (snd kv))
                 | kv :: m' =>
                     @List.Forall_cons _ (fun kv => P (snd kv)) kv m'
                       (value_induction (snd kv)) (go m')
                 end) m)
  end.
End value_induction.

(** What the text [str] of a value guarantees to the parser: it starts
    as a value does, is long enough to pay for the fuel, and is read back
    whatever white space precedes it and whatever follows it, provided that
    does not continue a number. *)
Definition parses_back (v : value) (str : string) : Prop :=
  (exists c s, str = String c s /\ value_start c = true)
  /\ value_size v <= String.length str
  /\ forall fuel w rest,
      value_size v <= fuel -> all_ws w = true -> continues_number rest = false ->
      parse_value fuel (w +:+ str +:+ rest) = Some (v, rest).

Definition reads_back (gap indent : string) (v : value) : Prop :=
  exists str, SerializeJSONProperty gap indent v = Some str /\ parses_back v str.

Definition or_null (o : option string) : string :=
  match o with Some s => s | None => "null" end.

(** The text of one property of an object. *)
Definition member_text (gap : string) (k str : string) : string :=
  QuoteJSONString k +:+ ":" +:+ (if String.eqb gap "" then "" else " ") +:+ str.

(** *** Vocabulary of the further properties *)

(** A handler run over a service that is itself a computation over a
    lower capability: the calls of the handler are answered by the
    service, and the calls recorded are those the service made. *)
Definition link {call resp call' resp' A} (m : Exec call resp A)
    (service : call -> Exec call' resp' resp) : Exec call' resp' A :=
  fun exec =>
    let cap := fun c => fst (service c exec) in
    (fst (m cap), flat_map (fun c => snd (service c exec)) (snd (m cap))).

(** The call-tool handler of the simulator server over the simulator
    service, down to the commands executed. *)
Definition IosServer (issues : IosSimulator.schema -> object -> string)
    (parse_other : string -> exn + value) (request : Request.t)
  : Exec string string CallToolResult :=
  link (IosSimulator.CallTool issues request) (SimulatorService.perform parse_other).

(** The record built from one device of the listing. *)
Definition device_record (runtime : string) (device : value) : value :=
  JObj [("udid", prop "udid" device); ("name", prop "name" device);
        ("state", prop "state" device);
        ("runtime", JStr (replace "com.apple.CoreSimulator.SimRuntime." "" runtime))].



(** The names read from the output of [shortcuts list]. *)
Definition listing_lines (stdout : string) : list string :=
  List.filter (fun line => Nat.ltb 0 (String.length line))
    (List.map trim (split LF stdout)).

Definition starts_with_space (s : string) : bool :=
  leads is_space is_space2 is_space3 (list_ascii_of_string s).

Definition ends_with_space (s : string) : bool :=
  leads is_space (fun c2 c1 => is_space2 c1 c2) (fun c3 c2 c1 => is_space3 c1 c2 c3)
    (rev (list_ascii_of_string s)).

(** A stored shortcut name: not empty, without white space or line
    terminator at either end, without line feed inside. *)
Definition shortcut_name (line : string) : Prop :=
  line <> ""
  /\ starts_with_space line = false
  /\ ends_with_space line = false
  /\ ~ In LF (list_ascii_of_string line).

(** An item passes a filter when it meets each criterion the filter
    gives. *)
Definition rss_passes (Date_value : value -> option Z) (toLowerCase : string -> string)
    (flt : value) (item : Rss.Item.t) : bool :=
  (negb (truthy (prop "after" flt))
   || Rss.date_gt Date_value (Rss.pub_date item) (prop "after" flt))
  && (negb (truthy (prop "before" flt))
      || Rss.date_gt Date_value (prop "before" flt) (Rss.pub_date item))
  && match prop "search" flt with
     | JStr s => String.eqb s "" || Rss.matches toLowerCase (toLowerCase s) item
     | _ => true
     end.

(** The rendering of a feed with its first [k] items. *)
Definition feed_page (feed : Rss.Feed.t) (k : nat) : value :=
  JObj [("title", of_option (Rss.Feed.title feed));
        ("description", of_option (Rss.Feed.description feed));
        ("link", of_option (Rss.Feed.link feed));
        ("lastBuildDate", of_option (Rss.Feed.lastBuildDate feed));
        ("items", JArr (List.map Rss.render_item (take k (Rss.Feed.items feed))))].

(** A run that a bad access ends: when a call it made is [bad] with an
    error, the whole computation ends with that error. *)
Definition ends_on {call resp A} (bad : call -> exn -> Prop)
    (m : Exec call resp A) (cap : call -> exn + resp) : Prop :=
  forall c e, In c (trace m cap) -> bad c e -> outcome m cap = inl e.

(** What makes an access of the vault fail: the file system rejects it,
    or it reads a file whose text the front-matter library refuses. *)
Definition search_failure (matter : string -> exn + value * string)
    (cap : Vault.call -> exn + Vault.reply) (c : Vault.call) (e : exn) : Prop :=
  cap c = inl e
  \/ exists file, (exists path, c = Vault.readFile path) /\ cap c = inr file
                  /\ matter (Vault.text file) = inl e.

(** The paths of the files a run has read, in the order of the reads. *)
Definition reads (t : list Vault.call) : list string :=
  List.flat_map (fun c => match c with Vault.readFile path => [path] | _ => [] end) t.

(** A directory tree of depth at most [n] below [dir], as the file system
    [cap] shows it; a directory that cannot be listed ends the tree. *)
Fixpoint shallow (path_join : string -> string -> string)
    (cap : Vault.call -> exn + Vault.reply) (n : nat) (dir : string) : Prop :=
  match n with
  | 0 => False
  | S n =>
      match cap (Vault.readdir dir) with
      | inl _ => True
      | inr listing =>
          Forall (fun entry =>
                    Vault.kind_of entry = Vault.Directory ->
                    shallow path_join cap n (path_join dir (Vault.name entry)))
            (Vault.entries listing)
      end
  end.

(** What a search that returns has added to the notes it started from:
    notes that pass the test of the query. *)
Definition found_from (toLowerCase : string -> string) (query : string)
    (notes : list Vault.Note)
    (r : (exn + option (list Vault.Note)) * list Vault.call) : Prop :=
  match fst r with
  | inr (Some notes') =>
      exists new, notes' = (notes ++ new)%list
                  /\ Forall (fun note => Vault.matches toLowerCase query note = true) new
  | _ => True
  end.

(** The accesses a search may make: listing a directory, and reading a
    file whose name ends in [.md], by its path relative to the vault. *)
Definition search_access (VAULT_PATH_STRING : string)
    (path_join path_relative : string -> string -> string) (c : Vault.call) : Prop :=
  match c with
  | Vault.readdir _ => True
  | Vault.readFile path =>
      exists dir name,
        endsWith ".md" name = true
        /\ path = path_join VAULT_PATH_STRING
                    (path_relative VAULT_PATH_STRING (path_join dir name))
  | Vault.writeFile _ _ => False
  end.

(** Two runs of a search, one for [query] and one that keeps every note
    it reads: the same accesses, the same rejection, and on return the
    notes of the first are those of the second that pass the test. *)
Definition filters_of (toLowerCase : string -> string) (query : string)
    (notes all : list Vault.Note)
    (r r_all : (exn + option (list Vault.Note)) * list Vault.call) : Prop :=
  snd r = snd r_all
  /\ match fst r, fst r_all with
     | inl e, inl e' => e = e'
     | inr None, inr None => True
     | inr (Some notes'), inr (Some all') =>
         exists new,
           all' = (all ++ new)%list
           /\ notes' = (notes ++ List.filter (Vault.matches toLowerCase query) new)%list
     | _, _ => False
     end.

(** What a search for the empty query that returns has added to the
    notes it started from: one note for each file it read, in the order
    of the reads, each as [readNote] gives it for its path. *)
Definition collected (VAULT_PATH_STRING : string)
    (path_join : string -> string -> string)
    (path_basename : string -> string -> string)
    (matter : string -> exn + value * string)
    (cap : Vault.call -> exn + Vault.reply)
    (all : list Vault.Note)
    (r : (exn + option (list Vault.Note)) * list Vault.call) : Prop :=
  match fst r with
  | inr (Some all') =>
      exists new,
        all' = (all ++ new)%list
        /\ List.map (fun note => path_join VAULT_PATH_STRING (Vault.path note)) new
           = reads (snd r)
        /\ Forall (fun note =>
                     outcome (Vault.readNote VAULT_PATH_STRING path_join path_basename
                                matter (Vault.path note)) cap = inr note) new
  | _ => True
  end.

(** *** Sample inputs of the further properties *)

Definition sample_item (title content : string) : Rss.Item.t :=
  {| Rss.Item.title := Some title; Rss.Item.link := None;
     Rss.Item.pubDate := None; Rss.Item.content := Some content;
     Rss.Item.contentSnippet := None |}.

Definition sample_feed : Rss.Feed.t :=
  {| Rss.Feed.title := Some "Blog"; Rss.Feed.description := None;
     Rss.Feed.link := None; Rss.Feed.lastBuildDate := None;
     Rss.Feed.items := [sample_item "rust 1.0" "release"; sample_item "cooking" "soup";
                        sample_item "tips" "more rust"] |}.

Definition sample_parser (c : Rss.call) : exn + Rss.Feed.t := inr sample_feed.

(** A feed of twelve items. *)
Definition long_feed : Rss.Feed.t :=
  {| Rss.Feed.title := Some "Blog"; Rss.Feed.description := None;
     Rss.Feed.link := None; Rss.Feed.lastBuildDate := None;
     Rss.Feed.items :=
       List.map (fun title => sample_item title "text")
         ["a"; "b"; "c"; "d"; "e"; "f"; "g"; "h"; "i"; "j"; "k"; "l"] |}.

(** A listing of one booted device, as text. *)
Definition sample_listing : value :=
  JObj [("devices",
          JObj [("com.apple.CoreSimulator.SimRuntime.iOS-17-0",
                  JArr [JObj [("udid", JStr "A1"); ("name", JStr "iPhone 15");
                              ("state", JStr "Booted"); ("isAvailable", JBool true)]])])].

Definition sample_simctl (command : string) : exn + string :=
  inr (or_null (JSON_stringify sample_listing 0)).


Definition sample_parse_other (s : string) : exn + value :=
  inl (Error "Unexpected end of JSON input").

(** The output of [shortcuts list]: two names, with blanks and an empty
    line. *)
Definition sample_shortcuts (command : string) : exn + string :=
  inr (" Morning " +:+ String LF (String LF ("Timer" +:+ String LF ""))).

(** A vault with one note at its root, a text file, and one note in a
    directory; [readable] tells whether the files can be read. *)
Definition sample_join (dir name : string) : string := dir +:+ "/" +:+ name.

Definition sample_relative (from to : string) : string :=
  match strip_prefix (from +:+ "/") to with
  | Some rest => rest
  | None => to
  end.

Definition sample_basename (path ext : string) : string :=
  let last := List.last (split "/"%char path) "" in
  if endsWith ext last
  then substring 0 (String.length last - String.length ext) last
  else last.

Definition sample_matter (s : string) : exn + value * string := inr (JObj [], s).

Definition broken_matter (s : string) : exn + value * string :=
  inl (Error "can not read a block mapping entry").

Definition sample_vault (readable : bool) (c : Vault.call) : exn + Vault.reply :=
  match c with
  | Vault.readdir dir =>
      if String.eqb dir "/vault" then
        inr {| Vault.text := "";
               Vault.entries :=
                 [ {| Vault.name := "rust.md"; Vault.kind_of := Vault.File |};
                   {| Vault.name := "todo.txt"; Vault.kind_of := Vault.File |};
                   {| Vault.name := "food"; Vault.kind_of := Vault.Directory |} ] |}
      else if String.eqb dir "/vault/food" then
        inr {| Vault.text := "";
               Vault.entries :=
                 [ {| Vault.name := "soup.md"; Vault.kind_of := Vault.File |} ] |}
      else inl (Error "ENOTDIR")
  | Vault.readFile path =>
      if readable
      then inr {| Vault.text := "notes on " +:+ path; Vault.entries := [] |}
      else inl (Error "EACCES")
  | Vault.writeFile _ _ => inr {| Vault.text := ""; Vault.entries := [] |}
  end.

Definition sample_note (notePath title : string) : Vault.Note :=
  {| Vault.title := title;
     Vault.content := "notes on /vault/" +:+ notePath;
     Vault.path := notePath;
     Vault.frontmatter := JObj [] |}.

(** * Properties *)

Arguments JSON_stringify : simpl never.

Ltac exec_unfold :=
  unfold outcome, trace, try_catch, mbind, Exec_bind, bind, mret, Exec_ret,
    ret, throw, await, destructure, lift in *.

(** Case analysis on the dispatch switch of a handler. *)
Ltac switch_cases :=
  repeat match goal with
         | |- context [String.eqb ?a ?b] => destruct (String.eqb a b)
         end.

(** The branch taken by a name outside the catalog [H : ~ In name ...]. *)
Ltac switch_default H :=
  repeat match goal with
         | |- context [String.eqb ?a ?b] =>
             let E := fresh "E" in
             destruct (String.eqb_spec a b) as [E | ?];
             [ exfalso; apply H; rewrite E; cbn; tauto | ]
         end.

(** A concrete name that is none of a concrete list. *)
Ltac not_in :=
  let Hin := fresh "Hin" in
  cbn; intros Hin; repeat destruct Hin as [Hin | Hin];
  try discriminate Hin; contradiction.

(** ** The runtime fragment on examples *)

Example stringify_compact :
  JSON_stringify (JArr [JNum 1; JUndefined; JBool true; JNum (-20)]) 0
  = Some "[1,null,true,-20]".
Proof. reflexivity. Qed.

Example stringify_indented :
  JSON_stringify (JArr [JNum 1; JArr []; JArr [JNull]]) 2
  = Some ("[" +:+ String LF "  1," +:+ String LF "  []," +:+ String LF "  ["
          +:+ String LF "    null" +:+ String LF "  ]" +:+ String LF "]").
Proof. reflexivity. Qed.

Example stringify_drops_undefined :
  JSON_stringify (JObj [("title", JUndefined)]) 0 = Some "{}"
  /\ JSON_stringify JUndefined 0 = None.
Proof. split; reflexivity. Qed.

Example parse_spaced :
  JSON_parse " [1, -20 ,[ ], null] " = Some (JArr [JNum 1; JNum (-20); JArr []; JNull]).
Proof. reflexivity. Qed.

Example parse_rejects :
  JSON_parse "01" = None /\ JSON_parse "[1,]" = None /\ JSON_parse "nul" = None
  /\ JSON_parse "1 2" = None.
Proof. repeat split; reflexivity. Qed.

Example parse_repeated_name :
  object_of [("a", JNum 1); ("b", JNum 2); ("a", JNum 3)]
  = [("a", JNum 3); ("b", JNum 2)].
Proof. reflexivity. Qed.

Example slice_examples :
  slice0 [1; 2; 3] 2 = [1; 2] /\ slice0 [1; 2; 3] 10 = [1; 2; 3]
  /\ slice0 [1; 2; 3] 0 = [] /\ slice0 [1; 2; 3] (-1) = [1; 2].
Proof. repeat split; reflexivity. Qed.

Example shortcut_lines :
  List.filter (fun line => Nat.ltb 0 (String.length line))
    (List.map trim (split LF ("Morning " +:+ String LF (String LF " Timer"))))
  = ["Morning"; "Timer"].
Proof. reflexivity. Qed.

Example to_string_examples :
  ToString (JArr [JNum 1; JNull; JStr "a"]) = "1,,a"
  /\ ToString JUndefined = "undefined"
  /\ ToString (JObj []) = "[object Object]".
Proof. repeat split; reflexivity. Qed.

Example entries_of_string :
  Object_entries (JStr "ab") = inr [("0", JStr "a"); ("1", JStr "b")].
Proof. reflexivity. Qed.

Example entries_in_runtime_order :
  Object_entries (JObj [("b", JNum 1); ("2", JNum 2); ("10", JNum 3); ("01", JNum 4)])
  = inr [("2", JNum 2); ("10", JNum 3); ("b", JNum 1); ("01", JNum 4)].
Proof. reflexivity. Qed.

Example numbers_of_the_model :
  is_json (JNum 9007199254740991) = true
  /\ is_json (JNum 9007199254740992) = false
  /\ JSON_parse "9007199254740991" = Some (JNum 9007199254740991)
  /\ JSON_parse "9007199254740992" = None
  /\ JSON_parse "1e+21" = None.
Proof. repeat split; reflexivity. Qed.

Example trim_unicode :
  trim (String (ascii_of_nat 194) (String (ascii_of_nat 160) "Timer ")) = "Timer".
Proof. reflexivity. Qed.

Example empty_token_fails_at_start :
  Telegram.main {[ "TELEGRAM_BOT_TOKEN" := "" ]}
  = Uncaught (Error "TELEGRAM_BOT_TOKEN environment variable is required").
Proof. reflexivity. Qed.

(** ** Catalogs *)

Lemma NoDup_strings (l : list string) : bool_decide (NoDup l) = true -> NoDup l.
Proof. intros H. apply bool_decide_eq_true in H. exact H. Qed.

(** C8: in the catalog every adapter returns from its list-tools handler
    no two entries have the same name. *)
Theorem catalog_names_unique (zodToJsonSchema : IosSimulator.schema -> value) :
  Forall (fun A =>
            NoDup (names (catalog A)) /\
            forall cap, outcome (list_tools A) cap = inr (catalog A))
         (adapters zodToJsonSchema)
  /\ NoDup (names Skeleton.tools_initial)
  /\ NoDup (names Skeleton.tools).
Proof.
  split; [ | split ].
  - unfold adapters.
    repeat apply List.Forall_cons; try apply List.Forall_nil;
      (split; [ apply NoDup_strings; vm_compute; reflexivity | intros cap; reflexivity ]).
  - apply NoDup_nil_2.
  - apply NoDup_strings. vm_compute. reflexivity.
Qed.

(** C7: listing the tools of an adapter twice gives the same catalog, in
    the same order, whatever the state of the backing capability at either
    moment; the handler calls nothing and leaves nothing changed. *)
Theorem list_tools_idempotent (zodToJsonSchema : IosSimulator.schema -> value) :
  Forall (fun A =>
            forall cap1 cap2 : adapter_call A -> exn + adapter_reply A,
              outcome (list_tools A) cap1 = outcome (list_tools A) cap2
              /\ outcome (list_tools A) cap1 = inr (catalog A)
              /\ trace (list_tools A) cap1 = [])
         (adapters zodToJsonSchema).
Proof.
  unfold adapters.
  repeat apply List.Forall_cons; try apply List.Forall_nil;
    intros cap1 cap2; repeat split; reflexivity.
Qed.

(** ** Start-up *)

Lemma env_missing_unset env name : env !! name = None -> env_missing env name = true.
Proof. intros H. unfold env_missing. rewrite H. reflexivity. Qed.

Lemma uncaught_fails e : fails_at_start (Uncaught e).
Proof. split; [ exists 1%Z; split; [ reflexivity | discriminate ] | reflexivity ]. Qed.

Lemma exit_1_fails : fails_at_start (Exit 1).
Proof. split; [ exists 1%Z; split; [ reflexivity | discriminate ] | reflexivity ]. Qed.

(** C5: when a configuration value an adapter requires is not set, the
    process ends at start with a non-zero status and never accepts a
    request. *)
Theorem missing_configuration_fails_at_start
    (env : gmap string string) (login : string -> string -> exn + value) :
  (env !! "TELEGRAM_BOT_TOKEN" = None -> fails_at_start (Telegram.main env))
  /\ (env !! "OBSIDIAN_VAULT_PATH" = None -> fails_at_start (Obsidian.main env))
  /\ (env !! "SUPABASE_URL" = None \/ env !! "SUPABASE_KEY" = None ->
      fails_at_start (Supabase.main env))
  /\ (env !! "BLUESKY_APP_KEY" = None \/ env !! "BLUESKY_IDENTIFIER" = None ->
      fails_at_start (Bluesky.main env login)).
Proof.
  split; [ | split; [ | split ] ].
  - intros H. unfold Telegram.main. rewrite (env_missing_unset _ _ H).
    apply uncaught_fails.
  - intros H. unfold Obsidian.main. rewrite (env_missing_unset _ _ H).
    apply uncaught_fails.
  - intros [H | H]; unfold Supabase.main; rewrite (env_missing_unset _ _ H);
      rewrite ?orb_true_r; apply uncaught_fails.
  - intros [H | H]; unfold Bluesky.main; rewrite (env_missing_unset _ _ H);
      rewrite ?orb_true_r; apply exit_1_fails.
Qed.

Lemma missing_configuration_fails_at_start_witness :
  fails_at_start (Telegram.main ∅)
  /\ fails_at_start (Obsidian.main ∅)
  /\ fails_at_start (Supabase.main ∅)
  /\ fails_at_start (Bluesky.main ∅ (fun _ _ => inr (JObj [("success", JBool true)]))).
Proof.
  destruct (missing_configuration_fails_at_start
              ∅ (fun _ _ => inr (JObj [("success", JBool true)])))
    as (Ht & Ho & Hs & Hb).
  split; [ apply Ht; reflexivity | ].
  split; [ apply Ho; reflexivity | ].
  split; [ apply Hs; left; reflexivity | apply Hb; left; reflexivity ].
Defined.

(** ** Listing of the shortcuts *)

(** C6: when the command that lists the shortcuts fails, the list kept by
    the adapter becomes empty, and both listing operations return an empty
    listing instead of throwing. *)
Theorem listing_failure_gives_empty_listing
    (cap : string -> exn + string) (e : exn)
    (args : option object) (availableShortcuts : list string) :
  cap "shortcuts list" = inl e ->
  Shortcuts.updateShortcutsList cap = (inr [], ["shortcuts list"])
  /\ outcome (Shortcuts.CallTool
                {| Request.name := "list_shortcuts"; Request.arguments := args |}
                availableShortcuts) cap
     = inr (content_flag ("Available shortcuts:" +:+ String LF "") false, [])
  /\ outcome (Shortcuts.ReadResource "shortcuts://list" availableShortcuts) cap
     = inr ("", []).
Proof.
  intros H.
  assert (Hu : Shortcuts.updateShortcutsList cap = (inr [], ["shortcuts list"])).
  { unfold Shortcuts.updateShortcutsList. exec_unfold. rewrite H. reflexivity. }
  split; [ exact Hu | split ].
  - unfold Shortcuts.CallTool, Shortcuts.handleToolCall. cbn. exec_unfold.
    rewrite Hu. reflexivity.
  - unfold Shortcuts.ReadResource. cbn. exec_unfold. rewrite Hu. reflexivity.
Qed.

Lemma listing_failure_gives_empty_listing_witness :
  Shortcuts.updateShortcutsList (fun _ => inl (Error "Command failed: shortcuts list"))
  = (inr [], ["shortcuts list"])
  /\ outcome (Shortcuts.CallTool
                {| Request.name := "list_shortcuts"; Request.arguments := None |}
                ["Morning"]) (fun _ => inl (Error "Command failed: shortcuts list"))
     = inr (content_flag ("Available shortcuts:" +:+ String LF "") false, [])
  /\ outcome (Shortcuts.ReadResource "shortcuts://list" ["Morning"])
       (fun _ => inl (Error "Command failed: shortcuts list"))
     = inr ("", []).
Proof.
  apply (listing_failure_gives_empty_listing
           (fun _ => inl (Error "Command failed: shortcuts list"))
           (Error "Command failed: shortcuts list") None ["Morning"]).
  reflexivity.
Defined.


(** ** Optional limits *)

(** Reads of an argument object that agrees with another one but at [k]. *)
Ltac same_reads Hagree o0 :=
  repeat match goal with
         | |- context [get ?k o0] =>
             rewrite (Hagree k ltac:(discriminate))
         end.

Lemma rss_limit_irrelevant Date_value toLowerCase name o0 o cap :
  Rss.limit_or_10 (Rss.number_or_undefined (get "limit" o0))
  = Rss.limit_or_10 (Rss.number_or_undefined (get "limit" o)) ->
  agree_except "limit" o0 o ->
  Rss.CallTool Date_value toLowerCase
    {| Request.name := name; Request.arguments := Some o0 |} cap
  = Rss.CallTool Date_value toLowerCase
      {| Request.name := name; Request.arguments := Some o |} cap.
Proof.
  intros Hlimit Hagree.
  unfold Rss.CallTool, opt_get. cbn [Request.name Request.arguments].
  rewrite (Hagree "url" ltac:(discriminate)).
  rewrite (Hagree "filter" ltac:(discriminate)).
  unfold Rss.handleFetchFeed, Rss.handleGetFeedItems.
  cbn [Rss.ff_url Rss.ff_limit Rss.gi_url Rss.gi_limit Rss.gi_filter].
  rewrite Hlimit. reflexivity.
Qed.

Lemma supabase_falsy_limit_irrelevant name o0 o cap :
  truthy (get "limit" o0) = false ->
  truthy (get "limit" o) = false ->
  agree_except "limit" o0 o ->
  Supabase.CallTool {| Request.name := name; Request.arguments := Some o0 |} cap
  = Supabase.CallTool {| Request.name := name; Request.arguments := Some o |} cap.
Proof.
  intros H0 H Hagree.
  unfold Supabase.CallTool. cbn [Request.name Request.arguments destructure].
  switch_cases; exec_unfold; rewrite ?H0, ?H; same_reads Hagree o0; reflexivity.
Qed.

Lemma supabase_query_without_limit o cap c v :
  truthy (get "limit" o) = false ->
  In c (trace (Supabase.CallTool
                 {| Request.name := "query_data"; Request.arguments := Some o |}) cap) ->
  ~ In (Supabase.limit_ v) c.
Proof.
  intros H. unfold Supabase.CallTool, Supabase.apply_filters, Supabase.run.
  cbn [Request.name Request.arguments destructure String.eqb Ascii.eqb Bool.eqb].
  exec_unfold. rewrite H.
  destruct (Object_entries (default_to (JObj []) (get "filters" o))) as [e | entries];
    cbn; [ tauto | ].
  match goal with |- context [cap ?q] => destruct (cap q) as [e | [d [m | ]]] end;
    cbn; intros [<- | []] Hin; cbn in Hin;
    (destruct Hin as [Hin | [Hin | Hin]]; [ discriminate | discriminate | ]);
    rewrite ?app_nil_r in Hin; apply in_map_iff in Hin;
    destruct Hin as (kv & Hkv & _); discriminate.
Qed.

(** ** Defaults of optional fields *)

(** C9 as stated fails: without [limit], [bluesky_get_posts] does not
    behave as with the declared default 50. *)
Lemma declared_default_not_applied :
  declared_default Bluesky.getPostsTool "limit" = JNum 50
  /\ ~ applies_declared_default (Bluesky.CallTool "alice.bsky.social") sample_agent
         Bluesky.getPostsTool "limit" [].
Proof.
  split; [ reflexivity | ].
  intros H. specialize (H eq_refl). vm_compute in H. discriminate H.
Qed.

Lemma telegram_default_limit o cap :
  get "limit" o = JUndefined ->
  Telegram.CallTool {| Request.name := "get_updates"; Request.arguments := Some o |} cap
  = Telegram.CallTool
      {| Request.name := "get_updates";
         Request.arguments := Some (("limit", JNum 10) :: o) |} cap.
Proof.
  intros H. unfold Telegram.CallTool. exec_unfold. cbn. rewrite H. reflexivity.
Qed.

Lemma telegram_default_timeout o cap :
  get "timeout" o = JUndefined ->
  Telegram.CallTool {| Request.name := "get_updates"; Request.arguments := Some o |} cap
  = Telegram.CallTool
      {| Request.name := "get_updates";
         Request.arguments := Some (("timeout", JNum 0) :: o) |} cap.
Proof.
  intros H. unfold Telegram.CallTool. exec_unfold. cbn. rewrite H. reflexivity.
Qed.

Lemma bluesky_limit_passed_through blueskyIdentifier name o cap c :
  get "limit" o = JUndefined ->
  In c (trace (Bluesky.CallTool blueskyIdentifier
                 {| Request.name := name; Request.arguments := Some o |}) cap) ->
  limit_of c = JUndefined.
Proof.
  intros H. unfold Bluesky.CallTool. cbn [Request.name Request.arguments].
  switch_cases; exec_unfold;
    try destruct (truthy (get "query" o)); cbn;
    repeat match goal with
           | |- context [cap ?q] => destruct (cap q) as [? | []]
           end; cbn;
    intuition (subst; cbn; auto).
Qed.

(** C9, amended: an absent optional field is defaulted only where the
    handler itself does so.  [get_updates] of the Telegram adapter replaces
    an absent [limit] by 10 and an absent [timeout] by 0, values its schema
    gives in the descriptions only; the Bluesky handlers hand [limit] to the
    backing call as it is, so an absent [limit] arrives as [undefined]
    whatever default the schema declares. *)
Theorem absent_optional_fields (blueskyIdentifier : string) (o : object) :
  In get_updates_tool Telegram.tools
  /\ declared_default get_updates_tool "limit" = JUndefined
  /\ declared_default get_updates_tool "timeout" = JUndefined
  /\ (forall cap,
         get "limit" o = JUndefined ->
         Telegram.CallTool
           {| Request.name := "get_updates"; Request.arguments := Some o |} cap
         = Telegram.CallTool
             {| Request.name := "get_updates";
                Request.arguments := Some (("limit", JNum 10) :: o) |} cap)
  /\ (forall cap,
         get "timeout" o = JUndefined ->
         Telegram.CallTool
           {| Request.name := "get_updates"; Request.arguments := Some o |} cap
         = Telegram.CallTool
             {| Request.name := "get_updates";
                Request.arguments := Some (("timeout", JNum 0) :: o) |} cap)
  /\ (forall name cap c,
         get "limit" o = JUndefined ->
         In c (trace (Bluesky.CallTool blueskyIdentifier
                        {| Request.name := name; Request.arguments := Some o |}) cap) ->
         limit_of c = JUndefined).
Proof.
  split; [ cbn; tauto | ].
  split; [ reflexivity | ].
  split; [ reflexivity | ].
  split; [ intros cap; apply telegram_default_limit | ].
  split; [ intros cap; apply telegram_default_timeout | ].
  intros name cap c H Hin.
  eapply bluesky_limit_passed_through; [ exact H | exact Hin ].
Qed.

Lemma absent_optional_fields_witness :
  Telegram.CallTool (no_arguments "get_updates") sample_bot
  = Telegram.CallTool
      {| Request.name := "get_updates";
         Request.arguments := Some [("limit", JNum 10)] |} sample_bot
  /\ trace (Bluesky.CallTool "alice.bsky.social" (no_arguments "bluesky_get_posts"))
       sample_agent
     = [Bluesky.getAuthorFeed "alice.bsky.social" JUndefined JUndefined].
Proof.
  destruct (absent_optional_fields "alice.bsky.social" [])
    as (_ & _ & _ & Hlimit & _ & _).
  split; [ apply (Hlimit sample_bot); reflexivity | reflexivity ].
Defined.


(** ** Missing required fields *)










(** ** Unknown tools *)

(** C3 as stated fails: for a name outside their catalogs the iOS
    simulator handler throws a plain error and the Bluesky handler returns
    an envelope that is not flagged. *)
Lemma unknown_tool_not_method_not_found :
  ~ refuses_unknown (IosSimulator.CallTool sample_issues) sample_simulators
      (IosSimulator.tools sample_zodToJsonSchema) (no_arguments "unknown_tool")
  /\ ~ refuses_unknown (Bluesky.CallTool "alice.bsky.social") sample_agent
         Bluesky.tools (no_arguments "unknown_tool").
Proof.
  split; intros H; destruct H as [Hkind _];
    try (vm_compute in Hkind; discriminate Hkind);
    cbn; intros Hin; repeat destruct Hin as [Hin | Hin]; try discriminate Hin;
    exact Hin.
Qed.

Lemma rss_unknown Date_value toLowerCase request cap :
  ~ In (Request.name request) (names Rss.tools) ->
  Rss.CallTool Date_value toLowerCase request cap
  = (inl (McpError MethodNotFound ("Unknown tool: " +:+ Request.name request)), []).
Proof.
  intros H. unfold Rss.CallTool. switch_default H. reflexivity.
Qed.

Lemma obsidian_unknown request cap :
  ~ In (Request.name request) (names Obsidian.tools) ->
  Obsidian.CallTool request cap
  = (inl (McpError MethodNotFound ("Unknown tool: " +:+ Request.name request)), []).
Proof.
  intros H. unfold Obsidian.CallTool. switch_default H. reflexivity.
Qed.

Lemma shortcuts_unknown request (availableShortcuts : list string) cap :
  ~ In (Request.name request) (names Shortcuts.TOOLS) ->
  Shortcuts.CallTool request availableShortcuts cap
  = (inr (content_flag ("Unknown tool: " +:+ Request.name request) true,
          availableShortcuts), []).
Proof.
  intros H. unfold Shortcuts.CallTool, Shortcuts.handleToolCall.
  switch_default H. reflexivity.
Qed.

Lemma supabase_unknown request cap :
  ~ In (Request.name request) (names Supabase.tools) ->
  Supabase.CallTool request cap
  = (inr (content_flag
            ("Error: " +:+
             message (McpError MethodNotFound
                        ("Unknown tool: " +:+ Request.name request))) true), []).
Proof.
  intros H. unfold Supabase.CallTool. switch_default H. reflexivity.
Qed.

Lemma telegram_unknown request cap :
  ~ In (Request.name request) (names Telegram.tools) ->
  Telegram.CallTool request cap
  = (inl (McpError InternalError
            ("Telegram API error: " +:+
             message (McpError MethodNotFound
                        ("Unknown tool: " +:+ Request.name request)))), []).
Proof.
  intros H. unfold Telegram.CallTool. switch_default H. reflexivity.
Qed.

Lemma ios_unknown zodToJsonSchema issues name o cap :
  ~ In name (names (IosSimulator.tools zodToJsonSchema)) ->
  IosSimulator.CallTool issues
    {| Request.name := name; Request.arguments := Some o |} cap
  = (inl (Error ("Unknown tool: " +:+ name)), []).
Proof.
  intros H. unfold IosSimulator.CallTool. cbn [Request.name Request.arguments].
  switch_default H. reflexivity.
Qed.

Lemma bluesky_unknown blueskyIdentifier name o cap :
  ~ In name (names Bluesky.tools) ->
  Bluesky.CallTool blueskyIdentifier
    {| Request.name := name; Request.arguments := Some o |} cap
  = (inr (content_only
            (JSON_stringify (JObj [("error", JStr ("Unknown tool: " +:+ name))]) 0)),
     []).
Proof.
  intros H. unfold Bluesky.CallTool. cbn [Request.name Request.arguments].
  switch_default H. reflexivity.
Qed.

(** C3, amended: for a tool name outside the catalog no adapter calls its
    backing capability.  The RSS and Obsidian handlers throw a
    MethodNotFound error, the Shortcuts and Supabase handlers return an
    envelope flagged as an error, each naming the tool; given arguments,
    the iOS simulator handler throws a plain error and the Bluesky handler
    returns an envelope that carries the message without a flag. *)
Theorem unknown_tool_outcomes
    (Date_value : value -> option Z) (toLowerCase : string -> string)
    (zodToJsonSchema : IosSimulator.schema -> value)
    (issues : IosSimulator.schema -> object -> string)
    (blueskyIdentifier : string) (availableShortcuts : list string)
    (request : Request.t) :
  (~ In (Request.name request) (names Rss.tools) ->
   forall cap,
     Rss.CallTool Date_value toLowerCase request cap
     = (inl (McpError MethodNotFound ("Unknown tool: " +:+ Request.name request)), []))
  /\ (~ In (Request.name request) (names Obsidian.tools) ->
      forall cap,
        Obsidian.CallTool request cap
        = (inl (McpError MethodNotFound ("Unknown tool: " +:+ Request.name request)),
           []))
  /\ (~ In (Request.name request) (names Shortcuts.TOOLS) ->
      forall cap,
        Shortcuts.CallTool request availableShortcuts cap
        = (inr (content_flag ("Unknown tool: " +:+ Request.name request) true,
                availableShortcuts), []))
  /\ (~ In (Request.name request) (names Supabase.tools) ->
      forall cap,
        trace (Supabase.CallTool request) cap = []
        /\ exists prefix,
            outcome (Supabase.CallTool request) cap
            = inr (content_flag
                     (prefix +:+ "Unknown tool: " +:+ Request.name request) true))
  /\ (~ In (Request.name request) (names (IosSimulator.tools zodToJsonSchema)) ->
      forall cap,
        trace (IosSimulator.CallTool issues request) cap = []
        /\ (Request.arguments request <> None ->
            outcome (IosSimulator.CallTool issues request) cap
            = inl (Error ("Unknown tool: " +:+ Request.name request))))
  /\ (~ In (Request.name request) (names Bluesky.tools) ->
      forall cap,
        trace (Bluesky.CallTool blueskyIdentifier request) cap = []
        /\ (Request.arguments request <> None ->
            outcome (Bluesky.CallTool blueskyIdentifier request) cap
            = inr (content_only
                     (JSON_stringify
                        (JObj [("error",
                                 JStr ("Unknown tool: " +:+ Request.name request))])
                        0))))
  /\ (~ In (Request.name request) (names Telegram.tools) ->
      forall cap, trace (Telegram.CallTool request) cap = []).
Proof.
  split; [ intros H cap; apply rss_unknown; exact H | ].
  split; [ intros H cap; apply obsidian_unknown; exact H | ].
  split; [ intros H cap; apply shortcuts_unknown; exact H | ].
  split.
  { intros H cap. unfold outcome, trace. rewrite (supabase_unknown _ _ H). cbn.
    split; [ reflexivity | ].
    exists "Error: MCP error -32601: ". reflexivity. }
  split.
  { intros H cap. destruct request as [name [o | ]]; cbn [Request.name] in H.
    - unfold outcome, trace. rewrite (ios_unknown zodToJsonSchema _ _ _ _ H).
      split; [ reflexivity | intros _; reflexivity ].
    - split; [ reflexivity | intros Hn; contradiction ]. }
  split.
  { intros H cap. destruct request as [name [o | ]]; cbn [Request.name] in H.
    - unfold outcome, trace. rewrite (bluesky_unknown _ _ _ _ H).
      split; [ reflexivity | intros _; reflexivity ].
    - split; [ reflexivity | intros Hn; contradiction ]. }
  intros H cap. unfold trace. rewrite (telegram_unknown _ _ H). reflexivity.
Qed.

Lemma unknown_tool_outcomes_witness :
  Rss.CallTool (fun _ => None) (fun s => s) (no_arguments "unknown_tool") offline
  = (inl (McpError MethodNotFound "Unknown tool: unknown_tool"), [])
  /\ Shortcuts.CallTool (no_arguments "unknown_tool") [] offline
     = (inr (content_flag "Unknown tool: unknown_tool" true, []), [])
  /\ trace (Telegram.CallTool (no_arguments "unknown_tool")) sample_bot = [].
Proof.
  destruct (unknown_tool_outcomes (fun _ => None) (fun s => s)
              sample_zodToJsonSchema sample_issues "alice.bsky.social" []
              (no_arguments "unknown_tool"))
    as (Hrss & _ & Hsc & _ & _ & _ & Htg).
  split; [ apply Hrss; not_in | ].
  split; [ apply Hsc; not_in | ].
  apply Htg; not_in.
Defined.

(** The unknown-tool branch of the Telegram handler throws MethodNotFound
    inside the [try] whose [catch] turns every error into InternalError. *)
Lemma telegram_unknown_tool_internal_error cap :
  Telegram.CallTool (no_arguments "unknown_tool") cap
  = (inl (McpError InternalError
            "Telegram API error: MCP error -32601: Unknown tool: unknown_tool"), []).
Proof. reflexivity. Qed.

(** ** Failures of the backing capability *)

(** Runs a handler on an arbitrary request, splitting on the tool, on the
    arguments and on the answers of the capability. *)
Ltac run_handler cap :=
  switch_cases; exec_unfold; cbn;
  repeat match goal with
         | |- context [match ?args with Some _ => _ | None => _ end] =>
             is_var args; destruct args
         | |- context [Object_entries ?v] => destruct (Object_entries v)
         | |- context [truthy ?v] => destruct (truthy v)
         | |- context [cap ?q] =>
             let E := fresh "E" in destruct (cap q) eqn:E
         | |- context [member ?k ?v] => is_var v; destruct v; unfold member, throw, ret
         | |- context [Supabase.error ?r] => is_var r; destruct r as [? []]
         | _ => progress cbn
         end.

(** The same, splitting also on the kind of error of a rejection, for the
    handlers whose [catch] tests it. *)
Ltac run_handler_kinds cap :=
  switch_cases; exec_unfold; cbn;
  repeat match goal with
         | |- context [match ?args with Some _ => _ | None => _ end] =>
             is_var args; destruct args
         | |- context [IosSimulator.parse ?i ?sch ?o] =>
             destruct (IosSimulator.parse i sch o) as [[] | ]
         | |- context [truthy ?v] => destruct (truthy v)
         | |- context [cap ?q] =>
             let E := fresh "E" in destruct (cap q) as [[] | ] eqn:E
         | |- context [member ?k ?v] => is_var v; destruct v; unfold member, throw, ret
         | _ => progress cbn
         end.

(** C1 as stated fails: a rejected [sendMessage] leaves the Telegram
    handler as a thrown error. *)
Lemma telegram_failure_escapes :
  outcome (Telegram.CallTool
             {| Request.name := "send_message";
                Request.arguments := Some [("chat_id", JStr "@x"); ("text", JStr "hi")] |})
          offline
  = inl (McpError InternalError "Telegram API error: connect ETIMEDOUT")
  /\ ~ failure_contained Telegram.CallTool offline
         {| Request.name := "send_message";
            Request.arguments := Some [("chat_id", JStr "@x"); ("text", JStr "hi")] |}.
Proof.
  split; [ reflexivity | ].
  intros H. specialize (H (Error "connect ETIMEDOUT")).
  assert (Hr : failure_envelope
                 (outcome (Telegram.CallTool
                             {| Request.name := "send_message";
                                Request.arguments :=
                                  Some [("chat_id", JStr "@x"); ("text", JStr "hi")] |})
                          offline) = true).
  { apply H. exists (Telegram.sendMessage (JStr "@x") (JStr "hi") JUndefined).
    split; [ left; reflexivity | reflexivity ]. }
  vm_compute in Hr. discriminate Hr.
Qed.

Lemma telegram_failure request cap e :
  rejected (Telegram.CallTool request) cap e ->
  outcome (Telegram.CallTool request) cap
  = inl (McpError InternalError ("Telegram API error: " +:+ message e)).
Proof.
  unfold rejected, Telegram.CallTool. destruct request as [name args].
  cbn [Request.name Request.arguments].
  run_handler cap; intros (c & Hin & Hc); cbn in Hin;
    repeat destruct Hin as [Hin | Hin]; try contradiction; subst c; congruence.
Qed.

(** Closes a goal [rejected ... -> ...] once the handler has been run:
    the rejected call is the one call of the trace. *)
Ltac close_rejected :=
  let c := fresh "c" in
  let Hin := fresh "Hin" in
  let Hc := fresh "Hc" in
  intros (c & Hin & Hc); cbn in Hin;
  repeat destruct Hin as [Hin | Hin]; try contradiction; subst c;
  try congruence.

Lemma obsidian_failure request cap e :
  rejected (Obsidian.CallTool request) cap e ->
  outcome (Obsidian.CallTool request) cap
  = inl (if instanceof_McpError e then e
         else McpError InternalError
                (if instanceof_Error e then message e else "[object Object]")).
Proof.
  unfold rejected, Obsidian.CallTool. destruct request as [name args].
  cbn [Request.name Request.arguments].
  run_handler_kinds cap; close_rejected;
    match goal with
    | E : cap ?q = inl _, Hc : cap ?q = inl _ |- _ =>
        rewrite Hc in E; inversion E; subst; reflexivity
    end.
Qed.

Lemma ios_failure issues request cap e :
  rejected (IosSimulator.CallTool issues request) cap e ->
  outcome (IosSimulator.CallTool issues request) cap
  = inl (if instanceof_ZodError e then Error ("Invalid arguments: " +:+ message e)
         else e).
Proof.
  unfold rejected, IosSimulator.CallTool. destruct request as [name args].
  cbn [Request.name Request.arguments].
  destruct args as [o | ]; [ | cbn; close_rejected ].
  run_handler_kinds cap; close_rejected;
    match goal with
    | E : cap ?q = inl _, Hc : cap ?q = inl _ |- _ =>
        rewrite Hc in E; inversion E; subst; reflexivity
    end.
Qed.

Lemma bluesky_failure blueskyIdentifier request cap e :
  rejected (Bluesky.CallTool blueskyIdentifier request) cap e ->
  outcome (Bluesky.CallTool blueskyIdentifier request) cap
  = inr (content_only
           (JSON_stringify
              (JObj [("error",
                       JStr (if instanceof_Error e then message e
                             else "[object Object]"))]) 0)).
Proof.
  unfold rejected, Bluesky.CallTool. destruct request as [name args].
  cbn [Request.name Request.arguments].
  destruct args as [o | ]; [ | cbn; close_rejected ].
  run_handler_kinds cap; close_rejected;
    match goal with
    | E : cap ?q = inl _, Hc : cap ?q = inl _ |- _ =>
        rewrite Hc in E; inversion E; subst; reflexivity
    end.
Qed.

Lemma supabase_failure request cap e :
  rejected (Supabase.CallTool request) cap e ->
  outcome (Supabase.CallTool request) cap
  = inr (content_flag ("Error: " +:+ message e) true).
Proof.
  unfold rejected, Supabase.CallTool, Supabase.apply_filters, Supabase.run.
  destruct request as [name args]. cbn [Request.name Request.arguments].
  run_handler cap; close_rejected.
Qed.

Lemma supabase_reply_error request cap c d m :
  In c (trace (Supabase.CallTool request) cap) ->
  cap c = inr {| Supabase.data := d; Supabase.error := Some m |} ->
  outcome (Supabase.CallTool request) cap
  = inr (content_flag ("Error: " +:+ m) true).
Proof.
  unfold Supabase.CallTool, Supabase.apply_filters, Supabase.run.
  destruct request as [name args]. cbn [Request.name Request.arguments].
  intros Hin Hc. revert Hin.
  run_handler cap; intros Hin; cbn in Hin;
    repeat destruct Hin as [Hin | Hin]; try contradiction; subst c; congruence.
Qed.

Lemma apply_filter_calls_nothing Date_value toLowerCase flt items cap :
  snd (Rss.apply_filter Date_value toLowerCase flt items cap) = [].
Proof.
  unfold Rss.apply_filter.
  destruct (truthy flt); [ | reflexivity ].
  destruct (truthy (prop "search" flt)); [ | reflexivity ].
  destruct (prop "search" flt); reflexivity.
Qed.

Lemma rss_fetch_failure args cap e :
  rejected (Rss.handleFetchFeed args) cap e ->
  outcome (Rss.handleFetchFeed args) cap
  = inr (content_flag ("Failed to fetch feed: " +:+ message e) true).
Proof.
  unfold rejected, Rss.handleFetchFeed. exec_unfold.
  destruct (cap (Rss.parseURL (Rss.ff_url args))) eqn:E; cbn; close_rejected.
Qed.

Lemma rss_items_failure Date_value toLowerCase args cap e :
  rejected (Rss.handleGetFeedItems Date_value toLowerCase args) cap e ->
  outcome (Rss.handleGetFeedItems Date_value toLowerCase args) cap
  = inr (content_flag ("Failed to fetch feed items: " +:+ message e) true).
Proof.
  unfold rejected, Rss.handleGetFeedItems. exec_unfold.
  destruct (cap (Rss.parseURL (Rss.gi_url args))) as [e0 | feed] eqn:E; cbn;
    [ close_rejected | ].
  pose proof (apply_filter_calls_nothing Date_value toLowerCase
                (Rss.gi_filter args) (Rss.Feed.items feed) cap) as Hf.
  destruct (Rss.apply_filter Date_value toLowerCase (Rss.gi_filter args)
              (Rss.Feed.items feed) cap) as [[e1 | items] t].
  all: cbn in Hf; subst t; cbn; close_rejected.
Qed.

Lemma rss_failure Date_value toLowerCase request cap e :
  rejected (Rss.CallTool Date_value toLowerCase request) cap e ->
  exists prefix,
    outcome (Rss.CallTool Date_value toLowerCase request) cap
    = inr (content_flag (prefix +:+ message e) true).
Proof.
  unfold Rss.CallTool. destruct request as [name args].
  cbn [Request.name Request.arguments].
  switch_cases; try destruct (opt_get "url" args);
    try (unfold rejected; cbn; close_rejected; fail); intros H.
  all: eexists.
  all: first [ apply rss_fetch_failure; exact H
             | apply (rss_items_failure Date_value toLowerCase); exact H ].
Qed.

Lemma shortcuts_failure args (availableShortcuts : list string) cap e :
  rejected (Shortcuts.CallTool
              {| Request.name := "run_shortcut"; Request.arguments := args |}
              availableShortcuts) cap e ->
  outcome (Shortcuts.CallTool
             {| Request.name := "run_shortcut"; Request.arguments := args |}
             availableShortcuts) cap
  = inr (content_flag ("Failed to run shortcut: " +:+ message e) true,
         availableShortcuts).
Proof.
  unfold rejected, Shortcuts.CallTool, Shortcuts.handleToolCall.
  cbn [Request.name Request.arguments String.eqb Ascii.eqb Bool.eqb].
  exec_unfold.
  destruct (truthy (get "input" (default [] args)));
    match goal with
    | |- context [cap ?q] => destruct (cap q) eqn:E
    end; cbn; close_rejected.
Qed.

(** C1, amended: when the backing call of an invocation fails, the
    Supabase, RSS and Shortcuts [run_shortcut] handlers return an envelope
    with [isError] true whose text is a fixed prefix followed by the message of
    the failure.  The other handlers do not: the Telegram and Obsidian
    handlers throw an InternalError protocol error carrying the message
    (Obsidian passes a protocol error on as it is), the iOS simulator handler
    throws the failure on, and the Bluesky handler returns an envelope with
    the message in its text and no flag. *)
Theorem capability_failure_outcomes
    (Date_value : value -> option Z) (toLowerCase : string -> string)
    (issues : IosSimulator.schema -> object -> string)
    (blueskyIdentifier : string) (availableShortcuts : list string)
    (request : Request.t) (e : exn) :
  (forall cap,
      rejected (Supabase.CallTool request) cap e ->
      outcome (Supabase.CallTool request) cap
      = inr (content_flag ("Error: " +:+ message e) true))
  /\ (forall cap c d m,
         In c (trace (Supabase.CallTool request) cap) ->
         cap c = inr {| Supabase.data := d; Supabase.error := Some m |} ->
         outcome (Supabase.CallTool request) cap
         = inr (content_flag ("Error: " +:+ m) true))
  /\ (forall cap,
         rejected (Rss.CallTool Date_value toLowerCase request) cap e ->
         exists prefix,
           outcome (Rss.CallTool Date_value toLowerCase request) cap
           = inr (content_flag (prefix +:+ message e) true))
  /\ (forall cap,
         Request.name request = "run_shortcut" ->
         rejected (Shortcuts.CallTool request availableShortcuts) cap e ->
         outcome (Shortcuts.CallTool request availableShortcuts) cap
         = inr (content_flag ("Failed to run shortcut: " +:+ message e) true,
                availableShortcuts))
  /\ (forall cap,
         rejected (Telegram.CallTool request) cap e ->
         outcome (Telegram.CallTool request) cap
         = inl (McpError InternalError ("Telegram API error: " +:+ message e)))
  /\ (forall cap,
         rejected (Obsidian.CallTool request) cap e ->
         outcome (Obsidian.CallTool request) cap
         = inl (if instanceof_McpError e then e
                else McpError InternalError
                       (if instanceof_Error e then message e
                        else "[object Object]")))
  /\ (forall cap,
         rejected (IosSimulator.CallTool issues request) cap e ->
         outcome (IosSimulator.CallTool issues request) cap
         = inl (if instanceof_ZodError e
                then Error ("Invalid arguments: " +:+ message e)
                else e))
  /\ (forall cap,
         rejected (Bluesky.CallTool blueskyIdentifier request) cap e ->
         outcome (Bluesky.CallTool blueskyIdentifier request) cap
         = inr (content_only
                  (JSON_stringify
                     (JObj [("error",
                              JStr (if instanceof_Error e then message e
                                    else "[object Object]"))]) 0))).
Proof.
  split; [ intros cap; apply supabase_failure | ].
  split; [ intros cap c d m; apply supabase_reply_error | ].
  split; [ intros cap; apply rss_failure | ].
  split.
  { intros cap Hname. destruct request as [name args]. cbn in Hname. subst name.
    apply shortcuts_failure. }
  split; [ intros cap; apply telegram_failure | ].
  split; [ intros cap; apply obsidian_failure | ].
  split; [ intros cap; apply ios_failure | ].
  intros cap; apply bluesky_failure.
Qed.

Lemma capability_failure_outcomes_witness :
  outcome (Supabase.CallTool
             {| Request.name := "query_data"; Request.arguments := Some sample_args |})
          offline
  = inr (content_flag "Error: connect ETIMEDOUT" true)
  /\ outcome (Telegram.CallTool
                {| Request.name := "get_chat";
                   Request.arguments := Some [("chat_id", JStr "@x")] |}) offline
     = inl (McpError InternalError "Telegram API error: connect ETIMEDOUT").
Proof.
  split.
  - destruct (capability_failure_outcomes (fun _ => None) (fun s => s) sample_issues
                "alice.bsky.social" []
                {| Request.name := "query_data"; Request.arguments := Some sample_args |}
                (Error "connect ETIMEDOUT")) as (Hsupabase & _).
    apply (Hsupabase offline).
    exists [Supabase.from_ (JStr "notes"); Supabase.select_ (JStr "*")].
    split; [ left; reflexivity | reflexivity ].
  - destruct (capability_failure_outcomes (fun _ => None) (fun s => s) sample_issues
                "alice.bsky.social" []
                {| Request.name := "get_chat";
                   Request.arguments := Some [("chat_id", JStr "@x")] |}
                (Error "connect ETIMEDOUT")) as (_ & _ & _ & _ & Htelegram & _).
    apply (Htelegram offline).
    exists (Telegram.getChat (JStr "@x")).
    split; [ left; reflexivity | reflexivity ].
Defined.


(** ** [JSON.parse] after [JSON.stringify] *)

(** *** Strings *)

Lemma append_cons x (a b : string) : String x a +:+ b = String x (a +:+ b).
Proof. reflexivity. Qed.

Lemma append_nil_l (b : string) : "" +:+ b = b.
Proof. reflexivity. Qed.

Ltac push_append := rewrite ?append_cons, ?append_nil_l.

Lemma append_assoc (a b c : string) : (a +:+ b) +:+ c = a +:+ (b +:+ c).
Proof.
  induction a as [ | x a IH]; push_append; [ reflexivity | rewrite IH; reflexivity ].
Qed.

Lemma append_nil_r (a : string) : a +:+ "" = a.
Proof.
  induction a as [ | x a IH]; push_append; [ reflexivity | rewrite IH; reflexivity ].
Qed.

Lemma length_append (a b : string) :
  String.length (a +:+ b) = String.length a + String.length b.
Proof.
  induction a as [ | x a IH]; push_append; cbn; [ reflexivity | rewrite IH; reflexivity ].
Qed.

Lemma skip_ws_app w s : all_ws w = true -> skip_ws (w +:+ s) = skip_ws s.
Proof.
  induction w as [ | c w IH]; push_append; cbn; [ reflexivity | ].
  intros H. apply andb_true_iff in H as [Hc Hw]. rewrite Hc. apply IH, Hw.
Qed.

Lemma skip_ws_stop c s : is_ws c = false -> skip_ws (String c s) = String c s.
Proof. intros H. cbn. rewrite H. reflexivity. Qed.

Lemma all_ws_app a b : all_ws a = true -> all_ws b = true -> all_ws (a +:+ b) = true.
Proof.
  induction a as [ | c a IH]; push_append; cbn; [ auto | ].
  intros H Hb. apply andb_true_iff in H as [Hc Ha]. rewrite Hc. apply IH; assumption.
Qed.

Lemma all_ws_spaces n : all_ws (spaces n) = true.
Proof. induction n as [ | n IH]; [ reflexivity | exact IH ]. Qed.

Lemma value_start_spec c :
  value_start c = true ->
  is_ws c = false /\ Ascii.eqb c "]" = false /\ Ascii.eqb c "}" = false.
Proof.
  destruct c as [[] [] [] [] [] [] [] []]; vm_compute; intuition congruence.
Qed.

Lemma digit_start c : is_digit c = true -> value_start c = true.
Proof. intros H. unfold value_start. rewrite H. reflexivity. Qed.

Lemma digit_not_minus c : is_digit c = true -> Ascii.eqb c "-" = false.
Proof. destruct c as [[] [] [] [] [] [] [] []]; vm_compute; congruence. Qed.

(** *** String literals *)

Lemma parse_quote_char c tail :
  parse_chars (quote_char c +:+ tail) = cons_char c (parse_chars tail).
Proof. destruct c as [[] [] [] [] [] [] [] []]; reflexivity. Qed.

Lemma parse_quote_chars s rest :
  parse_chars (quote_chars s +:+ String dquote rest) = Some (s, rest).
Proof.
  induction s as [ | c s IH]; [ reflexivity | ].
  cbn [quote_chars]. rewrite append_assoc, parse_quote_char, IH. reflexivity.
Qed.

Lemma parse_QuoteJSONString s rest :
  exists tail, QuoteJSONString s +:+ rest = String dquote tail
               /\ parse_chars tail = Some (s, rest).
Proof.
  exists (quote_chars s +:+ String dquote rest). split.
  - unfold QuoteJSONString. push_append. rewrite append_assoc. reflexivity.
  - apply parse_quote_chars.
Qed.

(** *** Numbers *)

Lemma nzhead_not_D0 d u : Decimal.nzhead d <> Decimal.D0 u.
Proof. induction d; cbn; try discriminate; exact IHd. Qed.

Lemma span_digits_uint d rest :
  continues_number rest = false ->
  span_digits (NilEmpty.string_of_uint d +:+ rest) = (NilEmpty.string_of_uint d, rest).
Proof.
  intros H. induction d; cbn [NilEmpty.string_of_uint]; push_append;
    try (cbn [span_digits]; change (is_digit _) with true; cbn iota;
         rewrite IHd; reflexivity).
  destruct rest as [ | c rest]; [ reflexivity | ].
  cbn in *. apply orb_false_iff in H as [H _]. apply orb_false_iff in H as [H _].
  apply orb_false_iff in H as [H _]. rewrite H. reflexivity.
Qed.

Lemma uint_string_start d :
  d <> Decimal.Nil ->
  exists c s, NilEmpty.string_of_uint d = String c s /\ is_digit c = true.
Proof.
  destruct d; [ congruence | .. ]; intros _; cbn [NilEmpty.string_of_uint];
    eexists; eexists; (split; [ reflexivity | reflexivity ]).
Qed.

Lemma uint_of_string_of_uint d :
  d <> Decimal.Nil ->
  NilZero.uint_of_string (NilEmpty.string_of_uint d) = Some d.
Proof.
  intros H. destruct (uint_string_start d H) as (c & s & E & _).
  unfold NilZero.uint_of_string. rewrite E, <- E. apply NilEmpty.usu.
Qed.

(** A numeral without leading zeros prints without leading zero. *)
Lemma leading_zero_uint d :
  d = Decimal.D0 Decimal.Nil \/ Decimal.nzhead d = d ->
  leading_zero (NilEmpty.string_of_uint d) = false.
Proof.
  intros [-> | H]; [ reflexivity | ].
  destruct d; try reflexivity; cbn [NilEmpty.string_of_uint leading_zero];
    try (destruct (NilEmpty.string_of_uint d); reflexivity).
  exfalso. exact (nzhead_not_D0 _ _ H).
Qed.

Lemma parse_number_digits (negative : bool) d rest :
  d <> Decimal.Nil ->
  leading_zero (NilEmpty.string_of_uint d) = false ->
  continues_number rest = false ->
  parse_number ((if negative then "-" else "") +:+ NilEmpty.string_of_uint d +:+ rest)
  = Some (Z.of_int (if negative then Decimal.Neg d else Decimal.Pos d), rest).
Proof.
  intros Hd Hz Hrest. unfold parse_number.
  assert (Hsign : sign ((if negative then "-" else "") +:+
                        NilEmpty.string_of_uint d +:+ rest)
                  = (negative, NilEmpty.string_of_uint d +:+ rest)).
  { destruct negative; [ reflexivity | ]. push_append.
    destruct (uint_string_start d Hd) as (c & s & E & Hc).
    rewrite E. push_append. unfold sign. rewrite (digit_not_minus c Hc). reflexivity. }
  rewrite Hsign, (span_digits_uint d rest Hrest), Hz, Hrest,
    (uint_of_string_of_uint d Hd).
  reflexivity.
Qed.

Lemma to_int_norm n : Decimal.norm (Z.to_int n) = Z.to_int n.
Proof. rewrite <- (of_to n) at 2. rewrite to_of. reflexivity. Qed.

Lemma to_uint_nzhead p : Decimal.nzhead (Pos.to_uint p) = Pos.to_uint p.
Proof.
  pose proof (to_int_norm (Z.neg p)) as H. cbn [Z.to_int Decimal.norm] in H.
  destruct (Decimal.nzhead (Pos.to_uint p)) eqn:E; congruence.
Qed.

Lemma parse_number_string_of_Z n rest :
  continues_number rest = false ->
  parse_number (string_of_Z n +:+ rest) = Some (n, rest).
Proof.
  intros Hrest. rewrite <- (of_to n) at 2. unfold string_of_Z.
  destruct n as [ | p | p]; cbn [Z.to_int NilZero.string_of_int].
  - apply (parse_number_digits false (Decimal.D0 Decimal.Nil) rest);
      [ discriminate | reflexivity | exact Hrest ].
  - pose proof (Unsigned.to_uint_nonnil p) as Hp.
    replace (NilZero.string_of_uint (Pos.to_uint p))
      with (NilEmpty.string_of_uint (Pos.to_uint p))
      by (destruct (Pos.to_uint p); [ congruence | reflexivity .. ]).
    apply (parse_number_digits false (Pos.to_uint p) rest);
      [ exact Hp | apply leading_zero_uint; right; apply to_uint_nzhead | exact Hrest ].
  - pose proof (Unsigned.to_uint_nonnil p) as Hp.
    replace (NilZero.string_of_uint (Pos.to_uint p))
      with (NilEmpty.string_of_uint (Pos.to_uint p))
      by (destruct (Pos.to_uint p); [ congruence | reflexivity .. ]).
    rewrite append_cons.
    apply (parse_number_digits true (Pos.to_uint p) rest);
      [ exact Hp | apply leading_zero_uint; right; apply to_uint_nzhead | exact Hrest ].
Qed.

Lemma string_of_Z_start n :
  exists c s, string_of_Z n = String c s /\ (is_digit c || Ascii.eqb c "-") = true.
Proof.
  unfold string_of_Z. destruct n as [ | p | p]; cbn [Z.to_int NilZero.string_of_int].
  - eexists; eexists; split; reflexivity.
  - pose proof (Unsigned.to_uint_nonnil p) as Hp.
    destruct (uint_string_start _ Hp) as (c & s & E & Hc).
    exists c, s. split; [ | rewrite Hc; reflexivity ].
    destruct (Pos.to_uint p); [ congruence | exact E .. ].
  - eexists; eexists; split; reflexivity.
Qed.

(** *** Values *)

Lemma ws_not_number c : is_ws c = true ->
  (is_digit c || Ascii.eqb c "." || Ascii.eqb c "e" || Ascii.eqb c "E") = false.
Proof. destruct c as [[] [] [] [] [] [] [] []]; vm_compute; congruence. Qed.

Lemma continues_number_after w c r :
  all_ws w = true ->
  continues_number (String c r) = false ->
  continues_number (w +:+ String c r) = false.
Proof.
  destruct w as [ | x w]; push_append; [ auto | ].
  cbn [all_ws continues_number]. intros H _.
  apply andb_true_iff in H as [H _]. apply ws_not_number, H.
Qed.

Lemma skip_ws_to c s w :
  all_ws w = true -> is_ws c = false -> skip_ws (w +:+ String c s) = String c s.
Proof. intros Hw Hc. rewrite (skip_ws_app _ _ Hw). apply skip_ws_stop, Hc. Qed.

Lemma join_cons2 sep a b l : join sep (a :: b :: l) = a +:+ sep +:+ join sep (b :: l).
Proof. reflexivity. Qed.

Lemma parse_elements_join gap ind (l : list value) :
  l <> [] ->
  Forall (reads_back gap ind) l ->
  forall fuel w1 w2 rest,
    list_sum (List.map (fun x => S (value_size x)) l) <= fuel ->
    all_ws w1 = true -> all_ws w2 = true ->
    parse_elements fuel
      (w1 +:+ join (String "," w1)
                (List.map (fun x => or_null (SerializeJSONProperty gap ind x)) l)
       +:+ w2 +:+ String "]" rest)
    = Some (l, rest).
Proof.
  induction l as [ | x l IH]; [ congruence | ].
  intros _ HF fuel w1 w2 rest Hfuel Hw1 Hw2.
  inversion HF as [ | ? ? (str & Hser & _ & _ & Hparse) HF']; subst.
  destruct fuel as [ | fuel]; [ cbn in Hfuel; lia | ].
  cbn [parse_elements List.map]. rewrite Hser. cbn [or_null].
  destruct l as [ | y l]; cbn in Hfuel.
  - cbn [join List.map].
    rewrite (Hparse fuel w1 (w2 +:+ String "]" rest));
      [ | lia | exact Hw1 | apply continues_number_after; [ exact Hw2 | reflexivity ] ].
    rewrite (skip_ws_to "]" rest w2 Hw2 eq_refl). reflexivity.
  - cbn [List.map]. rewrite join_cons2, !append_assoc. push_append.
    rewrite (Hparse fuel w1); [ | lia | exact Hw1 | reflexivity ].
    cbn [skip_ws]. change (is_ws ",") with false. cbn iota.
    change (Ascii.eqb "," ",") with true. cbn iota.
    change (or_null (SerializeJSONProperty gap ind y)
            :: List.map (fun x0 => or_null (SerializeJSONProperty gap ind x0)) l)
      with (List.map (fun x0 => or_null (SerializeJSONProperty gap ind x0)) (y :: l)).
    rewrite (IH ltac:(discriminate) HF' fuel w1 w2 rest ltac:(cbn; lia) Hw1 Hw2).
    reflexivity.
Qed.

Lemma all_ws_colon (gap : string) : all_ws (if String.eqb gap "" then "" else " ") = true.
Proof. destruct (String.eqb gap ""); reflexivity. Qed.

Lemma member_text_eq gap k str tail :
  member_text gap k str +:+ tail
  = String dquote (quote_chars k +:+ String dquote
      (String ":" ((if String.eqb gap "" then "" else " ") +:+ str +:+ tail))).
Proof.
  unfold member_text, QuoteJSONString. rewrite !append_assoc. push_append.
  rewrite !append_assoc. push_append. reflexivity.
Qed.

Lemma parse_members_join gap ind (m : object) :
  m <> [] ->
  Forall (fun kv => reads_back gap ind (snd kv)) m ->
  forall fuel w1 w2 rest,
    list_sum (List.map (fun kv => S (value_size (snd kv))) m) <= fuel ->
    all_ws w1 = true -> all_ws w2 = true ->
    parse_members fuel
      (w1 +:+ join (String "," w1)
                (List.map (fun kv => member_text gap (fst kv)
                                       (or_null (SerializeJSONProperty gap ind (snd kv)))) m)
       +:+ w2 +:+ String "}" rest)
    = Some (m, rest).
Proof.
  induction m as [ | [k x] m IH]; [ congruence | ].
  intros _ HF fuel w1 w2 rest Hfuel Hw1 Hw2.
  inversion HF as [ | ? ? (str & Hser & _ & _ & Hparse) HF']; subst.
  cbn [snd fst] in *.
  destruct fuel as [ | fuel]; [ cbn in Hfuel; lia | ].
  cbn [parse_members List.map fst snd]. rewrite Hser. cbn [or_null].
  destruct m as [ | [k' y] m]; cbn in Hfuel.
  - cbn [join List.map]. rewrite member_text_eq.
    rewrite (skip_ws_to dquote _ w1 Hw1 eq_refl).
    change (Ascii.eqb dquote dquote) with true. cbn iota.
    rewrite parse_quote_chars.
    cbn [skip_ws]. change (is_ws ":") with false. cbn iota.
    change (Ascii.eqb ":" ":") with true. cbn iota.
    rewrite (Hparse fuel _ (w2 +:+ String "}" rest));
      [ | lia | apply all_ws_colon
        | apply continues_number_after; [ exact Hw2 | reflexivity ] ].
    rewrite (skip_ws_to "}" rest w2 Hw2 eq_refl). reflexivity.
  - cbn [List.map fst snd]. rewrite join_cons2, !append_assoc. push_append.
    rewrite member_text_eq.
    rewrite (skip_ws_to dquote _ w1 Hw1 eq_refl).
    change (Ascii.eqb dquote dquote) with true. cbn iota.
    rewrite parse_quote_chars.
    cbn [skip_ws]. change (is_ws ":") with false. cbn iota.
    change (Ascii.eqb ":" ":") with true. cbn iota.
    rewrite (Hparse fuel); [ | lia | apply all_ws_colon | reflexivity ].
    cbn [skip_ws]. change (is_ws ",") with false. cbn iota.
    change (Ascii.eqb "," ",") with true. cbn iota.
    pose proof (IH ltac:(discriminate) HF' fuel w1 w2 rest ltac:(cbn; lia) Hw1 Hw2)
      as IH'.
    cbn [List.map fst snd] in IH'. rewrite IH'. reflexivity.
Qed.

Lemma map_or_null_nonempty {A} (f : A -> string) (l : list A) :
  l <> [] -> exists a tl, List.map f l = a :: tl.
Proof. destruct l; [ congruence | ]. intros _. eexists; eexists; reflexivity. Qed.

Lemma wrap_nonempty opening closing gap stepback ind a tl :
  all_ws stepback = true -> all_ws ind = true ->
  exists w1 w2,
    all_ws w1 = true /\ all_ws w2 = true
    /\ wrap opening closing gap stepback ind (a :: tl)
       = opening +:+ w1 +:+ join (String "," w1) (a :: tl) +:+ w2 +:+ closing.
Proof.
  intros Hs Hi. unfold wrap. destruct (String.eqb gap "").
  - exists "", "". repeat split; reflexivity.
  - exists (String LF ind), (String LF stepback).
    split; [ exact Hi | split; [ exact Hs | reflexivity ] ].
Qed.

Lemma join_head sep c s tl tail :
  exists t, join sep (String c s :: tl) +:+ tail = String c t.
Proof.
  destruct tl; cbn [join]; push_append; eexists; reflexivity.
Qed.

Lemma join_length_elements gap ind w1 (l : list value) :
  l <> [] ->
  Forall (reads_back gap ind) l ->
  list_sum (List.map (fun x => S (value_size x)) l)
  <= String.length
       (join (String "," w1)
          (List.map (fun x => or_null (SerializeJSONProperty gap ind x)) l)) + 1.
Proof.
  induction l as [ | x l IH]; [ congruence | ].
  intros _ HF. inversion HF as [ | ? ? (str & Hser & _ & Hlen & _) HF']; subst.
  cbn [List.map]. rewrite Hser. cbn [or_null].
  destruct l as [ | y l].
  - cbn. lia.
  - cbn [List.map]. rewrite join_cons2, !length_append.
    specialize (IH ltac:(discriminate) HF'). cbn [List.map] in IH.
    cbn [list_sum fold_right String.length] in *. lia.
Qed.

Lemma member_text_length gap k str :
  String.length str <= String.length (member_text gap k str).
Proof. unfold member_text. rewrite !length_append. lia. Qed.

Lemma join_length_members gap ind w1 (m : object) :
  m <> [] ->
  Forall (fun kv => reads_back gap ind (snd kv)) m ->
  list_sum (List.map (fun kv => S (value_size (snd kv))) m)
  <= String.length
       (join (String "," w1)
          (List.map (fun kv => member_text gap (fst kv)
                                 (or_null (SerializeJSONProperty gap ind (snd kv)))) m))
     + 1.
Proof.
  induction m as [ | [k x] m IH]; [ congruence | ].
  intros _ HF. inversion HF as [ | ? ? (str & Hser & _ & Hlen & _) HF']; subst.
  cbn [fst snd] in *. cbn [List.map fst snd]. rewrite Hser. cbn [or_null].
  pose proof (member_text_length gap k str) as Hm.
  destruct m as [ | [k' y] m].
  - cbn. lia.
  - cbn [List.map fst snd]. rewrite join_cons2, !length_append.
    specialize (IH ltac:(discriminate) HF'). cbn [List.map fst snd] in IH.
    cbn [list_sum fold_right String.length] in *. lia.
Qed.

Lemma insert_property_first {A} (e : string * A) l :
  match l with [] => True | e' :: _ => before (fst e) (fst e') = true end ->
  insert_property e l = e :: l.
Proof. destruct l as [ | e' l]; [ reflexivity | ]. cbn. intros ->. reflexivity. Qed.

(** Properties written in the order of the runtime are listed as written. *)
Lemma ordered_in_order {A} (l : list (string * A)) :
  in_order (List.map fst l) = true -> ordered l = l.
Proof.
  induction l as [ | e l IH]; [ reflexivity | ].
  intros H. cbn [ordered fold_right]. fold (ordered l).
  destruct l as [ | e' l]; [ reflexivity | ].
  cbn [List.map in_order] in H. apply andb_true_iff in H as [Hbefore Hrest].
  rewrite (IH Hrest). apply insert_property_first. exact Hbefore.
Qed.

Lemma flat_map_members gap ind (m : object) :
  in_order (List.map fst m) = true ->
  Forall (fun kv => reads_back gap ind (snd kv)) m ->
  List.map snd
    (ordered
       (List.flat_map
          (fun kv => match SerializeJSONProperty gap ind (snd kv) with
                     | Some str =>
                         [(fst kv,
                           QuoteJSONString (fst kv) +:+ ":"
                           +:+ (if String.eqb gap "" then "" else " ") +:+ str)]
                     | None => []
                     end) m))
  = List.map (fun kv => member_text gap (fst kv)
                          (or_null (SerializeJSONProperty gap ind (snd kv)))) m.
Proof.
  intros Horder HF.
  assert (Hflat :
    List.flat_map
      (fun kv => match SerializeJSONProperty gap ind (snd kv) with
                 | Some str =>
                     [(fst kv,
                       QuoteJSONString (fst kv) +:+ ":"
                       +:+ (if String.eqb gap "" then "" else " ") +:+ str)]
                 | None => []
                 end) m
    = List.map (fun kv => (fst kv,
                           member_text gap (fst kv)
                             (or_null (SerializeJSONProperty gap ind (snd kv))))) m).
  { clear Horder. induction HF as [ | kv m (str & Hser & _) _ IH]; [ reflexivity | ].
    cbn [List.flat_map List.map]. rewrite Hser, IH. reflexivity. }
  rewrite Hflat, ordered_in_order.
  - rewrite List.map_map. reflexivity.
  - rewrite List.map_map. cbn [fst]. exact Horder.
Qed.

Lemma parse_value_open fuel w c tail :
  all_ws w = true -> is_ws c = false ->
  parse_value (S fuel) (w +:+ String c tail) = parse_value (S fuel) (String c tail).
Proof.
  intros Hw Hc. cbn [parse_value].
  rewrite (skip_ws_to c tail w Hw Hc), (skip_ws_stop c tail Hc). reflexivity.
Qed.

Lemma is_json_forall (l : list value) (P : value -> Prop) :
  Forall (fun x => is_json x = true -> P x) l ->
  forallb is_json l = true -> Forall P l.
Proof.
  induction 1 as [ | x l Hx _ IH]; cbn; [ constructor | ].
  intros H. apply andb_true_iff in H as [H1 H2]. constructor; auto.
Qed.

Lemma is_json_forall_members (m : object) (P : value -> Prop) :
  Forall (fun kv => is_json (snd kv) = true -> P (snd kv)) m ->
  forallb (fun kv => is_json (snd kv)) m = true -> Forall (fun kv => P (snd kv)) m.
Proof.
  induction 1 as [ | x l Hx _ IH]; cbn; [ constructor | ].
  intros H. apply andb_true_iff in H as [H1 H2]. constructor; auto.
Qed.

Lemma distinct_middle (a b : list string) k :
  distinct (a ++ k :: b) = true -> existsb (String.eqb k) a = false.
Proof.
  induction a as [ | x a IH]; [ reflexivity | ].
  cbn [app distinct existsb]. intros H.
  apply andb_true_iff in H as [Hx Ha]. apply negb_true_iff in Hx.
  rewrite existsb_app in Hx. apply orb_false_iff in Hx as [_ Hx].
  cbn [existsb] in Hx. apply orb_false_iff in Hx as [Hx _].
  rewrite String.eqb_sym, Hx. apply IH, Ha.
Qed.

Lemma set_property_fresh k v (m : object) :
  existsb (String.eqb k) (List.map fst m) = false ->
  set_property k v m = (m ++ [(k, v)])%list.
Proof.
  induction m as [ | [k' v'] m IH]; [ reflexivity | ].
  cbn [List.map fst existsb set_property app]. intros H.
  apply orb_false_iff in H as [Hk Hm]. rewrite Hk, (IH Hm). reflexivity.
Qed.

Lemma fold_set_property (l acc : object) :
  distinct (List.map fst acc ++ List.map fst l) = true ->
  fold_left (fun acc kv => set_property (fst kv) (snd kv) acc) l acc
  = (acc ++ l)%list.
Proof.
  revert acc. induction l as [ | [k v] l IH]; intros acc H.
  - cbn. rewrite app_nil_r. reflexivity.
  - cbn [fold_left fst snd List.map] in *.
    rewrite (set_property_fresh k v acc (distinct_middle _ _ _ H)).
    rewrite IH.
    + rewrite <- app_assoc. reflexivity.
    + rewrite List.map_app, <- app_assoc. exact H.
Qed.

(** Members with distinct names, written in the order of the runtime,
    build the object that lists them. *)
Lemma object_of_distinct (m : object) :
  distinct (List.map fst m) = true -> in_order (List.map fst m) = true ->
  object_of m = m.
Proof.
  intros H Horder. unfold object_of.
  rewrite fold_set_property; [ | exact H ]. apply ordered_in_order. exact Horder.
Qed.

Lemma serialize_good gap :
  all_ws gap = true ->
  forall v, is_json v = true -> forall ind, all_ws ind = true -> reads_back gap ind v.
Proof.
  intros Hgap v.
  induction v as [ | | b | n | s | l IH | m IH] using value_induction;
    intros Hjson ind Hind.
  - discriminate Hjson.
  - exists "null". split; [ reflexivity | ].
    split; [ eexists; eexists; split; reflexivity | ].
    split; [ cbn; lia | ].
    intros [ | fuel] w rest Hfuel Hw Hrest; [ cbn in Hfuel; lia | ].
    push_append. rewrite (parse_value_open fuel w "n" _ Hw eq_refl). reflexivity.
  - exists (if b then "true" else "false"). split; [ reflexivity | ].
    split; [ destruct b; eexists; eexists; split; reflexivity | ].
    split; [ destruct b; cbn; lia | ].
    intros [ | fuel] w rest Hfuel Hw Hrest; [ cbn in Hfuel; lia | ].
    destruct b; push_append.
    + rewrite (parse_value_open fuel w "t" _ Hw eq_refl). reflexivity.
    + rewrite (parse_value_open fuel w "f" _ Hw eq_refl). reflexivity.
  - exists (string_of_Z n). split; [ reflexivity | ].
    destruct (string_of_Z_start n) as (c & s & E & Hc).
    assert (Hstart : value_start c = true).
    { unfold value_start. rewrite Hc. reflexivity. }
    split; [ exists c, s; split; assumption | ].
    split; [ rewrite E; cbn; lia | ].
    intros [ | fuel] w rest Hfuel Hw Hrest; [ cbn in Hfuel; lia | ].
    destruct (value_start_spec c Hstart) as (Hws & _ & _).
    rewrite E. push_append. rewrite (parse_value_open fuel w c _ Hw Hws).
    cbn [parse_value]. rewrite (skip_ws_stop c _ Hws), Hc.
    rewrite <- append_cons, <- E, (parse_number_string_of_Z n rest Hrest).
    cbn [is_json] in Hjson. rewrite Hjson. reflexivity.
  - exists (QuoteJSONString s). split; [ reflexivity | ].
    split; [ eexists; eexists; split; reflexivity | ].
    split; [ cbn; lia | ].
    intros [ | fuel] w rest Hfuel Hw Hrest; [ cbn in Hfuel; lia | ].
    unfold QuoteJSONString. push_append. rewrite append_assoc. push_append.
    rewrite (parse_value_open fuel w dquote _ Hw eq_refl).
    cbn [parse_value]. rewrite (skip_ws_stop dquote _ eq_refl).
    change (is_digit dquote || Ascii.eqb dquote "-") with false. cbn iota.
    change (Ascii.eqb dquote "n") with false. cbn iota.
    change (Ascii.eqb dquote "t") with false. cbn iota.
    change (Ascii.eqb dquote "f") with false. cbn iota.
    change (Ascii.eqb dquote dquote) with true. cbn iota.
    rewrite parse_quote_chars. reflexivity.
  - cbn [is_json] in Hjson.
    assert (Hind' : all_ws (ind +:+ gap) = true) by (apply all_ws_app; assumption).
    assert (HF : Forall (reads_back gap (ind +:+ gap)) l).
    { apply (is_json_forall l (fun x => reads_back gap (ind +:+ gap) x)); [ | exact Hjson ].
      eapply List.Forall_impl; [ | exact IH ]. cbn. intros x Hx Hj. apply Hx; assumption. }
    destruct l as [ | x l].
    + exists "[]". split; [ reflexivity | ].
      split; [ eexists; eexists; split; reflexivity | ].
      split; [ cbn; lia | ].
      intros [ | fuel] w rest Hfuel Hw Hrest; [ cbn in Hfuel; lia | ].
      push_append. rewrite (parse_value_open fuel w "[" _ Hw eq_refl). reflexivity.
    + pose proof (join_length_elements gap (ind +:+ gap)) as Hlen.
      pose proof (parse_elements_join gap (ind +:+ gap) (x :: l)
                    ltac:(discriminate) HF) as Hparse.
      inversion HF as [ | ? ? (str & Hser & (c & s & Ec & Hc) & _ & _) _]; subst.
      cbn [List.map] in *. rewrite Hser in *. cbn [or_null] in *.
      destruct (wrap_nonempty "[" "]" gap ind (ind +:+ gap) (String c s)
                  (List.map (fun x => or_null (SerializeJSONProperty gap (ind +:+ gap) x)) l)
                  Hind Hind') as (w1 & w2 & Hw1 & Hw2 & Ewrap).
      exists (wrap "[" "]" gap ind (ind +:+ gap)
                (String c s
                 :: List.map
                      (fun x => or_null (SerializeJSONProperty gap (ind +:+ gap) x)) l)).
      split; [ cbn [SerializeJSONProperty List.map]; rewrite Hser; reflexivity | ].
      rewrite Ewrap.
      split; [ eexists; eexists; split; reflexivity | ].
      split.
      { specialize (Hlen w1 (x :: l) ltac:(discriminate) HF).
        cbn [List.map] in Hlen. rewrite Hser in Hlen. cbn [or_null] in Hlen.
        cbn [value_size]. rewrite !length_append. cbn [String.length List.map]. lia. }
      intros [ | fuel] w rest Hfuel Hw Hrest; [ cbn in Hfuel; lia | ].
      rewrite !append_assoc. push_append.
      rewrite (parse_value_open fuel w "[" _ Hw eq_refl).
      cbn [parse_value]. rewrite (skip_ws_stop "[" _ eq_refl).
      change (is_digit "[" || Ascii.eqb "[" "-") with false. cbn iota.
      change (Ascii.eqb "[" "n") with false. cbn iota.
      change (Ascii.eqb "[" "t") with false. cbn iota.
      change (Ascii.eqb "[" "f") with false. cbn iota.
      change (Ascii.eqb "[" dquote) with false. cbn iota.
      change (Ascii.eqb "[" "[") with true. cbn iota.
      destruct (value_start_spec c Hc) as (Hws & Hclose & _).
      destruct (join_head (String "," w1) c s
                  (List.map (fun x => or_null (SerializeJSONProperty gap (ind +:+ gap) x)) l)
                  (w2 +:+ String "]" rest)) as (t & Et).
      rewrite Et at 1. rewrite (skip_ws_to c t w1 Hw1 Hws), Hclose.
      rewrite (Hparse fuel w1 w2 rest); [ reflexivity | | exact Hw1 | exact Hw2 ].
      cbn [value_size List.map] in Hfuel. cbn [List.map]. lia.
  - cbn [is_json] in Hjson. apply andb_true_iff in Hjson as [Hkeys Hjson].
    apply andb_true_iff in Hkeys as [Hkeys Horder].
    assert (Hind' : all_ws (ind +:+ gap) = true) by (apply all_ws_app; assumption).
    assert (HF : Forall (fun kv => reads_back gap (ind +:+ gap) (snd kv)) m).
    { apply (is_json_forall_members m (fun x => reads_back gap (ind +:+ gap) x));
        [ | exact Hjson ].
      eapply List.Forall_impl; [ | exact IH ]. cbn. intros x Hx Hj. apply Hx; assumption. }
    pose proof (flat_map_members gap (ind +:+ gap) m Horder HF) as Hflat.
    destruct m as [ | [k x] m].
    + exists "{}". split; [ reflexivity | ].
      split; [ eexists; eexists; split; reflexivity | ].
      split; [ cbn; lia | ].
      intros [ | fuel] w rest Hfuel Hw Hrest; [ cbn in Hfuel; lia | ].
      push_append. rewrite (parse_value_open fuel w "{" _ Hw eq_refl). reflexivity.
    + pose proof (join_length_members gap (ind +:+ gap)) as Hlen.
      pose proof (parse_members_join gap (ind +:+ gap) ((k, x) :: m)
                    ltac:(discriminate) HF) as Hparse.
      inversion HF as [ | ? ? (str & Hser & _ & _ & _) _]; subst.
      cbn [fst snd] in Hser.
      cbn [List.map fst snd] in *. rewrite Hser in *. cbn [or_null] in *.
      destruct (wrap_nonempty "{" "}" gap ind (ind +:+ gap) (member_text gap k str)
                  (List.map (fun kv => member_text gap (fst kv)
                               (or_null (SerializeJSONProperty gap (ind +:+ gap) (snd kv))))
                     m)
                  Hind Hind') as (w1 & w2 & Hw1 & Hw2 & Ewrap).
      exists (wrap "{" "}" gap ind (ind +:+ gap)
                (member_text gap k str
                 :: List.map (fun kv => member_text gap (fst kv)
                                (or_null (SerializeJSONProperty gap (ind +:+ gap) (snd kv))))
                      m)).
      split; [ cbn [SerializeJSONProperty]; rewrite Hflat; reflexivity | ].
      rewrite Ewrap.
      split; [ eexists; eexists; split; reflexivity | ].
      split.
      { specialize (Hlen w1 ((k, x) :: m) ltac:(discriminate) HF).
        cbn [List.map fst snd] in Hlen. rewrite Hser in Hlen. cbn [or_null] in Hlen.
        cbn [value_size]. rewrite !length_append. cbn [String.length List.map fst snd]. lia. }
      intros [ | fuel] w rest Hfuel Hw Hrest; [ cbn in Hfuel; lia | ].
      rewrite !append_assoc. push_append.
      rewrite (parse_value_open fuel w "{" _ Hw eq_refl).
      cbn [parse_value]. rewrite (skip_ws_stop "{" _ eq_refl).
      change (is_digit "{" || Ascii.eqb "{" "-") with false. cbn iota.
      change (Ascii.eqb "{" "n") with false. cbn iota.
      change (Ascii.eqb "{" "t") with false. cbn iota.
      change (Ascii.eqb "{" "f") with false. cbn iota.
      change (Ascii.eqb "{" dquote) with false. cbn iota.
      change (Ascii.eqb "{" "[") with false. cbn iota.
      change (Ascii.eqb "{" "{") with true. cbn iota.
      assert (Et : exists t,
                 join (String "," w1)
                   (member_text gap k str
                    :: List.map (fun kv => member_text gap (fst kv)
                                   (or_null (SerializeJSONProperty gap (ind +:+ gap)
                                               (snd kv)))) m)
                 +:+ w2 +:+ String "}" rest = String dquote t).
      { unfold member_text at 1, QuoteJSONString. push_append. apply join_head. }
      destruct Et as (t & Et).
      rewrite Et at 1. rewrite (skip_ws_to dquote t w1 Hw1 eq_refl).
      change (Ascii.eqb dquote "}") with false. cbn iota.
      rewrite (Hparse fuel w1 w2 rest);
        [ rewrite (object_of_distinct ((k, x) :: m) Hkeys Horder); reflexivity
        | | exact Hw1 | exact Hw2 ].
      cbn [value_size List.map fst snd] in Hfuel. cbn [List.map fst snd]. lia.
Qed.

(** [JSON.parse] inverts [JSON.stringify] on the values JSON expresses. *)
Lemma JSON_parse_stringify v space :
  is_json v = true ->
  exists s, JSON_stringify v space = Some s /\ JSON_parse s = Some v.
Proof.
  intros Hjson. unfold JSON_stringify.
  destruct (serialize_good (spaces (Nat.min 10 space)) (all_ws_spaces _) v Hjson
              "" eq_refl) as (str & Hser & _ & Hlen & Hparse).
  exists str. split; [ exact Hser | ].
  unfold JSON_parse.
  specialize (Hparse (S (String.length str)) "" "" ltac:(lia) eq_refl eq_refl).
  rewrite append_nil_l, append_nil_r in Hparse. rewrite Hparse. reflexivity.
Qed.


(** ** Successful calls *)











(** * Further properties of the handlers *)

(** ** Text operations behind the listing of the shortcuts *)

Section Strip.
Variable s1 : ascii -> bool.
Variable s2 : ascii -> ascii -> bool.
Variable s3 : ascii -> ascii -> ascii -> bool.

Lemma strip_cases l :
  (leads s1 s2 s3 l = false /\ strip s1 s2 s3 l = l)
  \/ (leads s1 s2 s3 l = true
      /\ exists pre rest,
           l = (pre ++ rest)%list /\ pre <> []
           /\ strip s1 s2 s3 l = strip s1 s2 s3 rest).
Proof.
  destruct l as [ | c1 l1]; [ left; split; reflexivity | ].
  cbn [strip leads]. destruct (s1 c1).
  { right. split; [ reflexivity | ]. exists [c1], l1.
    split; [ reflexivity | split; [ discriminate | reflexivity ] ]. }
  destruct l1 as [ | c2 l2]; [ left; split; reflexivity | ].
  destruct (s2 c1 c2).
  { right. split; [ reflexivity | ]. exists [c1; c2], l2.
    split; [ reflexivity | split; [ discriminate | reflexivity ] ]. }
  destruct l2 as [ | c3 l3]; [ left; split; reflexivity | ].
  destruct (s3 c1 c2 c3).
  { right. split; [ reflexivity | ]. exists [c1; c2; c3], l3.
    split; [ reflexivity | split; [ discriminate | reflexivity ] ]. }
  left. split; reflexivity.
Qed.

Lemma strip_spec_bounded n :
  forall l, length l <= n ->
    leads s1 s2 s3 (strip s1 s2 s3 l) = false
    /\ exists pre, l = (pre ++ strip s1 s2 s3 l)%list.
Proof.
  induction n as [ | n IH]; intros l Hn.
  - destruct l; [ | cbn in Hn; lia ]. split; [ reflexivity | exists []; reflexivity ].
  - destruct (strip_cases l) as [(Hleads & ->) | (_ & pre & rest & -> & Hpre & ->)].
    + split; [ exact Hleads | exists []; reflexivity ].
    + destruct (IH rest) as (Hleads & pre' & Hrest).
      { rewrite length_app in Hn. destruct pre; [ contradiction | cbn in Hn; lia ]. }
      split; [ exact Hleads | ].
      exists (pre ++ pre')%list. rewrite <- app_assoc, <- Hrest. reflexivity.
Qed.

Lemma strip_leads l : leads s1 s2 s3 (strip s1 s2 s3 l) = false.
Proof. apply (strip_spec_bounded (length l) l). lia. Qed.

Lemma strip_suffix l : exists pre, l = (pre ++ strip s1 s2 s3 l)%list.
Proof. apply (strip_spec_bounded (length l) l). lia. Qed.

Lemma strip_fixed l : leads s1 s2 s3 l = false -> strip s1 s2 s3 l = l.
Proof.
  intros H. destruct (strip_cases l) as [(_ & E) | (Htrue & _)]; [ exact E | ].
  rewrite H in Htrue. discriminate Htrue.
Qed.

Lemma strip_idempotent l : strip s1 s2 s3 (strip s1 s2 s3 l) = strip s1 s2 s3 l.
Proof. apply strip_fixed, strip_leads. Qed.

Lemma leads_prefix a b : leads s1 s2 s3 (a ++ b) = false -> leads s1 s2 s3 a = false.
Proof.
  destruct a as [ | c1 [ | c2 [ | c3 a]]]; cbn [app leads]; try reflexivity.
  - destruct (s1 c1); [ discriminate | reflexivity ].
  - destruct (s1 c1); [ discriminate | ]. destruct (s2 c1 c2); [ discriminate | reflexivity ].
  - auto.
Qed.
End Strip.

Lemma trim_start_suffix l : exists pre, l = (pre ++ trim_start l)%list.
Proof. apply strip_suffix. Qed.

Lemma trim_end_prefix l : exists post, l = (trim_end l ++ post)%list.
Proof.
  unfold trim_end.
  destruct (strip_suffix is_space (fun c2 c1 => is_space2 c1 c2)
              (fun c3 c2 c1 => is_space3 c1 c2 c3) (rev l)) as (pre & H).
  exists (rev pre). rewrite <- rev_app_distr, <- H, rev_involutive. reflexivity.
Qed.

Lemma trim_chars s :
  list_ascii_of_string (trim s) = trim_end (trim_start (list_ascii_of_string s)).
Proof. unfold trim. apply list_ascii_of_string_of_list_ascii. Qed.

Lemma trim_idempotent s : trim (trim s) = trim s.
Proof.
  unfold trim at 1. rewrite trim_chars.
  set (l := trim_start (list_ascii_of_string s)).
  assert (Hstart : trim_start (trim_end l) = trim_end l).
  { apply strip_fixed.
    destruct (trim_end_prefix l) as (post & Hpost).
    apply (leads_prefix _ _ _ _ post). rewrite <- Hpost.
    subst l. apply strip_leads. }
  rewrite Hstart. unfold trim_end at 1 2. rewrite rev_involutive, strip_idempotent.
  reflexivity.
Qed.

Lemma trim_keeps_chars c s :
  In c (list_ascii_of_string (trim s)) -> In c (list_ascii_of_string s).
Proof.
  rewrite trim_chars.
  destruct (trim_start_suffix (list_ascii_of_string s)) as (pre & Hpre).
  destruct (trim_end_prefix (trim_start (list_ascii_of_string s))) as (post & Hpost).
  intros Hin. rewrite Hpre. apply in_or_app. right.
  rewrite Hpost. apply in_or_app. left. exact Hin.
Qed.

Lemma trim_no_space s : starts_with_space (trim s) = false /\ ends_with_space (trim s) = false.
Proof.
  unfold starts_with_space, ends_with_space. rewrite trim_chars.
  set (l := trim_start (list_ascii_of_string s)). split.
  - destruct (trim_end_prefix l) as (post & Hpost).
    apply (leads_prefix _ _ _ _ post). rewrite <- Hpost. subst l. apply strip_leads.
  - unfold trim_end. rewrite rev_involutive. apply strip_leads.
Qed.

Lemma trim_fixed s :
  starts_with_space s = false -> ends_with_space s = false -> trim s = s.
Proof.
  unfold starts_with_space, ends_with_space, trim, trim_start, trim_end.
  intros Hstart Hend.
  rewrite (strip_fixed _ _ _ _ Hstart), (strip_fixed _ _ _ _ Hend), rev_involutive.
  apply string_of_list_ascii_of_string.
Qed.

Lemma split_nonempty sep s : split sep s <> [].
Proof.
  induction s as [ | c s IH]; cbn; [ discriminate | ].
  destruct (Ascii.eqb c sep); [ discriminate | ].
  destruct (split sep s); discriminate.
Qed.

Lemma split_free sep s :
  Forall (fun x => ~ In sep (list_ascii_of_string x)) (split sep s).
Proof.
  induction s as [ | c s IH]; cbn.
  - apply List.Forall_cons; [ intros [] | apply List.Forall_nil ].
  - destruct (Ascii.eqb c sep) eqn:E.
    + apply List.Forall_cons; [ intros [] | exact IH ].
    + destruct (split sep s) as [ | x r]; cbn.
      * apply List.Forall_cons; [ | apply List.Forall_nil ].
        cbn. intros [-> | []]. rewrite Ascii.eqb_refl in E. discriminate E.
      * inversion IH as [ | ? ? Hx Hr]; subst.
        apply List.Forall_cons; [ | exact Hr ].
        cbn. intros [-> | Hin]; [ | exact (Hx Hin) ].
        rewrite Ascii.eqb_refl in E. discriminate E.
Qed.

Lemma split_one sep x :
  ~ In sep (list_ascii_of_string x) -> split sep x = [x].
Proof.
  induction x as [ | c x IH]; cbn; [ reflexivity | ].
  intros H. destruct (Ascii.eqb c sep) eqn:E.
  - apply Ascii.eqb_eq in E. subst c. exfalso. apply H. left. reflexivity.
  - rewrite IH; [ reflexivity | intros Hin; apply H; right; exact Hin ].
Qed.

Lemma split_append sep x rest :
  ~ In sep (list_ascii_of_string x) ->
  split sep (x +:+ String sep rest) = x :: split sep rest.
Proof.
  induction x as [ | c x IH]; intros H.
  - rewrite append_nil_l. cbn. rewrite Ascii.eqb_refl. reflexivity.
  - rewrite append_cons. cbn. destruct (Ascii.eqb c sep) eqn:E.
    + apply Ascii.eqb_eq in E. subst c. exfalso. apply H. left. reflexivity.
    + rewrite IH; [ reflexivity | intros Hin; apply H; right; exact Hin ].
Qed.

Lemma split_join sep l :
  l <> [] ->
  Forall (fun x => ~ In sep (list_ascii_of_string x)) l ->
  split sep (join (String sep "") l) = l.
Proof.
  induction l as [ | x l IH]; intros Hne Hl; [ contradiction | ].
  inversion Hl as [ | ? ? Hx Hr]; subst.
  destruct l as [ | y l].
  - cbn. apply split_one, Hx.
  - change (join (String sep "") (x :: y :: l))
      with (x +:+ String sep "" +:+ join (String sep "") (y :: l)).
    rewrite append_cons, append_nil_l.
    rewrite (split_append sep x _ Hx), IH; [ reflexivity | discriminate | exact Hr ].
Qed.

Lemma listing_lines_names stdout : Forall shortcut_name (listing_lines stdout).
Proof.
  unfold listing_lines.
  pose proof (split_free LF stdout) as Hfree.
  induction (split LF stdout) as [ | x l IH]; cbn [List.filter List.map];
    [ apply List.Forall_nil | ].
  inversion Hfree as [ | ? ? Hx Hl]; subst.
  destruct (Nat.ltb 0 (String.length (trim x))) eqn:E; [ | exact (IH Hl) ].
  apply List.Forall_cons; [ | exact (IH Hl) ].
  destruct (trim_no_space x) as (Hstart & Hend).
  split; [ | split; [ exact Hstart | split; [ exact Hend | ] ] ].
  - intros H. rewrite H in E. discriminate E.
  - intros Hin. apply Hx, trim_keeps_chars, Hin.
Qed.

Lemma listing_lines_join l :
  Forall shortcut_name l -> listing_lines (join (String LF "") l) = l.
Proof.
  intros Hl. unfold listing_lines.
  destruct l as [ | x l]; [ reflexivity | ].
  rewrite split_join; [ | discriminate | ].
  - induction Hl as [ | y r (Hne & Hstart & Hend & _) _ IH]; [ reflexivity | ].
    cbn [List.filter List.map]. rewrite (trim_fixed y Hstart Hend), IH.
    destruct y as [ | c y]; [ contradiction | ]. reflexivity.
  - eapply List.Forall_impl; [ | exact Hl ]. intros y (_ & _ & _ & H). exact H.
Qed.

Lemma updateShortcutsList_run cap :
  Shortcuts.updateShortcutsList cap
  = (inr (match cap "shortcuts list" with
          | inl _ => []
          | inr stdout => listing_lines stdout
          end), ["shortcuts list"]).
Proof.
  unfold Shortcuts.updateShortcutsList, listing_lines. exec_unfold.
  destruct (cap "shortcuts list"); reflexivity.
Qed.

(** ** The shape of every answer *)

(** X1: whatever the request and the bot client, the Telegram handler
    either returns an envelope without error flag or throws a protocol
    error of code InternalError whose text starts with
    "Telegram API error: "; it never returns a flagged envelope, and no
    other code reaches the client. *)
Theorem telegram_outcomes request cap :
  (exists m, outcome (Telegram.CallTool request) cap
             = inl (McpError InternalError ("Telegram API error: " +:+ m)))
  \/ (exists s, outcome (Telegram.CallTool request) cap = inr (content_only s)).
Proof.
  unfold Telegram.CallTool. destruct request as [name args].
  cbn [Request.name Request.arguments].
  run_handler cap; try (left; eexists; reflexivity); right; eexists; reflexivity.
Qed.

(** X2: whatever the request and the vault, the Obsidian handler either
    returns an envelope without error flag or throws a protocol error; any
    other exception is wrapped before it leaves the handler. *)
Theorem obsidian_outcomes request cap :
  (exists c m, outcome (Obsidian.CallTool request) cap = inl (McpError c m))
  \/ (exists s, outcome (Obsidian.CallTool request) cap = inr (content_only s)).
Proof.
  unfold Obsidian.CallTool. destruct request as [name args].
  cbn [Request.name Request.arguments].
  run_handler_kinds cap;
    try (left; eexists; eexists; reflexivity); right; eexists; reflexivity.
Qed.

(** X3: the Supabase handler never throws: it returns a plain envelope or
    one flagged as an error whose text starts with "Error: ", and it sends
    at most one query to the database. *)
Theorem supabase_outcomes request cap :
  ((exists s, outcome (Supabase.CallTool request) cap = inr (content_only s))
   \/ (exists m, outcome (Supabase.CallTool request) cap
                 = inr (content_flag ("Error: " +:+ m) true)))
  /\ length (trace (Supabase.CallTool request) cap) <= 1.
Proof.
  unfold Supabase.CallTool, Supabase.apply_filters, Supabase.run.
  destruct request as [name args]. cbn [Request.name Request.arguments].
  run_handler cap;
    (split; [ first [ left; eexists; reflexivity | right; eexists; reflexivity ]
            | cbn; lia ]).
Qed.

(** X4: the Bluesky handler never throws and never sets the error flag:
    every answer, also of a failure, is an envelope of one text block; it
    makes at most one call on the agent. *)
Theorem bluesky_outcomes blueskyIdentifier request cap :
  (exists s, outcome (Bluesky.CallTool blueskyIdentifier request) cap
             = inr (content_only s))
  /\ length (trace (Bluesky.CallTool blueskyIdentifier request) cap) <= 1.
Proof.
  unfold Bluesky.CallTool. destruct request as [name args].
  cbn [Request.name Request.arguments].
  destruct args as [o | ]; [ | split; [ eexists; reflexivity | cbn; lia ] ].
  run_handler_kinds cap; (split; [ eexists; reflexivity | cbn; lia ]).
Qed.

(** X5: the Shortcuts handler never throws: it returns an envelope whose
    error flag is always set, runs at most one command, and leaves the
    stored list of shortcuts as it was unless the tool is
    [list_shortcuts]. *)
Theorem shortcuts_outcomes request availableShortcuts cap :
  exists text flag availableShortcuts',
    outcome (Shortcuts.CallTool request availableShortcuts) cap
    = inr (content_flag text flag, availableShortcuts')
    /\ (if String.eqb (Request.name request) "list_shortcuts" then True
        else availableShortcuts' = availableShortcuts)
    /\ length (trace (Shortcuts.CallTool request availableShortcuts) cap) <= 1.
Proof.
  unfold Shortcuts.CallTool, Shortcuts.handleToolCall, outcome, trace.
  destruct (String.eqb (Request.name request) "list_shortcuts").
  - unfold mbind, Exec_bind, bind. rewrite updateShortcutsList_run. cbn.
    eexists _, _, _. split; [ reflexivity | split; [ exact I | lia ] ].
  - destruct (String.eqb (Request.name request) "run_shortcut").
    + exec_unfold.
      match goal with
      | |- context [cap ?q] => destruct (cap q)
      end; cbn; eexists _, _, _; (split; [ reflexivity | split; [ reflexivity | lia ] ]).
    + cbn. eexists _, _, _. split; [ reflexivity | split; [ reflexivity | lia ] ].
Qed.

(** X6: the RSS handler either fetches the feed at the given URL, once,
    and returns an envelope (also when the fetch fails), or throws
    InvalidParams or MethodNotFound without fetching anything. *)
Theorem rss_outcomes Date_value toLowerCase request cap :
  (exists url r,
     opt_get "url" (Request.arguments request) = JStr url
     /\ Rss.CallTool Date_value toLowerCase request cap = (inr r, [Rss.parseURL url]))
  \/ (exists m,
        Rss.CallTool Date_value toLowerCase request cap
        = (inl (McpError InvalidParams m), []))
  \/ (exists m,
        Rss.CallTool Date_value toLowerCase request cap
        = (inl (McpError MethodNotFound m), [])).
Proof.
  unfold Rss.CallTool, Rss.handleFetchFeed, Rss.handleGetFeedItems.
  destruct request as [name args]. cbn [Request.name Request.arguments].
  destruct (String.eqb name "fetch_feed");
    [ | destruct (String.eqb name "get_feed_items") ];
    try (right; right; eexists; reflexivity);
    (destruct (opt_get "url" args) as [ | | | | url | | ];
     try (right; left; eexists; reflexivity)).
  - left. exists url. exec_unfold. cbn.
    destruct (cap (Rss.parseURL url)); eexists; split; reflexivity.
  - left. exists url. exec_unfold. cbn.
    destruct (cap (Rss.parseURL url)) as [e | feed]; cbn;
      [ eexists; split; reflexivity | ].
    pose proof (apply_filter_calls_nothing Date_value toLowerCase
                  (Rss.object_or_undefined (opt_get "filter" args))
                  (Rss.Feed.items feed) cap) as Hnone.
    unfold trace in Hnone.
    destruct (Rss.apply_filter Date_value toLowerCase _ _ cap) as [[e | items] t];
      cbn in Hnone; subst t; eexists; split; reflexivity.
Qed.

(** ** Requests without an arguments object *)

(** X7: a request that carries no arguments object reaches no backing
    capability in the Telegram, Obsidian, Supabase, RSS, Bluesky and
    simulator handlers, whatever its tool name; the Bluesky handler
    answers with the text of [{error: "No arguments provided"}], the
    simulator handler throws "Arguments are required". *)
Theorem no_arguments_no_call name blueskyIdentifier issues Date_value toLowerCase :
  let request := {| Request.name := name; Request.arguments := None |} in
  (forall cap, trace (Telegram.CallTool request) cap = [])
  /\ (forall cap, trace (Obsidian.CallTool request) cap = [])
  /\ (forall cap, trace (Supabase.CallTool request) cap = [])
  /\ (forall cap, trace (Rss.CallTool Date_value toLowerCase request) cap = [])
  /\ (forall cap,
        Bluesky.CallTool blueskyIdentifier request cap
        = (inr (content_only
                  (JSON_stringify (JObj [("error", JStr "No arguments provided")]) 0)),
           []))
  /\ (forall cap,
        IosSimulator.CallTool issues request cap
        = (inl (Error "Arguments are required"), [])).
Proof.
  cbn zeta.
  split; [ | split; [ | split; [ | split; [ | split ] ] ] ]; intros cap;
    try reflexivity.
  - unfold Telegram.CallTool. cbn [Request.name Request.arguments].
    switch_cases; reflexivity.
  - unfold Obsidian.CallTool. cbn [Request.name Request.arguments].
    switch_cases; reflexivity.
  - unfold Supabase.CallTool. cbn [Request.name Request.arguments].
    switch_cases; reflexivity.
  - unfold Rss.CallTool. cbn [Request.name Request.arguments].
    switch_cases; reflexivity.
Qed.

(** ** Start of the processes *)

Lemma env_missing_empty env name :
  env !! name = None \/ env !! name = Some "" -> env_missing env name = true.
Proof. intros [H | H]; unfold env_missing; rewrite H; reflexivity. Qed.

(** X8: a required variable that is set to the empty string counts as
    missing: the process ends at start as it does when the variable is
    unset.  The Bluesky process, with both variables set, still ends
    with status 1 when the login is rejected or is answered without a
    true [success].  (Only the checks of the start are modelled, so
    nothing is said of a start that passes them.) *)
Theorem unusable_configuration_fails_at_start env login :
  (env !! "TELEGRAM_BOT_TOKEN" = None \/ env !! "TELEGRAM_BOT_TOKEN" = Some "" ->
   Telegram.main env
   = Uncaught (Error "TELEGRAM_BOT_TOKEN environment variable is required"))
  /\ (env !! "OBSIDIAN_VAULT_PATH" = None \/ env !! "OBSIDIAN_VAULT_PATH" = Some "" ->
      Obsidian.main env
      = Uncaught (Error "OBSIDIAN_VAULT_PATH environment variable is required"))
  /\ ((env !! "SUPABASE_URL" = None \/ env !! "SUPABASE_URL" = Some "")
      \/ (env !! "SUPABASE_KEY" = None \/ env !! "SUPABASE_KEY" = Some "") ->
      Supabase.main env
      = Uncaught
          (Error "SUPABASE_URL and SUPABASE_KEY environment variables are required"))
  /\ ((env !! "BLUESKY_APP_KEY" = None \/ env !! "BLUESKY_APP_KEY" = Some "")
      \/ (env !! "BLUESKY_IDENTIFIER" = None \/ env !! "BLUESKY_IDENTIFIER" = Some "") ->
      Bluesky.main env login = Exit 1)
  /\ (forall key identifier,
        env !! "BLUESKY_APP_KEY" = Some key ->
        env !! "BLUESKY_IDENTIFIER" = Some identifier ->
        (exists e, login identifier key = inl e)
        \/ (exists response,
              login identifier key = inr response
              /\ truthy (prop "success" response) = false) ->
        Bluesky.main env login = Exit 1)
  /\ fails_at_start (Exit 1)
  /\ (forall e, fails_at_start (Uncaught e)).
Proof.
  split; [ | split; [ | split; [ | split; [ | split; [ | split ] ] ] ] ].
  - intros H. unfold Telegram.main. rewrite (env_missing_empty _ _ H). reflexivity.
  - intros H. unfold Obsidian.main. rewrite (env_missing_empty _ _ H). reflexivity.
  - intros [H | H]; unfold Supabase.main; rewrite (env_missing_empty _ _ H);
      rewrite ?orb_true_r; reflexivity.
  - intros [H | H]; unfold Bluesky.main; rewrite (env_missing_empty _ _ H);
      rewrite ?orb_true_r; reflexivity.
  - intros key identifier Hk Hi Hlogin. unfold Bluesky.main.
    destruct (env_missing env "BLUESKY_APP_KEY" || env_missing env "BLUESKY_IDENTIFIER");
      [ reflexivity | ].
    rewrite Hk, Hi. cbn.
    destruct Hlogin as [(e & He) | (response & Hr & Hs)].
    + rewrite He. reflexivity.
    + rewrite Hr, Hs. reflexivity.
  - apply exit_1_fails.
  - apply uncaught_fails.
Qed.

(** ** The feed reader *)

Lemma fetch_feed_run Date_value toLowerCase o url feed cap :
  get "url" o = JStr url ->
  cap (Rss.parseURL url) = inr feed ->
  Rss.CallTool Date_value toLowerCase
    {| Request.name := "fetch_feed"; Request.arguments := Some o |} cap
  = (inr (content_only
            (JSON_stringify
               (Rss.render_feed feed
                  (Rss.limit_or_10 (Rss.number_or_undefined (get "limit" o)))) 2)),
     [Rss.parseURL url]).
Proof.
  intros Hurl Hcap. unfold Rss.CallTool, Rss.handleFetchFeed.
  cbn [Request.name Request.arguments String.eqb Ascii.eqb Bool.eqb opt_get].
  rewrite Hurl. exec_unfold. cbn. rewrite Hcap. reflexivity.
Qed.

Lemma slice0_positive {A} (l : list A) n :
  (0 < n)%Z -> slice0 l n = take (Z.to_nat n) l.
Proof.
  intros Hn. unfold slice0.
  destruct (Z.ltb_spec n 0) as [H | _]; [ lia | ].
  destruct (Z.le_gt_cases n (Z.of_nat (length l))) as [Hle | Hgt].
  - rewrite Z.min_l by exact Hle. reflexivity.
  - rewrite Z.min_r by lia. rewrite Nat2Z.id.
    rewrite !firstn_all2; [ reflexivity | lia | lia ].
Qed.

Lemma slice0_negative {A} (l : list A) n :
  (n < 0)%Z -> slice0 l n = take (length l - Z.to_nat (- n)) l.
Proof.
  intros Hn. unfold slice0.
  destruct (Z.ltb_spec n 0) as [_ | H]; [ | lia ].
  f_equal. lia.
Qed.

(** X9: [fetch_feed] on a feed that was fetched returns the metadata of
    the feed with its first [limit] items when [limit] is a positive
    number (all of them when there are fewer), and with its first 10 items
    when [limit] is absent, zero or not a number. *)
Theorem fetch_feed_limit Date_value toLowerCase o url feed cap :
  get "url" o = JStr url ->
  cap (Rss.parseURL url) = inr feed ->
  (forall n, get "limit" o = JNum n -> (0 < n)%Z ->
     outcome (Rss.CallTool Date_value toLowerCase
                {| Request.name := "fetch_feed"; Request.arguments := Some o |}) cap
     = inr (content_only (JSON_stringify (feed_page feed (Z.to_nat n)) 2)))
  /\ ((forall n, get "limit" o = JNum n -> n = 0%Z) ->
      outcome (Rss.CallTool Date_value toLowerCase
                 {| Request.name := "fetch_feed"; Request.arguments := Some o |}) cap
      = inr (content_only (JSON_stringify (feed_page feed 10) 2))).
Proof.
  intros Hurl Hcap. unfold outcome.
  rewrite (fetch_feed_run _ _ _ _ _ _ Hurl Hcap).
  unfold Rss.render_feed, feed_page. cbn [fst]. split.
  - intros n Hl Hn. rewrite Hl. cbn [Rss.number_or_undefined Rss.limit_or_10].
    destruct (Z.eqb_spec n 0) as [H | _]; [ lia | ].
    rewrite (slice0_positive _ n Hn). reflexivity.
  - intros Hl.
    assert (Hten : Rss.limit_or_10 (Rss.number_or_undefined (get "limit" o)) = 10%Z).
    { destruct (get "limit" o) as [ | | | n | | | ]; try reflexivity.
      cbn. rewrite (Hl n eq_refl). reflexivity. }
    rewrite Hten, (slice0_positive _ 10%Z) by lia. reflexivity.
Qed.

Lemma fetch_feed_limit_witness :
  outcome (Rss.CallTool (fun _ => None) (fun s => s)
             {| Request.name := "fetch_feed";
                Request.arguments :=
                  Some [("url", JStr "https://example.org/feed.xml"); ("limit", JNum 2)] |})
          sample_parser
  = inr (content_only (JSON_stringify (feed_page sample_feed 2) 2)).
Proof.
  destruct (fetch_feed_limit (fun _ => None) (fun s => s)
              [("url", JStr "https://example.org/feed.xml"); ("limit", JNum 2)]
              "https://example.org/feed.xml" sample_feed sample_parser
              eq_refl eq_refl) as (Hpositive & _).
  apply (Hpositive 2%Z); [ reflexivity | lia ].
Defined.

(** X10: a negative [limit] is not refused, although the schema declares
    a minimum of 1: [fetch_feed] with [limit] equal to [-k] returns all
    items of the feed but the last [k]. *)
Theorem fetch_feed_negative_limit Date_value toLowerCase o url feed cap n :
  get "url" o = JStr url ->
  cap (Rss.parseURL url) = inr feed ->
  get "limit" o = JNum n ->
  (n < 0)%Z ->
  outcome (Rss.CallTool Date_value toLowerCase
             {| Request.name := "fetch_feed"; Request.arguments := Some o |}) cap
  = inr (content_only
           (JSON_stringify
              (feed_page feed (length (Rss.Feed.items feed) - Z.to_nat (- n))) 2)).
Proof.
  intros Hurl Hcap Hl Hn. unfold outcome.
  rewrite (fetch_feed_run _ _ _ _ _ _ Hurl Hcap).
  unfold Rss.render_feed, feed_page. cbn [fst].
  rewrite Hl. cbn [Rss.number_or_undefined Rss.limit_or_10].
  destruct (Z.eqb_spec n 0) as [H | _]; [ lia | ].
  rewrite (slice0_negative _ n Hn). reflexivity.
Qed.

Lemma fetch_feed_negative_limit_witness :
  outcome (Rss.CallTool (fun _ => None) (fun s => s)
             {| Request.name := "fetch_feed";
                Request.arguments :=
                  Some [("url", JStr "https://example.org/feed.xml"); ("limit", JNum (-1))] |})
          sample_parser
  = inr (content_only (JSON_stringify (feed_page sample_feed 2) 2)).
Proof.
  apply (fetch_feed_negative_limit (fun _ => None) (fun s => s)
           [("url", JStr "https://example.org/feed.xml"); ("limit", JNum (-1))]
           "https://example.org/feed.xml" sample_feed sample_parser (-1)%Z);
    [ reflexivity | reflexivity | reflexivity | lia ].
Defined.

Lemma filter_filter {A} (p q : A -> bool) l :
  List.filter p (List.filter q l) = List.filter (fun x => q x && p x) l.
Proof.
  induction l as [ | x l IH]; [ reflexivity | ].
  cbn. destruct (q x); cbn; [ destruct (p x) | ]; rewrite IH; reflexivity.
Qed.

Lemma filter_true {A} (l : list A) : List.filter (fun _ => true) l = l.
Proof. induction l as [ | x l IH]; [ reflexivity | cbn; rewrite IH; reflexivity ]. Qed.

Lemma filter_is_conjunction Date_value toLowerCase flt items cap :
  (truthy (prop "search" flt) = true -> exists s, prop "search" flt = JStr s) ->
  Rss.apply_filter Date_value toLowerCase flt items cap
  = (inr (List.filter (rss_passes Date_value toLowerCase flt) items), []).
Proof.
  intros Hsearch. unfold Rss.apply_filter.
  destruct (truthy flt) eqn:Hflt.
  - set (after := fun item =>
           negb (truthy (prop "after" flt))
           || Rss.date_gt Date_value (Rss.pub_date item) (prop "after" flt)).
    set (before := fun item =>
           negb (truthy (prop "before" flt))
           || Rss.date_gt Date_value (prop "before" flt) (Rss.pub_date item)).
    set (search := fun item =>
           match prop "search" flt with
           | JStr s => String.eqb s "" || Rss.matches toLowerCase (toLowerCase s) item
           | _ => true
           end).
    assert (Hpasses : List.filter (rss_passes Date_value toLowerCase flt) items
                      = List.filter search (List.filter before (List.filter after items))).
    { rewrite !filter_filter. apply List.filter_ext. intros item.
      rewrite andb_assoc. reflexivity. }
    rewrite Hpasses.
    assert (Hafter : (if truthy (prop "after" flt)
                      then List.filter
                             (fun item => Rss.date_gt Date_value (Rss.pub_date item)
                                            (prop "after" flt)) items
                      else items) = List.filter after items).
    { subst after. destruct (truthy (prop "after" flt)); cbn;
        [ reflexivity | rewrite filter_true; reflexivity ]. }
    rewrite Hafter.
    assert (Hbefore : (if truthy (prop "before" flt)
                       then List.filter
                              (fun item => Rss.date_gt Date_value (prop "before" flt)
                                             (Rss.pub_date item))
                              (List.filter after items)
                       else List.filter after items)
                      = List.filter before (List.filter after items)).
    { subst before. destruct (truthy (prop "before" flt)); cbn;
        [ reflexivity | rewrite filter_true; reflexivity ]. }
    rewrite Hbefore. subst search.
    destruct (truthy (prop "search" flt)) eqn:Hs.
    + destruct (Hsearch eq_refl) as (s & Es). rewrite Es in Hs |- *.
      cbn in Hs. apply negb_true_iff in Hs. rewrite Hs. reflexivity.
    + destruct (prop "search" flt) as [ | | | | s | | ];
        try (rewrite filter_true; reflexivity).
      cbn in Hs. apply negb_false_iff in Hs. rewrite Hs. cbn.
      rewrite filter_true. reflexivity.
  - assert (Hall : forall item, rss_passes Date_value toLowerCase flt item = true).
    { intros item. unfold rss_passes.
      destruct flt; try discriminate Hflt; reflexivity. }
    rewrite (List.filter_ext _ (fun _ => true) Hall), filter_true. reflexivity.
Qed.

Lemma get_feed_items_run Date_value toLowerCase o url feed cap :
  get "url" o = JStr url ->
  cap (Rss.parseURL url) = inr feed ->
  Rss.CallTool Date_value toLowerCase
    {| Request.name := "get_feed_items"; Request.arguments := Some o |} cap
  = (match Rss.apply_filter Date_value toLowerCase
             (Rss.object_or_undefined (get "filter" o)) (Rss.Feed.items feed) cap with
     | (inl e, _) =>
         inr (content_flag ("Failed to fetch feed items: " +:+ message e) true)
     | (inr items, _) =>
         inr (content_only
                (JSON_stringify
                   (JArr (List.map Rss.render_item
                            (slice0 items
                               (Rss.limit_or_10
                                  (Rss.number_or_undefined (get "limit" o)))))) 2))
     end, [Rss.parseURL url]).
Proof.
  intros Hurl Hcap. unfold Rss.CallTool, Rss.handleGetFeedItems.
  cbn [Request.name Request.arguments String.eqb Ascii.eqb Bool.eqb opt_get].
  rewrite Hurl. exec_unfold. cbn. rewrite Hcap.
  pose proof (apply_filter_calls_nothing Date_value toLowerCase
                (Rss.object_or_undefined (get "filter" o))
                (Rss.Feed.items feed) cap) as Hnone.
  destruct (Rss.apply_filter Date_value toLowerCase _ _ cap) as [[e | items] t];
    cbn in Hnone; subst t; reflexivity.
Qed.

(** ** A limit of zero *)

Lemma agree_except_set k v o : agree_except k ((k, v) :: o) o.
Proof.
  intros k' Hk. cbn. destruct (String.eqb_spec k' k); [ contradiction | reflexivity ].
Qed.

(** C10: for the tools of the RSS and Supabase adapters that take an
    optional [limit], an invocation with [limit] equal to 0 behaves as the
    same invocation without [limit], and as the same invocation with
    [limit] equal to 10 for the RSS tools.  On a feed that was fetched,
    [fetch_feed] then returns the first 10 items of the feed and
    [get_feed_items] the first 10 items that pass the filter, not zero
    items; [query_data] adds no limit to its query. *)
Theorem zero_limit_same_as_omitted
    (Date_value : value -> option Z) (toLowerCase : string -> string)
    (o0 o : object) :
  get "limit" o0 = JNum 0 ->
  get "limit" o = JUndefined ->
  agree_except "limit" o0 o ->
  (forall name cap,
      Rss.CallTool Date_value toLowerCase
        {| Request.name := name; Request.arguments := Some o0 |} cap
      = Rss.CallTool Date_value toLowerCase
          {| Request.name := name; Request.arguments := Some o |} cap)
  /\ (forall name cap o10,
         get "limit" o10 = JNum 10 -> agree_except "limit" o10 o ->
         Rss.CallTool Date_value toLowerCase
           {| Request.name := name; Request.arguments := Some o0 |} cap
         = Rss.CallTool Date_value toLowerCase
             {| Request.name := name; Request.arguments := Some o10 |} cap)
  /\ (forall url feed cap,
         get "url" o0 = JStr url -> cap (Rss.parseURL url) = inr feed ->
         outcome (Rss.CallTool Date_value toLowerCase
                    {| Request.name := "fetch_feed"; Request.arguments := Some o0 |}) cap
         = inr (content_only (JSON_stringify (feed_page feed 10) 2)))
  /\ (forall url feed cap,
         let flt := Rss.object_or_undefined (get "filter" o0) in
         get "url" o0 = JStr url -> cap (Rss.parseURL url) = inr feed ->
         (truthy (prop "search" flt) = true -> exists s, prop "search" flt = JStr s) ->
         outcome (Rss.CallTool Date_value toLowerCase
                    {| Request.name := "get_feed_items";
                       Request.arguments := Some o0 |}) cap
         = inr (content_only
                  (JSON_stringify
                     (JArr (List.map Rss.render_item
                              (take 10
                                 (List.filter (rss_passes Date_value toLowerCase flt)
                                    (Rss.Feed.items feed))))) 2)))
  /\ (forall name cap,
         Supabase.CallTool {| Request.name := name; Request.arguments := Some o0 |} cap
         = Supabase.CallTool {| Request.name := name; Request.arguments := Some o |} cap)
  /\ (forall cap c v,
         In c (trace (Supabase.CallTool
                        {| Request.name := "query_data";
                           Request.arguments := Some o0 |}) cap) ->
         ~ In (Supabase.limit_ v) c).
Proof.
  intros H0 H Hagree.
  split; [ | split; [ | split; [ | split; [ | split ] ] ] ].
  - intros name cap. apply rss_limit_irrelevant; [ | exact Hagree ].
    rewrite H0, H. reflexivity.
  - intros name cap o10 H10 Hagree10.
    transitivity (Rss.CallTool Date_value toLowerCase
                    {| Request.name := name; Request.arguments := Some o |} cap).
    + apply rss_limit_irrelevant; [ | exact Hagree ]. rewrite H0, H. reflexivity.
    + symmetry. apply rss_limit_irrelevant; [ | exact Hagree10 ].
      rewrite H10, H. reflexivity.
  - intros url feed cap Hurl Hcap. unfold outcome.
    rewrite (fetch_feed_run _ _ _ _ _ _ Hurl Hcap), H0.
    unfold Rss.render_feed, feed_page. cbn [fst Rss.number_or_undefined Rss.limit_or_10].
    change (0 =? 0)%Z with true. cbn iota.
    rewrite (slice0_positive _ 10%Z) by lia. reflexivity.
  - intros url feed cap flt Hurl Hcap Hsearch. unfold outcome.
    rewrite (get_feed_items_run _ _ _ _ _ _ Hurl Hcap), H0.
    fold flt.
    rewrite (filter_is_conjunction Date_value toLowerCase flt _ cap Hsearch).
    cbn [fst Rss.number_or_undefined Rss.limit_or_10].
    change (0 =? 0)%Z with true. cbn iota.
    rewrite (slice0_positive _ 10%Z) by lia. reflexivity.
  - intros name cap. apply supabase_falsy_limit_irrelevant; [ | | exact Hagree ].
    + rewrite H0. reflexivity.
    + rewrite H. reflexivity.
  - intros cap c v. apply supabase_query_without_limit. rewrite H0. reflexivity.
Qed.

Lemma zero_limit_same_as_omitted_witness :
  length (Rss.Feed.items long_feed) = 12
  /\ outcome (Rss.CallTool (fun _ => None) (fun s => s)
                {| Request.name := "fetch_feed";
                   Request.arguments := Some (("limit", JNum 0) :: sample_args) |})
             (fun _ => inr long_feed)
     = inr (content_only (JSON_stringify (feed_page long_feed 10) 2))
  /\ length (take 10 (Rss.Feed.items long_feed)) = 10
  /\ Rss.CallTool (fun _ => None) (fun s => s)
       {| Request.name := "fetch_feed";
          Request.arguments := Some (("limit", JNum 0) :: sample_args) |}
       (fun _ => inr long_feed)
     = Rss.CallTool (fun _ => None) (fun s => s)
         {| Request.name := "fetch_feed"; Request.arguments := Some sample_args |}
         (fun _ => inr long_feed).
Proof.
  destruct (zero_limit_same_as_omitted (fun _ => None) (fun s => s)
              (("limit", JNum 0) :: sample_args) sample_args
              eq_refl eq_refl (agree_except_set _ _ _))
    as (Hsame & _ & Hten & _).
  split; [ reflexivity | ].
  split; [ apply (Hten "https://example.org/feed.xml" long_feed); reflexivity | ].
  split; [ reflexivity | apply Hsame ].
Defined.

(** X11: [get_feed_items] with a filter object keeps the items that pass
    every criterion the filter gives ([after], [before], [search]), in the
    order of the feed, and only then cuts the result to [limit] items: the
    limit counts items that passed, not items of the feed. *)
Theorem get_feed_items_filters_then_limits Date_value toLowerCase o url feed flt cap :
  get "url" o = JStr url ->
  cap (Rss.parseURL url) = inr feed ->
  get "filter" o = JObj flt ->
  (truthy (get "search" flt) = true -> exists s, get "search" flt = JStr s) ->
  outcome (Rss.CallTool Date_value toLowerCase
             {| Request.name := "get_feed_items"; Request.arguments := Some o |}) cap
  = inr (content_only
           (JSON_stringify
              (JArr (List.map Rss.render_item
                       (slice0
                          (List.filter (rss_passes Date_value toLowerCase (JObj flt))
                             (Rss.Feed.items feed))
                          (Rss.limit_or_10
                             (Rss.number_or_undefined (get "limit" o)))))) 2)).
Proof.
  intros Hurl Hcap Hflt Hsearch. unfold outcome.
  rewrite (get_feed_items_run _ _ _ _ _ _ Hurl Hcap), Hflt.
  change (Rss.object_or_undefined (JObj flt)) with (JObj flt).
  rewrite (filter_is_conjunction Date_value toLowerCase (JObj flt) _ cap Hsearch).
  reflexivity.
Qed.

Lemma get_feed_items_filters_then_limits_witness :
  outcome (Rss.CallTool (fun _ => None) (fun s => s)
             {| Request.name := "get_feed_items";
                Request.arguments :=
                  Some [("url", JStr "https://example.org/feed.xml"); ("limit", JNum 2);
                        ("filter", JObj [("search", JStr "rust")])] |})
          sample_parser
  = inr (content_only
           (JSON_stringify
              (JArr [Rss.render_item (sample_item "rust 1.0" "release");
                     Rss.render_item (sample_item "tips" "more rust")]) 2)).
Proof.
  apply (get_feed_items_filters_then_limits (fun _ => None) (fun s => s)
           [("url", JStr "https://example.org/feed.xml"); ("limit", JNum 2);
            ("filter", JObj [("search", JStr "rust")])]
           "https://example.org/feed.xml" sample_feed [("search", JStr "rust")]
           sample_parser);
    [ reflexivity | reflexivity | reflexivity | ].
  intros _. exists "rust". reflexivity.
Defined.

Lemma apply_filter_not_object Date_value toLowerCase v items cap :
  (forall flt, v <> JObj flt) ->
  Rss.apply_filter Date_value toLowerCase (Rss.object_or_undefined v) items cap
  = (inr items, []).
Proof.
  intros Hv. destruct v as [ | | | | | | flt]; try reflexivity.
  exfalso. exact (Hv flt eq_refl).
Qed.

(** X12: a [filter] argument that is not an object (a string, a number,
    an array, [null]) filters nothing: the call behaves as the same call
    without [filter]. *)
Theorem filter_that_is_no_object_is_ignored Date_value toLowerCase o1 o2 cap :
  get "url" o1 = get "url" o2 ->
  get "limit" o1 = get "limit" o2 ->
  (forall flt, get "filter" o1 <> JObj flt) ->
  get "filter" o2 = JUndefined ->
  Rss.CallTool Date_value toLowerCase
    {| Request.name := "get_feed_items"; Request.arguments := Some o1 |} cap
  = Rss.CallTool Date_value toLowerCase
      {| Request.name := "get_feed_items"; Request.arguments := Some o2 |} cap.
Proof.
  intros Hurl Hlimit H1 H2.
  unfold Rss.CallTool, Rss.handleGetFeedItems.
  cbn [Request.name Request.arguments String.eqb Ascii.eqb Bool.eqb opt_get].
  rewrite <- Hurl, <- Hlimit.
  destruct (get "url" o1) as [ | | | | url | | ]; try reflexivity.
  exec_unfold. cbn. destruct (cap (Rss.parseURL url)) as [e | feed]; [ reflexivity | ].
  cbn. rewrite (apply_filter_not_object _ _ _ _ cap H1), H2. reflexivity.
Qed.

Lemma filter_that_is_no_object_is_ignored_witness :
  Rss.CallTool (fun _ => None) (fun s => s)
    {| Request.name := "get_feed_items";
       Request.arguments :=
         Some [("url", JStr "https://example.org/feed.xml"); ("filter", JStr "rust")] |}
    sample_parser
  = Rss.CallTool (fun _ => None) (fun s => s)
      {| Request.name := "get_feed_items";
         Request.arguments := Some [("url", JStr "https://example.org/feed.xml")] |}
      sample_parser.
Proof.
  apply (filter_that_is_no_object_is_ignored (fun _ => None) (fun s => s)
           [("url", JStr "https://example.org/feed.xml"); ("filter", JStr "rust")]
           [("url", JStr "https://example.org/feed.xml")] sample_parser);
    [ reflexivity | reflexivity | intros flt; discriminate | reflexivity ].
Defined.

(** X13: a [search] criterion that is truthy but not a string makes
    [get_feed_items] return an envelope flagged as an error, after the
    feed was fetched: the runtime error of [toLowerCase] is caught by the
    handler. *)
Theorem search_that_is_no_string_fails Date_value toLowerCase o url feed flt cap :
  get "url" o = JStr url ->
  cap (Rss.parseURL url) = inr feed ->
  get "filter" o = JObj flt ->
  truthy (get "search" flt) = true ->
  (forall s, get "search" flt <> JStr s) ->
  Rss.CallTool Date_value toLowerCase
    {| Request.name := "get_feed_items"; Request.arguments := Some o |} cap
  = (inr (content_flag
            "Failed to fetch feed items: args.filter.search.toLowerCase is not a function"
            true),
     [Rss.parseURL url]).
Proof.
  intros Hurl Hcap Hflt Htruthy Hs.
  rewrite (get_feed_items_run _ _ _ _ _ _ Hurl Hcap), Hflt.
  change (Rss.object_or_undefined (JObj flt)) with (JObj flt).
  unfold Rss.apply_filter. cbn [truthy prop]. rewrite Htruthy.
  destruct (get "search" flt) as [ | | | | s | | ]; try reflexivity.
  exfalso. exact (Hs s eq_refl).
Qed.
Lemma search_that_is_no_string_fails_witness :
  Rss.CallTool (fun _ => None) (fun s => s)
    {| Request.name := "get_feed_items";
       Request.arguments :=
         Some [("url", JStr "https://example.org/feed.xml");
               ("filter", JObj [("search", JNum 5)])] |}
    sample_parser
  = (inr (content_flag
            "Failed to fetch feed items: args.filter.search.toLowerCase is not a function"
            true),
     [Rss.parseURL "https://example.org/feed.xml"]).
Proof.
  apply (search_that_is_no_string_fails (fun _ => None) (fun s => s)
           [("url", JStr "https://example.org/feed.xml");
            ("filter", JObj [("search", JNum 5)])]
           "https://example.org/feed.xml" sample_feed [("search", JNum 5)] sample_parser);
    [ reflexivity | reflexivity | reflexivity | reflexivity | intros s; discriminate ].
Defined.

(** ** The database adapter *)

(** X14: [update_data] and [delete_data] called without [filters] (absent
    or [null]) send nothing to the database: listing the entries of the
    missing filters raises a runtime error, which the handler returns as
    a flagged envelope. *)
Theorem supabase_missing_filters_touch_nothing o cap :
  get "filters" o = JUndefined \/ get "filters" o = JNull ->
  Supabase.CallTool
    {| Request.name := "update_data"; Request.arguments := Some o |} cap
  = (inr (content_flag "Error: Cannot convert undefined or null to object" true), [])
  /\ Supabase.CallTool
       {| Request.name := "delete_data"; Request.arguments := Some o |} cap
     = (inr (content_flag "Error: Cannot convert undefined or null to object" true), []).
Proof.
  intros H. unfold Supabase.CallTool, Supabase.apply_filters.
  cbn [Request.name Request.arguments String.eqb Ascii.eqb Bool.eqb].
  exec_unfold. cbn. destruct H as [-> | ->]; split; reflexivity.
Qed.

Lemma supabase_missing_filters_touch_nothing_witness :
  Supabase.CallTool
    {| Request.name := "delete_data";
       Request.arguments := Some [("table", JStr "notes")] |} offline
  = (inr (content_flag "Error: Cannot convert undefined or null to object" true), []).
Proof.
  destruct (supabase_missing_filters_touch_nothing [("table", JStr "notes")] offline
              (or_introl eq_refl)) as (_ & Hdelete).
  exact Hdelete.
Defined.

(** X15: with a filter object, [query_data], [update_data] and
    [delete_data] send one query: the base steps, then one equality step
    per entry of the filter in the order the runtime lists the entries
    (array indices first, ascending, then the other names as written),
    then the limit (if truthy) or the final select.  An empty filter
    object adds no equality step, so the update or delete applies to
    every row of the table. *)
Theorem supabase_filters_become_eq_steps o filters cap :
  get "filters" o = JObj filters ->
  let eqs := List.map (fun kv => Supabase.eq_ (fst kv) (snd kv)) (ordered filters) in
  trace (Supabase.CallTool
           {| Request.name := "query_data"; Request.arguments := Some o |}) cap
  = [([Supabase.from_ (get "table" o); Supabase.select_ (get "select" o)] ++ eqs ++
      (if truthy (get "limit" o) then [Supabase.limit_ (get "limit" o)] else []))%list]
  /\ trace (Supabase.CallTool
              {| Request.name := "update_data"; Request.arguments := Some o |}) cap
     = [([Supabase.from_ (get "table" o); Supabase.update_ (get "data" o)] ++ eqs ++
         [Supabase.select_ JUndefined])%list]
  /\ trace (Supabase.CallTool
              {| Request.name := "delete_data"; Request.arguments := Some o |}) cap
     = [([Supabase.from_ (get "table" o); Supabase.delete_] ++ eqs ++
         [Supabase.select_ JUndefined])%list].
Proof.
  intros Hf eqs. subst eqs.
  unfold trace, Supabase.CallTool, Supabase.apply_filters, Supabase.run.
  cbn [Request.name Request.arguments String.eqb Ascii.eqb Bool.eqb].
  exec_unfold. cbn. rewrite Hf. cbn.
  split; [ destruct (truthy (get "limit" o)) | split ]; rewrite ?app_nil_r;
    match goal with |- context [cap ?q] => destruct (cap q) as [? | [? []]] end;
    reflexivity.
Qed.
Lemma supabase_filters_become_eq_steps_witness :
  trace (Supabase.CallTool
           {| Request.name := "delete_data";
              Request.arguments :=
                Some [("table", JStr "notes");
                      ("filters",
                        JObj [("owner", JStr "ann"); ("2", JNum 7); ("1", JNum 5)])] |})
        offline
  = [[Supabase.from_ (JStr "notes"); Supabase.delete_;
      Supabase.eq_ "1" (JNum 5); Supabase.eq_ "2" (JNum 7);
      Supabase.eq_ "owner" (JStr "ann");
      Supabase.select_ JUndefined]].
Proof.
  destruct (supabase_filters_become_eq_steps
              [("table", JStr "notes");
               ("filters", JObj [("owner", JStr "ann"); ("2", JNum 7); ("1", JNum 5)])]
              [("owner", JStr "ann"); ("2", JNum 7); ("1", JNum 5)] offline eq_refl)
    as (_ & _ & Hdelete).
  exact Hdelete.
Defined.

(** ** The Bluesky adapter *)

(** X16: the two search tools of the Bluesky adapter make no call on the
    agent when [query] is absent or falsy (an empty string, 0, [null]):
    they answer with the text of
    [{error: "Missing required argument: query"}], in an envelope without
    error flag. *)
Theorem bluesky_search_needs_query blueskyIdentifier o cap :
  truthy (get "query" o) = false ->
  Bluesky.CallTool blueskyIdentifier
    {| Request.name := "bluesky_search_posts"; Request.arguments := Some o |} cap
  = (inr (content_only
            (JSON_stringify
               (JObj [("error", JStr "Missing required argument: query")]) 0)), [])
  /\ Bluesky.CallTool blueskyIdentifier
       {| Request.name := "bluesky_search_profiles"; Request.arguments := Some o |} cap
     = (inr (content_only
               (JSON_stringify
                  (JObj [("error", JStr "Missing required argument: query")]) 0)), []).
Proof.
  intros Hq. unfold Bluesky.CallTool.
  cbn [Request.name Request.arguments String.eqb Ascii.eqb Bool.eqb].
  rewrite Hq. split; reflexivity.
Qed.

Lemma bluesky_search_needs_query_witness :
  Bluesky.CallTool "alice.bsky.social"
    {| Request.name := "bluesky_search_posts";
       Request.arguments := Some [("query", JStr "")] |} sample_agent
  = (inr (content_only
            (JSON_stringify
               (JObj [("error", JStr "Missing required argument: query")]) 0)), []).
Proof.
  destruct (bluesky_search_needs_query "alice.bsky.social" [("query", JStr "")]
              sample_agent eq_refl) as (Hposts & _).
  exact Hposts.
Defined.

(** X17: when a call on the agent is rejected with an error object, the
    text the Bluesky handler returns is JSON that parses back to an
    object whose one property [error] holds the message of the
    rejection. *)
Theorem bluesky_failure_reads_back blueskyIdentifier request cap e :
  rejected (Bluesky.CallTool blueskyIdentifier request) cap e ->
  instanceof_Error e = true ->
  exists text,
    outcome (Bluesky.CallTool blueskyIdentifier request) cap
    = inr (content_only (Some text))
    /\ JSON_parse text = Some (JObj [("error", JStr (message e))]).
Proof.
  intros Hrej He. rewrite (bluesky_failure _ _ _ _ Hrej), He.
  destruct (JSON_parse_stringify (JObj [("error", JStr (message e))]) 0 eq_refl)
    as (text & -> & Hparse).
  exists text. split; [ reflexivity | exact Hparse ].
Qed.

Lemma bluesky_failure_reads_back_witness :
  exists text,
    outcome (Bluesky.CallTool "alice.bsky.social"
               {| Request.name := "bluesky_get_profile"; Request.arguments := Some [] |})
            offline
    = inr (content_only (Some text))
    /\ JSON_parse text = Some (JObj [("error", JStr "connect ETIMEDOUT")]).
Proof.
  apply (bluesky_failure_reads_back "alice.bsky.social"
           {| Request.name := "bluesky_get_profile"; Request.arguments := Some [] |}
           offline (Error "connect ETIMEDOUT")); [ | reflexivity ].
  exists (Bluesky.getProfile "alice.bsky.social").
  split; [ left; reflexivity | reflexivity ].
Defined.

(** ** The Shortcuts adapter *)

(** X18: the list the adapter stores is empty when the listing command
    fails, and otherwise holds the lines of its output, trimmed, that are
    not empty.  Whatever the command prints, every stored name is not
    empty, has no white space or line terminator at either end (those
    that [trim] removes, the ones outside ASCII included) and no line
    feed inside. *)
Theorem stored_shortcuts_are_names cap :
  exists lines,
    Shortcuts.updateShortcutsList cap = (inr lines, ["shortcuts list"])
    /\ Forall shortcut_name lines
    /\ (forall e, cap "shortcuts list" = inl e -> lines = [])
    /\ (forall stdout,
          cap "shortcuts list" = inr stdout ->
          lines = List.filter (fun line => negb (String.eqb line ""))
                    (List.map trim (split LF stdout))).
Proof.
  rewrite updateShortcutsList_run. eexists. split; [ reflexivity | ].
  destruct (cap "shortcuts list") as [e | stdout].
  - split; [ apply List.Forall_nil | ].
    split; [ reflexivity | intros stdout H; discriminate H ].
  - split; [ apply listing_lines_names | ].
    split; [ intros e H; discriminate H | ].
    intros stdout' [= <-]. unfold listing_lines. apply List.filter_ext.
    intros [ | c line]; reflexivity.
Qed.

(** X19: the text served for the resource [shortcuts://list] determines
    the stored list: a listing command that prints exactly that text
    makes the adapter store the same names again. *)
Theorem listing_reads_back cap cap' availableShortcuts text lines :
  outcome (Shortcuts.ReadResource "shortcuts://list" availableShortcuts) cap
  = inr (text, lines) ->
  cap' "shortcuts list" = inr text ->
  outcome Shortcuts.updateShortcutsList cap' = inr lines.
Proof.
  unfold outcome, Shortcuts.ReadResource.
  cbn [String.eqb Ascii.eqb Bool.eqb]. unfold mbind, Exec_bind, bind.
  rewrite updateShortcutsList_run. cbn. intros [= <- <-] Hcap'.
  rewrite updateShortcutsList_run, Hcap'. cbn.
  rewrite listing_lines_join; [ reflexivity | ].
  destruct (cap "shortcuts list");
    [ apply List.Forall_nil | apply listing_lines_names ].
Qed.

Lemma listing_reads_back_witness :
  outcome Shortcuts.updateShortcutsList
    (fun _ => inr ("Morning" +:+ String LF "Timer"))
  = inr ["Morning"; "Timer"].
Proof.
  apply (listing_reads_back sample_shortcuts
           (fun _ => inr ("Morning" +:+ String LF "Timer")) []
           ("Morning" +:+ String LF "Timer") ["Morning"; "Timer"]);
    reflexivity.
Defined.

(** X20: the tool [list_shortcuts] and the resource [shortcuts://list]
    agree: both run the listing command once, store the same names, and
    the text of the tool is the text of the resource after the line
    "Available shortcuts:". *)
Theorem list_shortcuts_matches_resource cap args availableShortcuts availableShortcuts' :
  exists lines,
    Shortcuts.ReadResource "shortcuts://list" availableShortcuts cap
    = (inr (join (String LF "") lines, lines), ["shortcuts list"])
    /\ Shortcuts.handleToolCall "list_shortcuts" args availableShortcuts' cap
       = (inr (content_flag
                 ("Available shortcuts:" +:+ String LF (join (String LF "") lines))
                 false, lines),
          ["shortcuts list"]).
Proof.
  unfold Shortcuts.ReadResource, Shortcuts.handleToolCall.
  cbn [String.eqb Ascii.eqb Bool.eqb]. unfold mbind, Exec_bind, bind.
  rewrite updateShortcutsList_run. eexists. split; reflexivity.
Qed.

(** X21: [run_shortcut] does not check its [name]: called without one
    (and without a truthy [input]) it runs the command for the shortcut
    called "undefined". *)
Theorem run_shortcut_without_name request availableShortcuts cap :
  Request.name request = "run_shortcut" ->
  opt_get "name" (Request.arguments request) = JUndefined ->
  truthy (opt_get "input" (Request.arguments request)) = false ->
  trace (Shortcuts.CallTool request availableShortcuts) cap
  = ["shortcuts run " +:+ Shortcuts.quoted "undefined"].
Proof.
  destruct request as [name args]. cbn [Request.name Request.arguments].
  intros -> Hname Hinput.
  unfold Shortcuts.CallTool, Shortcuts.handleToolCall, trace.
  cbn [Request.name Request.arguments String.eqb Ascii.eqb Bool.eqb].
  assert (Hn : get "name" (default [] args) = JUndefined)
    by (destruct args; [ exact Hname | reflexivity ]).
  assert (Hi : truthy (get "input" (default [] args)) = false)
    by (destruct args; [ exact Hinput | reflexivity ]).
  rewrite Hn, Hi. exec_unfold. cbn [ToString].
  match goal with
  | |- context [cap ?q] => destruct (cap q)
  end; reflexivity.
Qed.
Lemma run_shortcut_without_name_witness :
  trace (Shortcuts.CallTool
           {| Request.name := "run_shortcut"; Request.arguments := None |} [])
        offline
  = ["shortcuts run " +:+ Shortcuts.quoted "undefined"].
Proof.
  apply (run_shortcut_without_name
           {| Request.name := "run_shortcut"; Request.arguments := None |} [] offline);
    reflexivity.
Defined.

(** ** The simulator server *)

Lemma parse_follows_guards issues o :
  IosSimulator.parse issues IosSimulator.BootSimulatorSchema o
  = (if SimulatorTypes.isSimulatorBootOptions (JObj o)
     then inr [("deviceId", get "deviceId" o)]
     else inl (ZodError (issues IosSimulator.BootSimulatorSchema o)))
  /\ IosSimulator.parse issues IosSimulator.ShutdownSimulatorSchema o
     = (if SimulatorTypes.isSimulatorBootOptions (JObj o)
        then inr [("deviceId", get "deviceId" o)]
        else inl (ZodError (issues IosSimulator.ShutdownSimulatorSchema o)))
  /\ IosSimulator.parse issues IosSimulator.InstallAppSchema o
     = (if SimulatorTypes.isAppInstallOptions (JObj o)
        then inr [("deviceId", get "deviceId" o); ("appPath", get "appPath" o)]
        else inl (ZodError (issues IosSimulator.InstallAppSchema o)))
  /\ IosSimulator.parse issues IosSimulator.LaunchAppSchema o
     = (if SimulatorTypes.isAppLaunchOptions (JObj o)
        then inr [("deviceId", get "deviceId" o); ("bundleId", get "bundleId" o)]
        else inl (ZodError (issues IosSimulator.LaunchAppSchema o))).
Proof.
  unfold IosSimulator.parse, SimulatorTypes.isSimulatorBootOptions,
    SimulatorTypes.isAppInstallOptions, SimulatorTypes.isAppLaunchOptions,
    SimulatorTypes.is_object.
  cbn.
  destruct (get "deviceId" o), (get "appPath" o), (get "bundleId" o); cbn; auto.
Qed.

(** X22: the type guards and the schemas of the simulator server accept
    the same argument objects: the schema of [boot_simulator] and of
    [shutdown_simulator] parses an object exactly when
    [isSimulatorBootOptions] holds of it, that of [install_app] exactly
    when [isAppInstallOptions] does, that of [launch_app] exactly when
    [isAppLaunchOptions] does; and a guard holds of objects only. *)
Theorem guards_agree_with_schemas issues o :
  (SimulatorTypes.isSimulatorBootOptions (JObj o) = true
   <-> exists args, IosSimulator.parse issues IosSimulator.BootSimulatorSchema o
                    = inr args)
  /\ (SimulatorTypes.isSimulatorBootOptions (JObj o) = true
      <-> exists args, IosSimulator.parse issues IosSimulator.ShutdownSimulatorSchema o
                       = inr args)
  /\ (SimulatorTypes.isAppInstallOptions (JObj o) = true
      <-> exists args, IosSimulator.parse issues IosSimulator.InstallAppSchema o
                       = inr args)
  /\ (SimulatorTypes.isAppLaunchOptions (JObj o) = true
      <-> exists args, IosSimulator.parse issues IosSimulator.LaunchAppSchema o
                       = inr args)
  /\ (forall v,
        SimulatorTypes.isSimulatorBootOptions v
        || SimulatorTypes.isAppInstallOptions v
        || SimulatorTypes.isAppLaunchOptions v = true ->
        exists o', v = JObj o' /\ typeof (get "deviceId" o') = "string").
Proof.
  destruct (parse_follows_guards issues o) as (Hboot & Hshut & Hinstall & Hlaunch).
  rewrite Hboot, Hshut, Hinstall, Hlaunch.
  split; [ | split; [ | split; [ | split ] ] ].
  - destruct (SimulatorTypes.isSimulatorBootOptions (JObj o));
      (split; [ intros H; first [ discriminate H | eauto ]
              | intros (args & H); first [ reflexivity | discriminate H ] ]).
  - destruct (SimulatorTypes.isSimulatorBootOptions (JObj o));
      (split; [ intros H; first [ discriminate H | eauto ]
              | intros (args & H); first [ reflexivity | discriminate H ] ]).
  - destruct (SimulatorTypes.isAppInstallOptions (JObj o));
      (split; [ intros H; first [ discriminate H | eauto ]
              | intros (args & H); first [ reflexivity | discriminate H ] ]).
  - destruct (SimulatorTypes.isAppLaunchOptions (JObj o));
      (split; [ intros H; first [ discriminate H | eauto ]
              | intros (args & H); first [ reflexivity | discriminate H ] ]).
  - intros v. unfold SimulatorTypes.isSimulatorBootOptions,
      SimulatorTypes.isAppInstallOptions, SimulatorTypes.isAppLaunchOptions,
      SimulatorTypes.is_object.
    destruct v as [ | | | | | | o']; cbn; try discriminate.
    intros H. exists o'. split; [ reflexivity | ].
    destruct (get "deviceId" o'); cbn in H |- *; try discriminate H; reflexivity.
Qed.

(** Case analysis on the answers of the command runner. *)
Ltac run_service exec :=
  exec_unfold;
  lazy beta iota zeta delta
    [SimulatorService.perform SimulatorService.bootDevice
     SimulatorService.shutdownDevice SimulatorService.installApp
     SimulatorService.launchApp mbind Exec_bind bind await mret Exec_ret ret
     fst snd];
  cbn;
  repeat match goal with
         | |- context [exec ?q] =>
             let E := fresh "E" in destruct (exec q) as [[] | ] eqn:E; rewrite ?E
         | _ => progress cbn
         end.

(** X23: arguments that fail the type guard of a tool run no command:
    the simulator server throws "Invalid arguments: " followed by the
    issues of the schema, and the service is never reached. *)
Theorem ios_invalid_arguments_run_nothing issues parse_other o exec :
  (SimulatorTypes.isSimulatorBootOptions (JObj o) = false ->
   IosServer issues parse_other
     {| Request.name := "boot_simulator"; Request.arguments := Some o |} exec
   = (inl (Error ("Invalid arguments: " +:+ issues IosSimulator.BootSimulatorSchema o)), [])
   /\ IosServer issues parse_other
        {| Request.name := "shutdown_simulator"; Request.arguments := Some o |} exec
      = (inl (Error ("Invalid arguments: "
                     +:+ issues IosSimulator.ShutdownSimulatorSchema o)), []))
  /\ (SimulatorTypes.isAppInstallOptions (JObj o) = false ->
      IosServer issues parse_other
        {| Request.name := "install_app"; Request.arguments := Some o |} exec
      = (inl (Error ("Invalid arguments: " +:+ issues IosSimulator.InstallAppSchema o)), []))
  /\ (SimulatorTypes.isAppLaunchOptions (JObj o) = false ->
      IosServer issues parse_other
        {| Request.name := "launch_app"; Request.arguments := Some o |} exec
      = (inl (Error ("Invalid arguments: " +:+ issues IosSimulator.LaunchAppSchema o)), [])).
Proof.
  destruct (parse_follows_guards issues o) as (Hboot & Hshut & Hinstall & Hlaunch).
  unfold IosServer, link, IosSimulator.CallTool.
  cbn [Request.name Request.arguments String.eqb Ascii.eqb Bool.eqb].
  rewrite Hboot, Hshut, Hinstall, Hlaunch.
  split; [ | split ]; intros ->; try split; reflexivity.
Qed.

(** X24: arguments that pass the guard run exactly one command, the
    [xcrun simctl] line with the strings of the arguments put in as they
    are (the application path alone between double quotes); the call
    succeeds when the command does, and throws what the command was
    rejected with otherwise. *)
Theorem ios_valid_arguments_run_one_command issues parse_other deviceId other o exec :
  let relabel := fun r : exn + string =>
    match r with
    | inl e => inl (if instanceof_ZodError e
                    then Error ("Invalid arguments: " +:+ message e) else e)
    | inr _ => inr IosSimulator.success
    end in
  get "deviceId" o = JStr deviceId ->
  (IosServer issues parse_other
     {| Request.name := "boot_simulator"; Request.arguments := Some o |} exec
   = (relabel (exec ("xcrun simctl boot " +:+ deviceId)),
      ["xcrun simctl boot " +:+ deviceId])
   /\ IosServer issues parse_other
        {| Request.name := "shutdown_simulator"; Request.arguments := Some o |} exec
      = (relabel (exec ("xcrun simctl shutdown " +:+ deviceId)),
         ["xcrun simctl shutdown " +:+ deviceId]))
  /\ (get "appPath" o = JStr other ->
      IosServer issues parse_other
        {| Request.name := "install_app"; Request.arguments := Some o |} exec
      = (relabel (exec ("xcrun simctl install " +:+ deviceId +:+ " "
                        +:+ String dquote (other +:+ String dquote ""))),
         ["xcrun simctl install " +:+ deviceId +:+ " "
          +:+ String dquote (other +:+ String dquote "")]))
  /\ (get "bundleId" o = JStr other ->
      IosServer issues parse_other
        {| Request.name := "launch_app"; Request.arguments := Some o |} exec
      = (relabel (exec ("xcrun simctl launch " +:+ deviceId +:+ " " +:+ other)),
         ["xcrun simctl launch " +:+ deviceId +:+ " " +:+ other])).
Proof.
  intros relabel Hd. subst relabel.
  unfold IosServer, link, IosSimulator.CallTool, IosSimulator.parse,
    IosSimulator.str_field.
  cbn [Request.name Request.arguments String.eqb Ascii.eqb Bool.eqb].
  split; [ split | split; intros Ho ]; cbn; rewrite Hd; try rewrite Ho; cbn.
  all: run_service exec; reflexivity.
Qed.

Lemma ios_valid_arguments_run_one_command_witness :
  IosServer sample_issues sample_parse_other
    {| Request.name := "install_app";
       Request.arguments :=
         Some [("deviceId", JStr "A1"); ("appPath", JStr "/tmp/My App.app")] |}
    sample_simctl
  = (inr IosSimulator.success,
     ["xcrun simctl install A1 " +:+ String dquote ("/tmp/My App.app" +:+ String dquote "")]).
Proof.
  destruct (ios_valid_arguments_run_one_command sample_issues sample_parse_other
              "A1" "/tmp/My App.app"
              [("deviceId", JStr "A1"); ("appPath", JStr "/tmp/My App.app")]
              sample_simctl eq_refl) as (_ & Hinstall & _).
  exact (Hinstall eq_refl).
Defined.

(** *** The listing of the devices *)












Lemma listDevices_unreadable parse_other exec :
  (forall e, exec "xcrun simctl list devices --json" = inl e ->
             SimulatorService.listDevices parse_other exec
             = (inl e, ["xcrun simctl list devices --json"]))
  /\ (forall stdout e, exec "xcrun simctl list devices --json" = inr stdout ->
                       SimulatorService.parse parse_other stdout = inl e ->
                       SimulatorService.listDevices parse_other exec
                       = (inl e, ["xcrun simctl list devices --json"])).
Proof.
  unfold SimulatorService.listDevices. exec_unfold.
  split; [ intros e -> | intros stdout e -> -> ]; reflexivity.
Qed.

Lemma replace_unfold pattern replacement s :
  replace pattern replacement s
  = match strip_prefix pattern s with
    | Some rest => replacement +:+ rest
    | None =>
        match s with
        | "" => ""
        | String c s' => String c (replace pattern replacement s')
        end
    end.
Proof. destruct s; reflexivity. Qed.

Lemma strip_prefix_append p s : strip_prefix p (p +:+ s) = Some s.
Proof.
  induction p as [ | a p IH]; [ destruct s; reflexivity | ].
  rewrite append_cons. cbn. rewrite Ascii.eqb_refl. exact IH.
Qed.

Lemma strip_prefix_none p s : String.prefix p s = false -> strip_prefix p s = None.
Proof.
  revert s. induction p as [ | a p IH]; intros s;
    [ destruct s; discriminate | ].
  destruct s as [ | b s]; [ reflexivity | ].
  cbn -[Ascii.ascii_dec]. destruct (Ascii.ascii_dec a b) as [-> | Hab].
  - rewrite Ascii.eqb_refl. apply IH.
  - intros _. apply Ascii.eqb_neq in Hab. rewrite Hab. reflexivity.
Qed.

Lemma replace_absent p r s : includes p s = false -> replace p r s = s.
Proof.
  induction s as [ | c s IH]; intros H; rewrite replace_unfold;
    cbn [includes] in H; apply orb_false_iff in H as [Hp Hs];
    rewrite (strip_prefix_none _ _ Hp).
  - reflexivity.
  - rewrite (IH Hs). reflexivity.
Qed.

Lemma runtime_prefix_removed s device :
  prop "runtime" (device_record ("com.apple.CoreSimulator.SimRuntime." +:+ s) device)
  = JStr s
  /\ (includes "com.apple.CoreSimulator.SimRuntime." s = false ->
      prop "runtime" (device_record s device) = JStr s).
Proof.
  unfold device_record. cbn [prop get String.eqb Ascii.eqb Bool.eqb]. split.
  - rewrite replace_unfold, strip_prefix_append. reflexivity.
  - intros H. rewrite (replace_absent _ _ _ H). reflexivity.
Qed.

(** ** The vault of notes *)

Section Vault_properties.
Variable VAULT_PATH_STRING : string.
Variable path_join : string -> string -> string.
Variable path_relative : string -> string -> string.
Variable path_basename : string -> string -> string.
Variable matter : string -> exn + value * string.
Variable toLowerCase : string -> string.
Variable query : string.
Variable cap : Vault.call -> exn + Vault.reply.

Local Abbreviation readNote :=
  (Vault.readNote VAULT_PATH_STRING path_join path_basename matter).
Local Abbreviation visit :=
  (Vault.visit VAULT_PATH_STRING path_join path_relative path_basename matter
     toLowerCase).
Local Abbreviation searchRecursive :=
  (Vault.searchRecursive VAULT_PATH_STRING path_join path_relative path_basename
     matter toLowerCase).
Local Abbreviation matches := (Vault.matches toLowerCase).

Lemma bind_run {call resp A B} (m : Exec call resp A) (k : A -> Exec call resp B) c :
  (x ← m; k x) c
  = match m c with
    | (inl e, t) => (inl e, t)
    | (inr a, t) => let '(r, t') := k a c in (r, (t ++ t')%list)
    end.
Proof. reflexivity. Qed.

Lemma readNote_run notePath :
  readNote notePath cap
  = (match cap (Vault.readFile (path_join VAULT_PATH_STRING notePath)) with
     | inl e => inl e
     | inr file =>
         match matter (Vault.text file) with
         | inl e => inl e
         | inr parsed =>
             inr {| Vault.title := path_basename notePath ".md";
                    Vault.content := snd parsed;
                    Vault.path := notePath;
                    Vault.frontmatter := fst parsed |}
         end
     end,
     [Vault.readFile (path_join VAULT_PATH_STRING notePath)]).
Proof.
  unfold Vault.readNote. exec_unfold.
  destruct (cap _) as [e | file]; [ reflexivity | ].
  destruct (matter (Vault.text file)); reflexivity.
Qed.

(** *** What a search returns *)

Lemma visit_found recurse dir :
  (forall d notes, found_from toLowerCase query notes (recurse d notes cap)) ->
  forall entries notes, found_from toLowerCase query notes (visit recurse query dir entries notes cap).
Proof.
  intros Hrec. induction entries as [ | entry entries IH]; intros notes.
  - exists []. rewrite app_nil_r. split; [ reflexivity | apply List.Forall_nil ].
  - cbn [Vault.visit]. destruct (Vault.kind_of entry).
    + destruct (endsWith ".md" (Vault.name entry)); [ | apply IH ].
      rewrite bind_run, readNote_run.
      destruct (cap (Vault.readFile _)) as [e | file]; [ exact I | ].
      destruct (matter (Vault.text file)) as [e | parsed]; [ exact I | ].
      match goal with
      | |- context [visit recurse query dir entries ?acc cap] =>
          specialize (IH acc);
          destruct (visit recurse query dir entries acc cap) as [[e | [notes' | ]] t]
      end; try exact I.
      unfold found_from in IH |- *. cbn [fst] in IH |- *.
      destruct IH as (new & -> & Hnew).
      match goal with
      | |- context [matches query ?note] => destruct (matches query note) eqn:Hm
      end.
      * eexists (_ :: new). rewrite <- app_assoc. split; [ reflexivity | ].
        apply List.Forall_cons; [ exact Hm | exact Hnew ].
      * exists new. split; [ reflexivity | exact Hnew ].
    + rewrite bind_run.
      specialize (Hrec (path_join dir (Vault.name entry)) notes).
      destruct (recurse _ notes cap) as [[e | [notes' | ]] t]; try exact I.
      unfold found_from in Hrec. cbn [fst] in Hrec.
      destruct Hrec as (new & -> & Hnew).
      specialize (IH (notes ++ new)%list).
      destruct (visit recurse query dir entries _ cap) as [[e | [notes' | ]] t'];
        try exact I.
      unfold found_from in IH |- *. cbn [fst] in IH |- *.
      destruct IH as (new' & -> & Hnew').
      exists (new ++ new')%list. rewrite app_assoc. split; [ reflexivity | ].
      apply Forall_app. split; assumption.
    + apply IH.
Qed.

Lemma searchRecursive_found fuel :
  forall dir notes, found_from toLowerCase query notes (searchRecursive fuel query dir notes cap).
Proof.
  induction fuel as [ | fuel IH]; intros dir notes; [ exact I | ].
  cbn [Vault.searchRecursive]. rewrite bind_run. unfold await.
  destruct (cap (Vault.readdir dir)) as [e | listing]; [ exact I | ].
  pose proof (visit_found (searchRecursive fuel query) dir IH
                (Vault.entries listing) notes) as H.
  destruct (visit _ query dir (Vault.entries listing) notes cap) as [[e | [notes' | ]] t];
    try exact I.
  exact H.
Qed.


(** *** Failures end the search *)

Lemma trace_bind {call resp A B} (m : Exec call resp A) (k : A -> Exec call resp B)
    (c : call -> exn + resp) x :
  In x (trace (y ← m; k y) c) ->
  In x (trace m c) \/ exists a, outcome m c = inr a /\ In x (trace (k a) c).
Proof.
  unfold trace, outcome. rewrite bind_run.
  destruct (m c) as [[e | a] t]; cbn [fst snd]; [ auto | ].
  destruct (k a c) as [r t'] eqn:Ek. cbn [snd]. intros Hin.
  apply in_app_or in Hin as [Hin | Hin]; [ auto | ].
  right. exists a. rewrite Ek. auto.
Qed.

Lemma ends_on_bind {call resp A B} bad (m : Exec call resp A)
    (k : A -> Exec call resp B) (c : call -> exn + resp) :
  ends_on bad m c -> (forall a, ends_on bad (k a) c) -> ends_on bad (y ← m; k y) c.
Proof.
  intros Hm Hk x e Hin Hx.
  apply trace_bind in Hin as [Hin | (a & Ha & Hin)].
  - specialize (Hm x e Hin Hx). unfold outcome in *. rewrite bind_run.
    destruct (m c) as [[e' | a] t]; cbn [fst] in *; [ congruence | discriminate Hm ].
  - specialize (Hk a x e Hin Hx). unfold outcome in *. rewrite bind_run.
    destruct (m c) as [[e' | a'] t]; cbn [fst] in *; [ discriminate Ha | ].
    injection Ha as ->. destruct (k a c) as [r t']. exact Hk.
Qed.

Lemma ends_on_silent {call resp A} bad (m : Exec call resp A) (c : call -> exn + resp) :
  trace m c = [] -> ends_on bad m c.
Proof. intros H x e Hin. rewrite H in Hin. destruct Hin. Qed.

Local Abbreviation failure := (search_failure matter cap).

Lemma readdir_ends dir : ends_on failure (await (Vault.readdir dir)) cap.
Proof.
  intros x e [<- | []] [Hx | (file & (path & Hpath) & _)]; [ | discriminate Hpath ].
  unfold outcome, await. cbn [fst]. rewrite Hx. reflexivity.
Qed.

Lemma readNote_ends notePath : ends_on failure (readNote notePath) cap.
Proof.
  intros x e Hin Hx. unfold trace, outcome in *. rewrite readNote_run in *.
  cbn [fst snd] in *. destruct Hin as [<- | []].
  destruct Hx as [Hx | (file & _ & Hfile & Hmatter)].
  - rewrite Hx. reflexivity.
  - rewrite Hfile, Hmatter. reflexivity.
Qed.

Lemma visit_ends recurse dir :
  (forall d notes, ends_on failure (recurse d notes) cap) ->
  forall entries notes, ends_on failure (visit recurse query dir entries notes) cap.
Proof.
  intros Hrec. induction entries as [ | entry entries IH]; intros notes.
  - apply ends_on_silent. reflexivity.
  - cbn [Vault.visit]. destruct (Vault.kind_of entry).
    + destruct (endsWith ".md" (Vault.name entry)); [ | apply IH ].
      apply ends_on_bind; [ apply readNote_ends | intros note; apply IH ].
    + apply ends_on_bind; [ apply Hrec | ].
      intros [notes' | ]; [ apply IH | apply ends_on_silent; reflexivity ].
    + apply IH.
Qed.

Lemma searchRecursive_ends fuel :
  forall dir notes, ends_on failure (searchRecursive fuel query dir notes) cap.
Proof.
  induction fuel as [ | fuel IH]; intros dir notes.
  - apply ends_on_silent. reflexivity.
  - cbn [Vault.searchRecursive]. apply ends_on_bind; [ apply readdir_ends | ].
    intros listing. apply visit_ends. exact IH.
Qed.

(** *** What a search touches *)

Local Abbreviation access := (search_access VAULT_PATH_STRING path_join path_relative).

Lemma visit_access recurse dir :
  (forall d notes, Forall access (trace (recurse d notes) cap)) ->
  forall entries notes,
    Forall access (trace (visit recurse query dir entries notes) cap).
Proof.
  intros Hrec. induction entries as [ | entry entries IH]; intros notes.
  - apply List.Forall_nil.
  - apply List.Forall_forall. intros x Hin. cbn [Vault.visit] in Hin.
    destruct (Vault.kind_of entry).
    + destruct (endsWith ".md" (Vault.name entry)) eqn:Emd;
        [ | exact (proj1 (List.Forall_forall _ _) (IH notes) x Hin) ].
      apply trace_bind in Hin as [Hin | (note & _ & Hin)];
        [ | exact (proj1 (List.Forall_forall _ _) (IH _) x Hin) ].
      unfold trace in Hin. rewrite readNote_run in Hin.
      destruct Hin as [<- | []]. exists dir, (Vault.name entry).
      split; [ exact Emd | reflexivity ].
    + apply trace_bind in Hin as [Hin | ([notes' | ] & _ & Hin)].
      * exact (proj1 (List.Forall_forall _ _) (Hrec _ _) x Hin).
      * exact (proj1 (List.Forall_forall _ _) (IH _) x Hin).
      * destruct Hin.
    + exact (proj1 (List.Forall_forall _ _) (IH notes) x Hin).
Qed.

Lemma searchRecursive_access fuel :
  forall dir notes,
    Forall access (trace (searchRecursive fuel query dir notes) cap).
Proof.
  induction fuel as [ | fuel IH]; intros dir notes; [ apply List.Forall_nil | ].
  apply List.Forall_forall. intros x Hin. cbn [Vault.searchRecursive] in Hin.
  apply trace_bind in Hin as [[<- | []] | (listing & _ & Hin)]; [ exact I | ].
  exact (proj1 (List.Forall_forall _ _)
           (visit_access (searchRecursive fuel query) dir IH _ _) x Hin).
Qed.


(** *** The bound on the depth *)

Lemma visit_stable recurse1 recurse2 dir entries :
  Forall (fun entry =>
            Vault.kind_of entry = Vault.Directory ->
            forall notes,
              recurse1 (path_join dir (Vault.name entry)) notes cap
              = recurse2 (path_join dir (Vault.name entry)) notes cap
              /\ fst (recurse2 (path_join dir (Vault.name entry)) notes cap)
                 <> inr None) entries ->
  forall notes,
    visit recurse1 query dir entries notes cap
    = visit recurse2 query dir entries notes cap
    /\ fst (visit recurse2 query dir entries notes cap) <> inr None.
Proof.
  induction 1 as [ | entry entries Hentry _ IH]; intros notes.
  - split; [ reflexivity | discriminate ].
  - cbn [Vault.visit]. destruct (Vault.kind_of entry).
    + destruct (endsWith ".md" (Vault.name entry)); [ | apply IH ].
      rewrite !bind_run. destruct (readNote _ cap) as [[e | note] t].
      * split; [ reflexivity | discriminate ].
      * destruct (IH (if matches query note then (notes ++ [note])%list else notes))
          as (-> & Hsome).
        split; [ reflexivity | ].
        destruct (visit recurse2 query dir entries _ cap). exact Hsome.
    + rewrite !bind_run.
      destruct (Hentry eq_refl notes) as (-> & Hsome).
      destruct (recurse2 _ notes cap) as [[e | [notes' | ]] t].
      * split; [ reflexivity | discriminate ].
      * destruct (IH notes') as (-> & Hsome').
        split; [ reflexivity | ].
        destruct (visit recurse2 query dir entries notes' cap). exact Hsome'.
      * contradiction Hsome. reflexivity.
    + apply IH.
Qed.

Lemma searchRecursive_stable n :
  forall dir, shallow path_join cap n dir ->
  forall fuel notes, n <= fuel ->
    searchRecursive fuel query dir notes cap = searchRecursive n query dir notes cap
    /\ fst (searchRecursive n query dir notes cap) <> inr None.
Proof.
  induction n as [ | n IH]; intros dir Hshallow fuel notes Hfuel;
    [ destruct Hshallow | ].
  destruct fuel as [ | fuel]; [ lia | ].
  cbn [Vault.searchRecursive shallow] in *. rewrite !bind_run. unfold await.
  destruct (cap (Vault.readdir dir)) as [e | listing];
    [ split; [ reflexivity | discriminate ] | ].
  assert (Hentries :
    Forall (fun entry =>
              Vault.kind_of entry = Vault.Directory ->
              forall notes,
                searchRecursive fuel query (path_join dir (Vault.name entry)) notes cap
                = searchRecursive n query (path_join dir (Vault.name entry)) notes cap
                /\ fst (searchRecursive n query (path_join dir (Vault.name entry))
                          notes cap) <> inr None)
      (Vault.entries listing)).
  { eapply List.Forall_impl; [ | exact Hshallow ].
    intros entry Hentry Hkind notes'. apply IH; [ exact (Hentry Hkind) | lia ]. }
  destruct (visit_stable (searchRecursive fuel query) (searchRecursive n query) dir
              (Vault.entries listing) Hentries notes) as (-> & Hsome).
  split; [ reflexivity | ].
  destruct (visit (searchRecursive n query) query dir (Vault.entries listing) notes cap).
  exact Hsome.
Qed.

Local Abbreviation searchNotes :=
  (Vault.searchNotes VAULT_PATH_STRING path_join path_relative path_basename
     matter toLowerCase).

(** X27: over a vault whose directories nest to a depth of at most [n],
    the search does not depend on the bound on the recursion once that is
    at least [n]; it then either rejects or returns notes each of which
    contains the query, letter case apart, in its content or in its
    title. *)
Theorem search_returns_matches n fuel :
  shallow path_join cap n VAULT_PATH_STRING ->
  n <= fuel ->
  searchNotes fuel query cap = searchNotes n query cap
  /\ ((exists e, outcome (searchNotes fuel query) cap = inl e)
      \/ (exists notes,
            outcome (searchNotes fuel query) cap = inr (Some notes)
            /\ Forall (fun note => matches query note = true) notes)).
Proof.
  intros Hshallow Hfuel. unfold Vault.searchNotes, outcome.
  destruct (searchRecursive_stable n VAULT_PATH_STRING Hshallow fuel [] Hfuel)
    as (-> & Hsome).
  split; [ reflexivity | ].
  pose proof (searchRecursive_found n VAULT_PATH_STRING []) as Hfound.
  unfold found_from in Hfound.
  destruct (searchRecursive n query VAULT_PATH_STRING [] cap) as [[e | [notes | ]] t];
    cbn [fst] in *.
  - left. exists e. reflexivity.
  - right. exists notes. destruct Hfound as (new & -> & Hnew).
    split; [ reflexivity | exact Hnew ].
  - contradiction Hsome. reflexivity.
Qed.

(** X28: a directory that cannot be listed, a note that cannot be read
    or a note whose text the front-matter library refuses makes the
    whole search fail with that error: the notes found before it are
    not returned. *)
Theorem search_all_or_nothing fuel :
  (forall e, rejected (searchNotes fuel query) cap e ->
             outcome (searchNotes fuel query) cap = inl e)
  /\ (forall path file e,
        In (Vault.readFile path) (trace (searchNotes fuel query) cap) ->
        cap (Vault.readFile path) = inr file ->
        matter (Vault.text file) = inl e ->
        outcome (searchNotes fuel query) cap = inl e).
Proof.
  split.
  - intros e (c & Hin & Hc).
    apply (searchRecursive_ends fuel VAULT_PATH_STRING [] c e Hin). left. exact Hc.
  - intros path file e Hin Hfile Hmatter.
    apply (searchRecursive_ends fuel VAULT_PATH_STRING [] _ e Hin).
    right. exists file. split; [ exists path; reflexivity | ]. split; assumption.
Qed.

(** X29: a search only lists directories and reads files whose name ends
    in [.md], each by its path relative to the root of the vault; it
    writes nothing. *)
Theorem search_reads_markdown_only fuel :
  Forall access (trace (searchNotes fuel query) cap).
Proof. apply searchRecursive_access. Qed.


(** *** The query only filters *)

Lemma includes_empty s : includes "" s = true.
Proof. destruct s; reflexivity. Qed.

Lemma visit_filters recurse recurse_all dir :
  toLowerCase "" = "" ->
  (forall d notes all,
     filters_of toLowerCase query notes all
       (recurse d notes cap) (recurse_all d all cap)) ->
  forall entries notes all,
    filters_of toLowerCase query notes all
      (visit recurse query dir entries notes cap)
      (visit recurse_all "" dir entries all cap).
Proof.
  intros Hlower Hrec. induction entries as [ | entry entries IH]; intros notes all.
  - split; [ reflexivity | ]. exists []. rewrite !app_nil_r. split; reflexivity.
  - cbn [Vault.visit]. destruct (Vault.kind_of entry).
    + destruct (endsWith ".md" (Vault.name entry)); [ | apply IH ].
      rewrite !bind_run. destruct (readNote _ cap) as [[e | note] t].
      * split; reflexivity.
      * assert (Hall : matches "" note = true)
          by (unfold Vault.matches; rewrite Hlower, includes_empty; reflexivity).
        rewrite Hall.
        specialize (IH (if matches query note then (notes ++ [note])%list else notes)
                       (all ++ [note])%list).
        destruct (visit recurse query dir entries _ cap) as [r1 t1].
        destruct (visit recurse_all "" dir entries _ cap) as [r2 t2].
        destruct IH as (Ht & Hr). cbn [fst snd] in *. subst t2.
        split; [ reflexivity | ].
        destruct r1 as [e1 | [n1 | ]], r2 as [e2 | [n2 | ]]; try exact Hr.
        destruct Hr as (new & -> & ->). exists (note :: new).
        rewrite <- app_assoc. split; [ reflexivity | ].
        cbn [List.filter]. destruct (matches query note);
          [ rewrite <- app_assoc | ]; reflexivity.
    + rewrite !bind_run.
      specialize (Hrec (path_join dir (Vault.name entry)) notes all).
      destruct (recurse _ notes cap) as [r1 t1].
      destruct (recurse_all _ all cap) as [r2 t2].
      destruct Hrec as (Ht & Hr). cbn [fst snd] in *. subst t2.
      destruct r1 as [e1 | [n1 | ]], r2 as [e2 | [n2 | ]]; try contradiction;
        try (split; [ reflexivity | exact Hr ]).
      destruct Hr as (new & -> & ->).
      specialize (IH (notes ++ List.filter (matches query) new)%list (all ++ new)%list).
      destruct (visit recurse query dir entries _ cap) as [r1 t1'].
      destruct (visit recurse_all "" dir entries _ cap) as [r2 t2'].
      destruct IH as (Ht & Hr). cbn [fst snd] in *. subst t2'.
      split; [ reflexivity | ].
      destruct r1 as [e1 | [n1 | ]], r2 as [e2 | [n2 | ]]; try exact Hr.
      destruct Hr as (new' & -> & ->). exists (new ++ new')%list.
      rewrite List.filter_app, !app_assoc. split; reflexivity.
    + apply IH.
Qed.

Lemma searchRecursive_filters fuel :
  toLowerCase "" = "" ->
  forall dir notes all,
    filters_of toLowerCase query notes all
      (searchRecursive fuel query dir notes cap)
      (searchRecursive fuel "" dir all cap).
Proof.
  intros Hlower. induction fuel as [ | fuel IH]; intros dir notes all.
  - split; [ reflexivity | exact I ].
  - cbn [Vault.searchRecursive]. rewrite !bind_run. unfold await.
    destruct (cap (Vault.readdir dir)) as [e | listing]; [ split; reflexivity | ].
    pose proof (visit_filters (searchRecursive fuel query) (searchRecursive fuel "")
                  dir Hlower IH (Vault.entries listing) notes all) as H.
    destruct (visit (searchRecursive fuel query) query dir _ notes cap) as [r1 t1].
    destruct (visit (searchRecursive fuel "") "" dir _ all cap) as [r2 t2].
    destruct H as (Ht & Hr). cbn [fst snd] in *. subst t2.
    split; [ reflexivity | exact Hr ].
Qed.

(** *** The empty query keeps every note *)

Lemma reads_app t t' : reads (t ++ t') = (reads t ++ reads t')%list.
Proof. unfold reads. apply List.flat_map_app. Qed.

Local Abbreviation collects :=
  (collected VAULT_PATH_STRING path_join path_basename matter cap).

Lemma visit_collects recurse dir :
  toLowerCase "" = "" ->
  (forall d all, collects all (recurse d all cap)) ->
  forall entries all, collects all (visit recurse "" dir entries all cap).
Proof.
  intros Hlower Hrec. induction entries as [ | entry entries IH]; intros all.
  - exists []. rewrite app_nil_r. repeat split. apply List.Forall_nil.
  - cbn [Vault.visit]. destruct (Vault.kind_of entry).
    + destruct (endsWith ".md" (Vault.name entry)); [ | apply IH ].
      rewrite bind_run, readNote_run.
      destruct (cap (Vault.readFile _)) as [e | file] eqn:Efile; [ exact I | ].
      destruct (matter (Vault.text file)) as [e | parsed] eqn:Eparsed; [ exact I | ].
      match goal with
      | |- context [matches "" ?n] =>
          set (note := n);
          assert (Hall : matches "" note = true)
            by (unfold Vault.matches; rewrite Hlower, includes_empty; reflexivity);
          rewrite Hall
      end.
      specialize (IH (all ++ [note])%list).
      destruct (visit recurse "" dir entries _ cap) as [[e | [all' | ]] t];
        try exact I.
      unfold collected in IH |- *. cbn [fst snd] in IH |- *.
      destruct IH as (new & -> & Hreads & Hnew).
      exists (note :: new). rewrite <- app_assoc. split; [ reflexivity | ].
      split.
      * cbn [List.map app reads List.flat_map]. fold (reads t). rewrite Hreads.
        reflexivity.
      * apply List.Forall_cons; [ | exact Hnew ].
        unfold outcome. rewrite readNote_run. cbn [Vault.path note fst].
        subst note. cbn [Vault.path]. rewrite Efile, Eparsed. reflexivity.
    + rewrite bind_run.
      specialize (Hrec (path_join dir (Vault.name entry)) all).
      destruct (recurse _ all cap) as [[e | [all' | ]] t]; try exact I.
      unfold collected in Hrec. cbn [fst snd] in Hrec.
      destruct Hrec as (new & -> & Hreads & Hnew).
      specialize (IH (all ++ new)%list).
      destruct (visit recurse "" dir entries _ cap) as [[e | [all' | ]] t'];
        try exact I.
      unfold collected in IH |- *. cbn [fst snd] in IH |- *.
      destruct IH as (new' & -> & Hreads' & Hnew').
      exists (new ++ new')%list. rewrite app_assoc. split; [ reflexivity | ].
      split.
      * rewrite List.map_app, reads_app, Hreads, Hreads'. reflexivity.
      * apply Forall_app. split; assumption.
    + apply IH.
Qed.

Lemma searchRecursive_collects fuel :
  toLowerCase "" = "" ->
  forall dir all, collects all (searchRecursive fuel "" dir all cap).
Proof.
  intros Hlower. induction fuel as [ | fuel IH]; intros dir all; [ exact I | ].
  cbn [Vault.searchRecursive]. rewrite bind_run. unfold await.
  destruct (cap (Vault.readdir dir)) as [e | listing]; [ exact I | ].
  pose proof (visit_collects (searchRecursive fuel "") dir Hlower IH
                (Vault.entries listing) all) as H.
  destruct (visit _ "" dir (Vault.entries listing) all cap) as [[e | [all' | ]] t];
    try exact I.
  unfold collected in H |- *. cbn [fst snd] in H |- *.
  destruct H as (new & -> & Hreads & Hnew). exists new.
  split; [ reflexivity | ]. split; [ | exact Hnew ].
  rewrite Hreads. reflexivity.
Qed.

(** X30: the query decides which notes are returned and nothing else.
    The search for the empty query returns every note it reads: one
    note for each file read, in the order of the reads, each as
    [readNote] gives it.  The search for [query] visits the same
    directories and reads the same files, and returns those of these
    notes that pass the test of the query, in the same order. *)
Theorem search_is_a_filter fuel all :
  toLowerCase "" = "" ->
  outcome (searchNotes fuel "") cap = inr (Some all) ->
  outcome (searchNotes fuel query) cap
  = inr (Some (List.filter (matches query) all))
  /\ trace (searchNotes fuel query) cap = trace (searchNotes fuel "") cap
  /\ List.map (fun note => path_join VAULT_PATH_STRING (Vault.path note)) all
     = reads (trace (searchNotes fuel "") cap)
  /\ Forall (fun note => outcome (readNote (Vault.path note)) cap = inr note) all.
Proof.
  intros Hlower Hall. unfold Vault.searchNotes, outcome, trace in *.
  destruct (searchRecursive_filters fuel Hlower VAULT_PATH_STRING [] []) as (Ht & Hr).
  pose proof (searchRecursive_collects fuel Hlower VAULT_PATH_STRING []) as Hc.
  unfold collected in Hc. rewrite Hall in Hr, Hc.
  destruct Hc as (new & [= ->] & Hreads & Hnew). cbn [app] in *.
  split; [ | split; [ exact Ht | split; [ exact Hreads | exact Hnew ] ] ].
  destruct (fst (searchRecursive fuel query VAULT_PATH_STRING [] cap))
    as [e | [notes | ]]; try contradiction.
  destruct Hr as (new' & [= ->] & ->). reflexivity.
Qed.

End Vault_properties.

Lemma search_returns_matches_witness :
  exists notes,
    outcome (Vault.searchNotes "/vault" sample_join sample_relative sample_basename
               sample_matter (fun s => s) 5 "soup") (sample_vault true)
    = inr (Some notes)
    /\ Forall (fun note => Vault.matches (fun s => s) "soup" note = true) notes.
Proof.
  assert (Hshallow : shallow sample_join (sample_vault true) 2 "/vault").
  { cbn. repeat apply List.Forall_cons; try apply List.Forall_nil;
      cbn; intros Hkind; try discriminate Hkind.
    repeat apply List.Forall_cons; try apply List.Forall_nil;
      cbn; intros Hkind'; discriminate Hkind'. }
  destruct (search_returns_matches "/vault" sample_join sample_relative sample_basename
              sample_matter (fun s => s) "soup" (sample_vault true) 2 5 Hshallow
              ltac:(lia)) as (_ & [(e & He) | Hnotes]).
  - vm_compute in He. discriminate He.
  - exact Hnotes.
Defined.

Lemma search_all_or_nothing_witness :
  outcome (Vault.searchNotes "/vault" sample_join sample_relative sample_basename
             sample_matter (fun s => s) 2 "soup") (sample_vault false)
  = inl (Error "EACCES")
  /\ outcome (Vault.searchNotes "/vault" sample_join sample_relative sample_basename
                broken_matter (fun s => s) 2 "soup") (sample_vault true)
     = inl (Error "can not read a block mapping entry").
Proof.
  split.
  - apply (proj1 (search_all_or_nothing "/vault" sample_join sample_relative
                    sample_basename sample_matter (fun s => s) "soup"
                    (sample_vault false) 2)).
    exists (Vault.readFile "/vault/rust.md").
    split; [ right; left; reflexivity | reflexivity ].
  - apply (proj2 (search_all_or_nothing "/vault" sample_join sample_relative
                    sample_basename broken_matter (fun s => s) "soup"
                    (sample_vault true) 2)
             "/vault/rust.md"
             {| Vault.text := "notes on /vault/rust.md"; Vault.entries := [] |}).
    + right; left; reflexivity.
    + reflexivity.
    + reflexivity.
Defined.

Lemma search_is_a_filter_witness :
  outcome (Vault.searchNotes "/vault" sample_join sample_relative sample_basename
             sample_matter (fun s => s) 2 "soup") (sample_vault true)
  = inr (Some [sample_note "food/soup.md" "soup"])
  /\ reads (trace (Vault.searchNotes "/vault" sample_join sample_relative
                     sample_basename sample_matter (fun s => s) 2 "")
              (sample_vault true))
     = ["/vault/rust.md"; "/vault/food/soup.md"].
Proof.
  destruct (search_is_a_filter "/vault" sample_join sample_relative sample_basename
              sample_matter (fun s => s) "soup" (sample_vault true) 2
              [sample_note "rust.md" "rust"; sample_note "food/soup.md" "soup"]
              eq_refl eq_refl) as (Hfound & _ & Hreads & _).
  split; [ exact Hfound | ]. rewrite <- Hreads. reflexivity.
Defined.
